(** * The automation scripting engine of the OpenMOHAA MCP server

    A shallow embedding of [AutomationFramework] (automation.ts) and of the
    parts of [ScreenCapture] (screen-capture.ts) it relies on, followed by the
    properties of the engine: phase sequencing, failure isolation, teardown,
    cancellation, condition polling, pixel matching and the variables map.
    After the engine come the pure parts of its collaborators: the arguments
    and the console buffer of [ProcessLauncher] (launcher.ts), the console
    toggle of [ConsoleManager] (console.ts), and the output parser of
    [ScriptValidator] (script-validator.ts), each with its properties.

    The engine is asynchronous TypeScript on a single thread.  The embedding
    is a state-and-exception monad over the engine's private fields and an
    abstract world [W] that stands for everything outside the engine: the
    four collaborators, the wall clock, the timers and the event listeners.

    What the embedding takes for granted:
    - an awaited collaborator call settles: it resolves or it throws;
    - the rest of the program runs only while such a call or a timer is
      pending, or as a listener of an event the engine emits; of the engine's
      methods it then calls [abort()] at most (a second [runScript] on an
      engine that is running is unsupported by the source);
    - listeners are observers: they return normally;
    - numbers are integers, and a [while] loop is run on fuel, one unit per
      iteration;
    - a parameter that the code reads as a number is a number, the name of
      a variable is a string, and two objects are never the same object (see
      [to_number], [as_string] and [strict_eq]). *)

From Stdlib Require Import ZArith Ascii String List Bool Lia.
From stdpp Require Import base option gmap strings pretty.
Import ListNotations.

#[local] Set Warnings "-register-all".
Local Open Scope string_scope.
Local Open Scope Z_scope.

(** ** JavaScript values

    Script parameters are [Record<string, unknown>]; scripts reach the engine
    through [JSON.parse].  Numbers are integers in [JNum]; a number that is not
    an integer (a threshold such as 0.9) is carried by its literal in [JDec]
    and is only ever threaded through to a collaborator. *)

Inductive JsVal : Type :=
| JUndefined
| JNull
| JBool (v : bool)
| JNum (n : Z)
| JDec (literal : string)
| JStr (s : string)
| JObj (fields : list (string * JsVal)).

Definition Params : Type := list (string * JsVal).

(** [o.k], the property read; a missing key reads [undefined]. *)
Fixpoint prop (o : Params) (k : string) : JsVal :=
  match o with
  | [] => JUndefined
  | (k', v) :: rest => if String.eqb k' k then v else prop rest k
  end.

(** [v.k] on a value that is not [undefined] or [null]. *)
Definition member (v : JsVal) (k : string) : JsVal :=
  match v with
  | JObj fields => prop fields k
  | _ => JUndefined
  end.

(** ToBoolean. *)
Definition truthy (v : JsVal) : bool :=
  match v with
  | JUndefined | JNull => false
  | JBool v => v
  | JNum n => negb (n =? 0)
  | JDec _ => true
  | JStr s => negb (String.eqb s "")
  | JObj _ => true
  end.

(** [a || d] and [a && d]. *)
Definition js_or (a d : JsVal) : JsVal := if truthy a then a else d.
Definition js_and (a d : JsVal) : JsVal := if truthy a then d else a.

(** A default parameter value, [f(x = d)]: taken when [undefined] is passed. *)
Definition default_arg (v d : JsVal) : JsVal :=
  match v with
  | JUndefined => d
  | _ => v
  end.

(** ToNumber, on the integer fragment: a number is an integer, a boolean
    is 0 or 1, [null] is 0 and [undefined] is NaN.  [None] is NaN; it also
    stands in for what ToNumber makes of a string, a fraction or an object,
    which the integer model does not hold: what is proved of a timeout or a
    tolerance read through [to_number] is stated for numbers. *)
Definition to_number (v : JsVal) : option Z :=
  match v with
  | JNum n => Some n
  | JBool v => Some (if v then 1 else 0)
  | JNull => Some 0
  | _ => None
  end.

(** [a <= t] and [a < t] on numbers; a comparison with NaN is false. *)
Definition num_le (a t : option Z) : bool :=
  match a, t with
  | Some a, Some t => a <=? t
  | _, _ => false
  end.

Definition num_lt (a t : option Z) : bool :=
  match a, t with
  | Some a, Some t => a <? t
  | _, _ => false
  end.

(** [a === b].  Two objects are equal when they are the same object; the
    embedding does not track the identity of objects and takes two objects
    to be distinct, as the objects of a parsed script are.  What is proved of
    an [assert] is stated for values that are not objects. *)
Definition strict_eq (a c : JsVal) : bool :=
  match a, c with
  | JUndefined, JUndefined => true
  | JNull, JNull => true
  | JBool x, JBool y => Bool.eqb x y
  | JNum x, JNum y => x =? y
  | JDec x, JDec y => String.eqb x y
  | JStr x, JStr y => String.eqb x y
  | _, _ => false
  end.

(** [v as string], used for the keys of the variables map, which the source
    types as [Map<string, unknown>].  The cast is unchecked: a name that is
    not a string is read as the empty name here, and what is proved of a
    variable named by a parameter is stated for names that are strings. *)
Definition as_string (v : JsVal) : string :=
  match v with
  | JStr s => s
  | _ => ""
  end.

(** ** The data model (types.ts) *)

Record PixelColor := { r : Z; g : Z; b : Z }.

Record WaitCondition := {
  cond_type : string;
  cond_params : Params;
  cond_timeout : Z;
}.

Record AutomationStep := {
  step_action : string;
  step_params : Params;
  step_timeout : option Z;
  waitAfter : option Z;
  condition : option WaitCondition;
}.

Record AutomationScript := {
  script_name : string;
  description : option string;
  script_steps : list AutomationStep;
  setup : option (list AutomationStep);
  teardown : option (list AutomationStep);
}.

Record StepResult := {
  action : string;
  success : bool;
  duration : Z;
  error : option string;
}.

Record TestResult := {
  name : string;
  passed : bool;
  total_duration : Z;
  steps : list StepResult;
}.

Record CvarInfo := { cvar_name : string; value : string }.

Record ImageMatchResult := {
  found : bool;
  match_x : Z;
  match_y : Z;
  confidence : JsVal;
}.

(** ** The world outside the engine *)

(** The awaited operations of the collaborators, indexed by what they resolve
    to.  Arguments are threaded through as the script gives them. *)
Inductive Call : Type -> Type :=
(* ProcessLauncher *)
| Launch (config : JsVal) : Call unit
| Stop : Call unit
| Restart : Call unit
| ForceKill : Call unit
| WaitForConsolePattern (pattern timeout : JsVal) : Call (option JsVal)
(* ConsoleManager *)
| SendCommand (command : JsVal) : Call unit
| SetCvar (cvar val : JsVal) : Call unit
| GetCvar (cvar : JsVal) : Call (option CvarInfo)
| LoadMap (map : JsVal) : Call unit
| ExecConfig (path : JsVal) : Call unit
(* UIController *)
| MoveMouseRelative (x y : JsVal) : Call unit
| MoveMouseToWindow (x y : JsVal) : Call unit
| MoveMouse (x y : JsVal) : Call unit
| ClickAt (x y button : JsVal) : Call unit
| ClickMouse (button : JsVal) : Call unit
| DoubleClick (button : JsVal) : Call unit
| Drag (startX startY endX endY button : JsVal) : Call unit
| Scroll (direction clicks : JsVal) : Call unit
| TypeText (text delay : JsVal) : Call unit
| PressKeyWithModifiers (key modifiers : JsVal) : Call unit
| PressKey (key : JsVal) : Call unit
| SendKeyCombo (combo : JsVal) : Call unit
| ToggleConsole : Call unit
| FocusWindow : Call unit
| FindWindow (title : JsVal) : Call (option JsVal)
(* ScreenCapture, the operations that shell out *)
| SaveScreenshot (path : JsVal) : Call bool
| GetPixelColor (x y : JsVal) : Call (option PixelColor)
| FindImage (template region threshold : JsVal) : Call ImageMatchResult.

(** The events the engine emits. *)
Inductive Event : Type :=
| EvScriptStart (script : string)
| EvPhase (phase : string)
| EvStepStart (act : string) (params : Params)
| EvStepComplete (result : StepResult)
| EvScriptComplete (result : TestResult)
| EvAbort
| EvLog (message data : JsVal).

(** What an awaited call comes back with: a value or a thrown error (carried
    as [String(error)]), the world afterwards, and whether somebody called
    [abort()] on the engine while it was suspended. *)
Record Reply (W A : Type) := mkReply {
  outcome : string + A;
  after : W;
  abort_called : bool;
}.
Arguments mkReply {W A}.
Arguments outcome {W A}.
Arguments after {W A}.
Arguments abort_called {W A}.

(** The interface of the world.  [listeners] runs the listeners of an emitted
    event: they are observers, return normally, and may call [abort()].
    [launcher_isRunning] and [launcher_searchConsole] are the launcher's
    synchronous [isRunning()] and [searchConsole(pattern, limit)].  [String_]
    and [JSON_stringify] are the runtime's [String(v)] (also behind a template
    literal) and [JSON.stringify(condition)], used in error messages only. *)
Class World (W : Type) := {
  Date_now : W -> Z;
  perform : forall {A : Type}, Call A -> W -> Reply W A;
  setTimeout : JsVal -> W -> W * bool;
  listeners : Event -> W -> W * bool;
  launcher_isRunning : W -> bool;
  launcher_searchConsole : JsVal -> JsVal -> W -> string + list JsVal;
  String_ : JsVal -> string;
  JSON_stringify : WaitCondition -> string;
}.

(** ** The engine's state and its monad *)

Section Engine.

Context {W : Type} `{World W}.

(** The private fields of [AutomationFramework], and the world. *)
Record State := mkState {
  running : bool;
  aborted : bool;
  currentScript : option AutomationScript;
  stepResults : list StepResult;
  variables : gmap string JsVal;
  world : W;
}.

Definition set_running (v : bool) (s : State) : State :=
  mkState v (aborted s) (currentScript s) (stepResults s) (variables s) (world s).
Definition set_aborted (v : bool) (s : State) : State :=
  mkState (running s) v (currentScript s) (stepResults s) (variables s) (world s).
Definition set_currentScript (v : option AutomationScript) (s : State) : State :=
  mkState (running s) (aborted s) v (stepResults s) (variables s) (world s).
Definition set_stepResults (v : list StepResult) (s : State) : State :=
  mkState (running s) (aborted s) (currentScript s) v (variables s) (world s).
Definition set_variables (v : gmap string JsVal) (s : State) : State :=
  mkState (running s) (aborted s) (currentScript s) (stepResults s) v (world s).
Definition set_world (v : W) (s : State) : State :=
  mkState (running s) (aborted s) (currentScript s) (stepResults s) (variables s) v.

(** A computation returns, throws (the error as [String(error)]), or runs out
    of the fuel given to its polling loops. *)
Inductive Result (A : Type) : Type :=
| Returned (a : A) (s : State)
| Thrown (e : string) (s : State)
| OutOfFuel.
Arguments Returned {A}.
Arguments Thrown {A}.
Arguments OutOfFuel {A}.

Definition M (A : Type) : Type := State -> Result A.

Definition ret {A} (a : A) : M A := fun s => Returned a s.
Definition throw {A} (e : string) : M A := fun s => Thrown e s.
Definition bind {A B} (m : M A) (k : A -> M B) : M B :=
  fun s =>
    match m s with
    | Returned a s' => k a s'
    | Thrown e s' => Thrown e s'
    | OutOfFuel => OutOfFuel
    end.

Notation "'do' x <- m ; k" := (bind m (fun x => k))
  (at level 10, x name, m at level 100, k at level 200).

(** [throw new Error(msg)]: [String] of an [Error] prefixes its name. *)
Definition throw_Error {A} (msg : string) : M A := throw ("Error: " ++ msg).

(** [abort()] called from outside while the engine was suspended: the flag
    is set (the listeners of its 'abort' event are part of the world). *)
Definition note_abort (called : bool) (s : State) : State :=
  if called then set_aborted true s else s.

(** [await collaborator.method(...)]. *)
Definition await {A} (c : Call A) : M A :=
  fun s =>
    let rep := perform c (world s) in
    let s' := note_abort (abort_called rep) (set_world (after rep) s) in
    match outcome rep with
    | inl e => Thrown e s'
    | inr a => Returned a s'
    end.

(** [this.emit(event, ...)], as a change of state: listeners run now. *)
Definition emit (ev : Event) (s : State) : State :=
  let '(w, called) := listeners ev (world s) in
  note_abort called (set_world w s).

(** [delay(ms)]: [new Promise((resolve) => setTimeout(resolve, ms))], awaited. *)
Definition delay (ms : JsVal) : M unit :=
  fun s =>
    let '(w, called) := setTimeout ms (world s) in
    Returned tt (note_abort called (set_world w s)).

Definition now (s : State) : Z := Date_now (world s).

(** ** ScreenCapture (screen-capture.ts) *)

(** [checkPixelColor(x, y, expected, tolerance = 10)].  [getPixelColor] shells
    out and is the world's; the comparison is the code's. *)
Definition channel_diff (actual : Z) (expected : JsVal) : option Z :=
  match to_number expected with
  | Some e => Some (Z.abs (actual - e))
  | None => None
  end.

Definition checkPixelColor (x y expected tolerance : JsVal) : M bool :=
  let tolerance := default_arg tolerance (JNum 10) in
  do actual <- await (GetPixelColor x y);
  match actual with
  | None => ret false
  | Some actual =>
      match expected with
      | JUndefined =>
          throw "TypeError: Cannot read properties of undefined (reading 'r')"
      | JNull =>
          throw "TypeError: Cannot read properties of null (reading 'r')"
      | _ =>
          let dr := channel_diff (r actual) (member expected "r") in
          let dg := channel_diff (g actual) (member expected "g") in
          let db := channel_diff (b actual) (member expected "b") in
          ret (num_le dr (to_number tolerance)
               && num_le dg (to_number tolerance)
               && num_le db (to_number tolerance))
      end
  end.

(** [waitForPixelColor(x, y, expected, timeout = 30000, tolerance = 10)]:
    the [while] loop, one iteration per unit of fuel. *)
Fixpoint waitForPixelColor_loop (fuel : nat) (startTime : Z)
    (x y expected timeout tolerance : JsVal) : M bool :=
  fun s =>
    if num_lt (Some (now s - startTime)) (to_number timeout) then
      match fuel with
      | O => OutOfFuel
      | S fuel' =>
          (do matches <- checkPixelColor x y expected tolerance;
           if matches then ret true
           else do _ <- delay (JNum 200);
                waitForPixelColor_loop fuel' startTime x y expected timeout tolerance) s
      end
    else Returned false s.

Definition waitForPixelColor (fuel : nat)
    (x y expected timeout tolerance : JsVal) : M bool :=
  fun s =>
    let timeout := default_arg timeout (JNum 30000) in
    let tolerance := default_arg tolerance (JNum 10) in
    waitForPixelColor_loop fuel (now s) x y expected timeout tolerance s.

Definition notFound : ImageMatchResult :=
  {| found := false; match_x := 0; match_y := 0; confidence := JNum 0 |}.

(** [waitForImage(templatePath, timeout = 30000, threshold = 0.9)]. *)
Fixpoint waitForImage_loop (fuel : nat) (startTime : Z)
    (templatePath timeout threshold : JsVal) : M ImageMatchResult :=
  fun s =>
    if num_lt (Some (now s - startTime)) (to_number timeout) then
      match fuel with
      | O => OutOfFuel
      | S fuel' =>
          (do result <- await (FindImage templatePath JUndefined threshold);
           if found result then ret result
           else do _ <- delay (JNum 500);
                waitForImage_loop fuel' startTime templatePath timeout threshold) s
      end
    else Returned notFound s.

Definition waitForImage (fuel : nat)
    (templatePath timeout threshold : JsVal) : M ImageMatchResult :=
  fun s =>
    let timeout := default_arg timeout (JNum 30000) in
    let threshold := default_arg threshold (JDec "0.9") in
    waitForImage_loop fuel (now s) templatePath timeout threshold s.

(** ** AutomationFramework (automation.ts) *)

(** The action vocabulary: the [case] labels of [executeAction]. *)
Inductive Action : Type :=
| A_launch | A_stop | A_restart | A_kill
| A_command | A_set_cvar | A_get_cvar | A_load_map | A_exec_config
| A_mouse_move | A_mouse_click | A_double_click | A_drag | A_scroll
| A_type | A_press_key | A_key_combo | A_toggle_console | A_focus_window
| A_screenshot | A_check_pixel | A_find_image
| A_wait | A_wait_for_console | A_wait_for_pixel | A_wait_for_image
| A_assert | A_assert_running | A_assert_not_running
| A_set_variable | A_log.

Definition vocabulary : list (string * Action) :=
  [ ("launch", A_launch); ("stop", A_stop); ("restart", A_restart);
    ("kill", A_kill);
    ("command", A_command); ("set_cvar", A_set_cvar); ("get_cvar", A_get_cvar);
    ("load_map", A_load_map); ("exec_config", A_exec_config);
    ("mouse_move", A_mouse_move); ("mouse_click", A_mouse_click);
    ("double_click", A_double_click); ("drag", A_drag); ("scroll", A_scroll);
    ("type", A_type); ("press_key", A_press_key); ("key_combo", A_key_combo);
    ("toggle_console", A_toggle_console); ("focus_window", A_focus_window);
    ("screenshot", A_screenshot); ("check_pixel", A_check_pixel);
    ("find_image", A_find_image);
    ("wait", A_wait); ("wait_for_console", A_wait_for_console);
    ("wait_for_pixel", A_wait_for_pixel); ("wait_for_image", A_wait_for_image);
    ("assert", A_assert); ("assert_running", A_assert_running);
    ("assert_not_running", A_assert_not_running);
    ("set_variable", A_set_variable); ("log", A_log) ].

(** The [switch (action)]: the first label equal to the tag, if any. *)
Fixpoint lookup_label {A} (table : list (string * A)) (tag : string) : option A :=
  match table with
  | [] => None
  | (label, a) :: rest => if String.eqb tag label then Some a else lookup_label rest tag
  end.

(** [this.variables.set(key, v)] and [this.variables.get(key)]. *)
Definition variables_set (key : string) (v : JsVal) : M unit :=
  fun s => Returned tt (set_variables (<[key := v]> (variables s)) s).

Definition variables_get (key : string) (s : State) : JsVal :=
  match variables s !! key with
  | Some v => v
  | None => JUndefined
  end.

(** [cvar?.value]. *)
Definition cvar_value (cvar : option CvarInfo) : JsVal :=
  match cvar with
  | Some c => JStr (value c)
  | None => JUndefined
  end.

Definition button_or_left (params : Params) : JsVal :=
  js_or (prop params "button") (JStr "left").

Definition run_action (fuel : nat) (a : Action) (params : Params) : M unit :=
  match a with
  | A_launch =>
      let resolution :=
        if truthy (js_and (prop params "width") (prop params "height"))
        then JObj [("width", prop params "width"); ("height", prop params "height")]
        else JUndefined in
      await (Launch (JObj [("executablePath", prop params "executablePath");
                           ("workingDirectory", prop params "workingDirectory");
                           ("arguments", prop params "args");
                           ("windowedMode", prop params "windowed");
                           ("resolution", resolution)]))
  | A_stop => await Stop
  | A_restart => await Restart
  | A_kill => await ForceKill
  | A_command => await (SendCommand (prop params "command"))
  | A_set_cvar => await (SetCvar (prop params "name") (prop params "value"))
  | A_get_cvar =>
      do cvar <- await (GetCvar (prop params "name"));
      if truthy (prop params "storeAs")
      then variables_set (as_string (prop params "storeAs")) (cvar_value cvar)
      else ret tt
  | A_load_map => await (LoadMap (prop params "map"))
  | A_exec_config => await (ExecConfig (prop params "path"))
  | A_mouse_move =>
      if truthy (prop params "relative")
      then await (MoveMouseRelative (prop params "x") (prop params "y"))
      else if truthy (prop params "window")
      then await (MoveMouseToWindow (prop params "x") (prop params "y"))
      else await (MoveMouse (prop params "x") (prop params "y"))
  | A_mouse_click =>
      if negb (strict_eq (prop params "x") JUndefined)
         && negb (strict_eq (prop params "y") JUndefined)
      then await (ClickAt (prop params "x") (prop params "y") (button_or_left params))
      else await (ClickMouse (button_or_left params))
  | A_double_click => await (DoubleClick (button_or_left params))
  | A_drag =>
      await (Drag (prop params "startX") (prop params "startY")
                  (prop params "endX") (prop params "endY") (button_or_left params))
  | A_scroll =>
      await (Scroll (prop params "direction") (js_or (prop params "clicks") (JNum 3)))
  | A_type => await (TypeText (prop params "text") (prop params "delay"))
  | A_press_key =>
      if truthy (prop params "modifiers")
      then await (PressKeyWithModifiers (prop params "key") (prop params "modifiers"))
      else await (PressKey (prop params "key"))
  | A_key_combo => await (SendKeyCombo (prop params "combo"))
  | A_toggle_console => await ToggleConsole
  | A_focus_window => await FocusWindow
  | A_screenshot =>
      do result <- await (SaveScreenshot (prop params "path"));
      if negb result then throw_Error "Failed to save screenshot" else ret tt
  | A_check_pixel =>
      do matches <- checkPixelColor (prop params "x") (prop params "y")
                      (prop params "expected")
                      (js_or (prop params "tolerance") (JNum 10));
      if negb matches
      then throw_Error ("Pixel color mismatch at " ++ String_ (prop params "x")
                        ++ "," ++ String_ (prop params "y"))
      else ret tt
  | A_find_image =>
      do match_ <- await (FindImage (prop params "template") (prop params "region")
                            (js_or (prop params "threshold") (JDec "0.9")));
      if negb (found match_)
      then throw_Error ("Image not found: " ++ String_ (prop params "template"))
      else
        do _ <- (if truthy (prop params "storeX")
                 then variables_set (as_string (prop params "storeX")) (JNum (match_x match_))
                 else ret tt);
        if truthy (prop params "storeY")
        then variables_set (as_string (prop params "storeY")) (JNum (match_y match_))
        else ret tt
  | A_wait => delay (js_or (prop params "ms") (JNum 1000))
  | A_wait_for_console =>
      do _ <- await (WaitForConsolePattern (prop params "pattern")
                       (js_or (prop params "timeout") (JNum 30000)));
      ret tt
  | A_wait_for_pixel =>
      do _ <- waitForPixelColor fuel (prop params "x") (prop params "y")
                (prop params "expected")
                (js_or (prop params "timeout") (JNum 30000))
                (js_or (prop params "tolerance") (JNum 10));
      ret tt
  | A_wait_for_image =>
      do imageResult <- waitForImage fuel (prop params "template")
                          (js_or (prop params "timeout") (JNum 30000))
                          (js_or (prop params "threshold") (JDec "0.9"));
      if negb (found imageResult)
      then throw_Error ("Image not found: " ++ String_ (prop params "template"))
      else ret tt
  | A_assert =>
      fun s =>
        let v := variables_get (as_string (prop params "variable")) s in
        if negb (strict_eq v (prop params "expected"))
        then throw_Error ("Assertion failed: " ++ String_ (prop params "variable")
                          ++ " = " ++ String_ v
                          ++ ", expected " ++ String_ (prop params "expected")) s
        else Returned tt s
  | A_assert_running =>
      fun s =>
        if negb (launcher_isRunning (world s))
        then throw_Error "Game is not running" s
        else Returned tt s
  | A_assert_not_running =>
      fun s =>
        if launcher_isRunning (world s)
        then throw_Error "Game is still running" s
        else Returned tt s
  | A_set_variable =>
      variables_set (as_string (prop params "name")) (prop params "value")
  | A_log =>
      fun s => Returned tt (emit (EvLog (prop params "message") (prop params "data")) s)
  end.

(** [executeAction(action, params)]. *)
Definition executeAction (fuel : nat) (act : string) (params : Params) : M unit :=
  match lookup_label vocabulary act with
  | Some a => run_action fuel a params
  | None => throw_Error ("Unknown action: " ++ act)
  end.

(** The kinds of condition: the [case] labels of [checkCondition]. *)
Inductive ConditionKind : Type :=
| K_console_pattern | K_pixel_color | K_cvar_value | K_window_exists | K_timeout.

Definition condition_kinds : list (string * ConditionKind) :=
  [ ("console_pattern", K_console_pattern); ("pixel_color", K_pixel_color);
    ("cvar_value", K_cvar_value); ("window_exists", K_window_exists);
    ("timeout", K_timeout) ].

(** [checkCondition(condition)]. *)
Definition checkCondition (c : WaitCondition) : M bool :=
  match lookup_label condition_kinds (cond_type c) with
  | Some K_console_pattern =>
      fun s =>
        match launcher_searchConsole (prop (cond_params c) "pattern") (JNum 100) (world s) with
        | inl e => Thrown e s
        | inr output => Returned (0 <? Z.of_nat (length output)) s
        end
  | Some K_pixel_color =>
      checkPixelColor (prop (cond_params c) "x") (prop (cond_params c) "y")
        (prop (cond_params c) "expected")
        (js_or (prop (cond_params c) "tolerance") (JNum 10))
  | Some K_cvar_value =>
      do cvar <- await (GetCvar (prop (cond_params c) "name"));
      ret (strict_eq (cvar_value cvar) (prop (cond_params c) "expected"))
  | Some K_window_exists =>
      do window <- await (FindWindow (prop (cond_params c) "title"));
      ret (match window with Some _ => true | None => false end)
  | Some K_timeout => ret true
  | None => ret false
  end.

(** [condition.timeout || 30000]. *)
Definition effective_timeout (c : WaitCondition) : Z :=
  if cond_timeout c =? 0 then 30000 else cond_timeout c.

(** [waitForCondition(condition)]: the [while] loop, one iteration per unit
    of fuel. *)
Fixpoint waitForCondition_loop (fuel : nat) (startTime timeout : Z)
    (c : WaitCondition) : M bool :=
  fun s =>
    if now s - startTime <? timeout then
      match fuel with
      | O => OutOfFuel
      | S fuel' =>
          (do met <- checkCondition c;
           if met then ret true
           else do _ <- delay (JNum 200);
                waitForCondition_loop fuel' startTime timeout c) s
      end
    else Returned false s.

Definition waitForCondition (fuel : nat) (c : WaitCondition) : M bool :=
  fun s => waitForCondition_loop fuel (now s) (effective_timeout c) c s.

(** [this.stepResults.push(r)]. *)
Definition push_result (res : StepResult) (s : State) : State :=
  set_stepResults (stepResults s ++ [res]) s.

(** [if (step.waitAfter) await this.delay(step.waitAfter)]. *)
Definition wait_after (step : AutomationStep) : M unit :=
  match waitAfter step with
  | Some ms => if ms =? 0 then ret tt else delay (JNum ms)
  | None => ret tt
  end.

(** [if (step.condition) { ... throw new Error(`Condition not met: ...`) }]. *)
Definition wait_condition (fuel : nat) (step : AutomationStep) : M unit :=
  match condition step with
  | Some c =>
      do conditionMet <- waitForCondition fuel c;
      if negb conditionMet
      then throw_Error ("Condition not met: " ++ JSON_stringify c)
      else ret tt
  | None => ret tt
  end.

(** The [try] block of [executeStep]: the action, the delay, the condition. *)
Definition step_body (fuel : nat) (step : AutomationStep) : M unit :=
  do _ <- executeAction fuel (step_action step) (step_params step);
  do _ <- wait_after step;
  wait_condition fuel step.

(** The two records [executeStep] can push. *)
Definition success_record (step : AutomationStep) (d : Z) : StepResult :=
  {| action := step_action step; success := true; duration := d; error := None |}.
Definition failure_record (step : AutomationStep) (d : Z) (e : string) : StepResult :=
  {| action := step_action step; success := false; duration := d; error := Some e |}.

(** [executeStep(step)]. *)
Definition executeStep (fuel : nat) (step : AutomationStep) : M StepResult :=
  fun s =>
    let startTime := now s in
    let s0 := emit (EvStepStart (step_action step) (step_params step)) s in
    match step_body fuel step s0 with
    | Returned _ s1 =>
        let stepResult := success_record step (now s1 - startTime) in
        Returned stepResult (emit (EvStepComplete stepResult) (push_result stepResult s1))
    | Thrown e s1 =>
        let stepResult := failure_record step (now s1 - startTime) e in
        Thrown e (emit (EvStepComplete stepResult) (push_result stepResult s1))
    | OutOfFuel => OutOfFuel
    end.

(** [for (const step of steps) { if (this.aborted) break; await this.executeStep(step); }] *)
Fixpoint run_steps (fuel : nat) (l : list AutomationStep) : M unit :=
  match l with
  | [] => ret tt
  | step :: rest =>
      fun s =>
        if aborted s then Returned tt s
        else (do _ <- executeStep fuel step; run_steps fuel rest) s
  end.

(** [if (script.setup && script.setup.length > 0) { ... }]. *)
Definition setup_phase (fuel : nat) (script : AutomationScript) : M unit :=
  match setup script with
  | Some (step :: rest) =>
      fun s => run_steps fuel (step :: rest) (emit (EvPhase "setup") s)
  | _ => ret tt
  end.

(** [if (!this.aborted) { ... }]. *)
Definition main_phase (fuel : nat) (script : AutomationScript) : M unit :=
  fun s =>
    if negb (aborted s)
    then run_steps fuel (script_steps script) (emit (EvPhase "main") s)
    else Returned tt s.

(** The [try] block of [runScript]: the setup phase and the main phase. *)
Definition run_phases (fuel : nat) (script : AutomationScript) : M unit :=
  do _ <- setup_phase fuel script;
  main_phase fuel script.

(** The teardown loop: each [executeStep] in its own [try], the [catch] empty. *)
Fixpoint run_teardown (fuel : nat) (l : list AutomationStep) : M unit :=
  match l with
  | [] => ret tt
  | step :: rest =>
      fun s =>
        match executeStep fuel step s with
        | Returned _ s' => run_teardown fuel rest s'
        | Thrown _ s' => run_teardown fuel rest s'
        | OutOfFuel => OutOfFuel
        end
  end.

(** The [finally] block of [runScript]. *)
Definition finally_teardown (fuel : nat) (script : AutomationScript) : M unit :=
  match teardown script with
  | Some (step :: rest) =>
      fun s => run_teardown fuel (step :: rest) (emit (EvPhase "teardown") s)
  | _ => ret tt
  end.

(** The record pushed by the [catch] block of [runScript]. *)
Definition error_record (e : string) : StepResult :=
  {| action := "error"; success := false; duration := 0; error := Some e |}.

(** The head of [runScript]: the fields are reset, 'scriptStart' is emitted. *)
Definition start_run (script : AutomationScript) (s : State) : State :=
  let s := set_running true s in
  let s := set_aborted false s in
  let s := set_currentScript (Some script) s in
  let s := set_stepResults [] s in
  emit (EvScriptStart (script_name script)) s.

(** The [try { ... } catch (error) { this.stepResults.push(...) }] of
    [runScript]: the state in which the [finally] block starts. *)
Definition try_phases (fuel : nat) (script : AutomationScript) (s : State) : option State :=
  match run_phases fuel script s with
  | Returned _ s1 => Some s1
  | Thrown e s1 => Some (push_result (error_record e) s1)
  | OutOfFuel => None
  end.

(** The tail of [runScript]: the result is built, 'scriptComplete' is emitted. *)
Definition test_result (script : AutomationScript) (startTime : Z) (s : State) : TestResult :=
  {| name := script_name script;
     passed := forallb success (stepResults s);
     total_duration := now s - startTime;
     steps := stepResults s |}.

Definition finish_run (script : AutomationScript) (startTime : Z) (s : State) : State :=
  let s := set_running false s in
  emit (EvScriptComplete (test_result script startTime s)) s.

(** [runScript(script)]. *)
Definition runScript (fuel : nat) (script : AutomationScript) : M TestResult :=
  fun s =>
    let startTime := now s in
    match try_phases fuel script (start_run script s) with
    | Some s1 =>
        match finally_teardown fuel script s1 with
        | Returned _ s2 =>
            Returned (test_result script startTime (set_running false s2))
                     (finish_run script startTime s2)
        | Thrown e s2 => Thrown e s2
        | OutOfFuel => OutOfFuel
        end
    | None => OutOfFuel
    end.

(** [abort()]. *)
Definition abort (s : State) : State := emit EvAbort (set_aborted true s).

(** [isRunning()], [getStepResults()]. *)
Definition isRunning (s : State) : bool := running s.
Definition getStepResults (s : State) : list StepResult := stepResults s.

(** [getVariable(name)], [setVariable(name, value)], [clearVariables()]. *)
Definition getVariable (key : string) (s : State) : JsVal := variables_get key s.
Definition setVariable (key : string) (v : JsVal) (s : State) : State :=
  set_variables (<[key := v]> (variables s)) s.
Definition clearVariables (s : State) : State := set_variables ∅ s.

End Engine.

Arguments State W : clear implicits.
Arguments Result W A : clear implicits.
Arguments M W A : clear implicits.
Arguments Returned {W A}.
Arguments Thrown {W A}.
Arguments OutOfFuel {W A}.

(** ** A fake world

    A scripted stand-in for the collaborators, in the way of a test double:
    a clock that only timers and call latency advance, a log of the calls
    made, one pixel, one answer for image and console searches, calls that can
    be set to throw, and events on which a listener calls [abort()]. *)

Module Fake.

Record T := mk {
  clock : Z;
  calls : list string;
  latency : nat;
  pixel : option PixelColor;
  image : bool;
  console : list JsVal;
  broken : list string;
  abort_on : list string;
}.

Definition call_name {A} (c : Call A) : string :=
  match c with
  | Launch _ => "launch" | Stop => "stop" | Restart => "restart"
  | ForceKill => "forceKill" | WaitForConsolePattern _ _ => "waitForConsolePattern"
  | SendCommand _ => "sendCommand" | SetCvar _ _ => "setCvar" | GetCvar _ => "getCvar"
  | LoadMap _ => "loadMap" | ExecConfig _ => "execConfig"
  | MoveMouseRelative _ _ => "moveMouseRelative"
  | MoveMouseToWindow _ _ => "moveMouseToWindow" | MoveMouse _ _ => "moveMouse"
  | ClickAt _ _ _ => "clickAt" | ClickMouse _ => "clickMouse"
  | DoubleClick _ => "doubleClick" | Drag _ _ _ _ _ => "drag" | Scroll _ _ => "scroll"
  | TypeText _ _ => "typeText" | PressKeyWithModifiers _ _ => "pressKeyWithModifiers"
  | PressKey _ => "pressKey" | SendKeyCombo _ => "sendKeyCombo"
  | ToggleConsole => "toggleConsole" | FocusWindow => "focusWindow"
  | FindWindow _ => "findWindow" | SaveScreenshot _ => "saveScreenshot"
  | GetPixelColor _ _ => "getPixelColor" | FindImage _ _ _ => "findImage"
  end.

Definition event_name (ev : Event) : string :=
  match ev with
  | EvScriptStart _ => "scriptStart" | EvPhase p => "phase:" ++ p
  | EvStepStart a _ => "stepStart:" ++ a | EvStepComplete res => "stepComplete:" ++ action res
  | EvScriptComplete _ => "scriptComplete" | EvAbort => "abort" | EvLog _ _ => "log"
  end.

Definition mentions (l : list string) (x : string) : bool :=
  existsb (String.eqb x) l.

(** What a call resolves to when it does not throw. *)
Definition answer {A} (c : Call A) (w : T) : A :=
  match c in Call A return A with
  | WaitForConsolePattern _ _ => head (console w)
  | GetCvar _ => None
  | FindWindow _ => None
  | SaveScreenshot _ => true
  | GetPixelColor _ _ => pixel w
  | FindImage _ _ _ =>
      {| found := image w; match_x := 0; match_y := 0; confidence := JNum 0 |}
  | _ => tt
  end.

Definition served (n : string) (w : T) : T :=
  mk (clock w + Z.of_nat (latency w)) (calls w ++ [n]) (latency w)
     (pixel w) (image w) (console w) (broken w) (abort_on w).

Definition slept (ms : Z) (w : T) : T :=
  mk (clock w + Z.max 0 ms) (calls w) (latency w)
     (pixel w) (image w) (console w) (broken w) (abort_on w).

#[global] Instance fake_World : World T := {
  Date_now := clock;
  perform A c w :=
    mkReply (if mentions (broken w) (call_name c)
             then inl ("Error: " ++ call_name c ++ " failed")
             else inr (answer c w))
            (served (call_name c) w) false;
  setTimeout ms w :=
    (slept (match ms with JNum n => n | _ => 0 end) w, false);
  listeners ev w := (w, mentions (abort_on w) (event_name ev));
  launcher_isRunning w := false;
  launcher_searchConsole pattern limit w := inr (console w);
  String_ v := match v with JStr s => s | JDec l => l | _ => "value" end;
  JSON_stringify c := cond_type c;
}.

Definition quiet : T :=
  mk 0 [] 0 None false [] [] [].

Definition engine (w : T) : State T :=
  mkState false false None [] ∅ w.

End Fake.

(** ** Sample scripts and worlds *)

Module Demo.

Definition plain (act : string) (params : Params) : AutomationStep :=
  {| step_action := act; step_params := params; step_timeout := None;
     waitAfter := None; condition := None |}.

(** A script whose second main step has an unknown action, and whose
    teardown has one in the middle. *)
Definition script : AutomationScript :=
  {| script_name := "t"; description := None;
     script_steps := [plain "log" []; plain "bogus" []; plain "stop" []];
     setup := Some [plain "launch" []];
     teardown := Some [plain "kill" []; plain "nope" []; plain "stop" []] |}.

Definition one_step : AutomationScript :=
  {| script_name := "one"; description := None;
     script_steps := [plain "log" []];
     setup := None; teardown := None |}.

(** A world whose [forceKill] throws. *)
Definition no_kill : Fake.T :=
  Fake.mk 0 [] 0 None false [] ["forceKill"] [].

(** A world where a listener of 'scriptStart' calls [abort()]. *)
Definition abort_at_start : Fake.T :=
  Fake.mk 0 [] 0 None false [] [] ["scriptStart"].

(** A world whose sampled pixel is (10, 10, 10). *)
Definition grey : Fake.T :=
  Fake.mk 0 [] 0 (Some {| r := 10; g := 10; b := 10 |}) false [] [] [].

(** A world whose sampled pixel is black. *)
Definition black : Fake.T :=
  Fake.mk 0 [] 0 (Some {| r := 0; g := 0; b := 0 |}) false [] [] [].

Definition rgb (red green blue : Z) : JsVal :=
  JObj [("r", JNum red); ("g", JNum green); ("b", JNum blue)].

Definition pixel_condition (expected : JsVal) (tolerance : JsVal) : WaitCondition :=
  {| cond_type := "pixel_color";
     cond_params := [("x", JNum 1); ("y", JNum 1); ("expected", expected);
                     ("tolerance", tolerance)];
     cond_timeout := 1000 |}.

Definition unknown_condition (timeout : Z) : WaitCondition :=
  {| cond_type := "bogus"; cond_params := []; cond_timeout := timeout |}.

Definition guarded (c : WaitCondition) : AutomationStep :=
  {| step_action := "log"; step_params := []; step_timeout := None;
     waitAfter := None; condition := Some c |}.

Definition timeout_condition : WaitCondition :=
  {| cond_type := "timeout"; cond_params := []; cond_timeout := 1000 |}.

(** A console command, a delay of 50 ms, then a condition. *)
Definition gated (c : WaitCondition) : AutomationStep :=
  {| step_action := "command"; step_params := [("command", JStr "god")];
     step_timeout := None; waitAfter := Some 50; condition := Some c |}.

Definition wait_for_console : AutomationStep :=
  plain "wait_for_console" [("pattern", JStr "loaded"); ("timeout", JNum 400)].

Definition wait_for_pixel : AutomationStep :=
  plain "wait_for_pixel"
    [("x", JNum 1); ("y", JNum 1); ("expected", rgb 255 255 255); ("timeout", JNum 400)].

Definition wait_for_image : AutomationStep :=
  plain "wait_for_image" [("template", JStr "menu.png"); ("timeout", JNum 1000)].

End Demo.

(** * Properties *)

Arguments set_running {W} v s /.
Arguments set_aborted {W} v s /.
Arguments set_currentScript {W} v s /.
Arguments set_stepResults {W} v s /.
Arguments set_variables {W} v s /.
Arguments set_world {W} v s /.

(** What the proofs ask of time: a collaborator call does not turn the clock
    back, and a timer of [n] milliseconds lets at least [n] pass. *)
Class TimedWorld (W : Type) `{World W} : Prop := {
  perform_clock : forall A (c : Call A) (w : W),
    Date_now w <= Date_now (after (perform c w));
  timer_clock : forall (n : Z) (w : W),
    0 <= n -> Date_now w + n <= Date_now (fst (setTimeout (JNum n) w));
}.

(** The number of polls a loop of the given timeout and interval can make. *)
Definition polls (timeout interval : Z) : nat :=
  Z.to_nat ((timeout + interval - 1) / interval).

Definition timeout_polls (timeout : JsVal) (interval : Z) : nat :=
  match to_number timeout with
  | Some t => polls t interval
  | None => O
  end.

(** The fuel the loops of one step, and of a script, can use. *)
Definition action_polls (act : string) (params : Params) : nat :=
  match lookup_label vocabulary act with
  | Some A_wait_for_pixel =>
      timeout_polls (js_or (prop params "timeout") (JNum 30000)) 200
  | Some A_wait_for_image =>
      timeout_polls (js_or (prop params "timeout") (JNum 30000)) 500
  | _ => O
  end.

Definition condition_polls (step : AutomationStep) : nat :=
  match condition step with
  | Some c => polls (effective_timeout c) 200
  | None => O
  end.

Definition step_polls (step : AutomationStep) : nat :=
  Nat.max (action_polls (step_action step) (step_params step)) (condition_polls step).

Definition steps_polls (l : list AutomationStep) : nat :=
  fold_right (fun step n => Nat.max (step_polls step) n) O l.

Definition opt_steps (l : option (list AutomationStep)) : list AutomationStep :=
  match l with
  | Some l => l
  | None => []
  end.

Definition script_polls (script : AutomationScript) : nat :=
  Nat.max (steps_polls (opt_steps (setup script)))
    (Nat.max (steps_polls (script_steps script))
             (steps_polls (opt_steps (teardown script)))).

(** The keys of the variables map a step's action writes. *)
Definition written_keys (step : AutomationStep) : list string :=
  let params := step_params step in
  match lookup_label vocabulary (step_action step) with
  | Some A_get_cvar =>
      if truthy (prop params "storeAs") then [as_string (prop params "storeAs")] else []
  | Some A_find_image =>
      (if truthy (prop params "storeX") then [as_string (prop params "storeX")] else [])
      ++ (if truthy (prop params "storeY") then [as_string (prop params "storeY")] else [])
  | Some A_set_variable => [as_string (prop params "name")]
  | _ => []
  end.

Definition script_written_keys (script : AutomationScript) : list string :=
  flat_map written_keys
    (opt_steps (setup script) ++ script_steps script ++ opt_steps (teardown script)).

(** [expected as PixelColor]: the value is an object with three numbers. *)
Definition as_PixelColor (v : JsVal) : option PixelColor :=
  match v with
  | JObj fields =>
      match prop fields "r", prop fields "g", prop fields "b" with
      | JNum er, JNum eg, JNum eb => Some {| r := er; g := eg; b := eb |}
      | _, _, _ => None
      end
  | _ => None
  end.

(** The pixel comparison of [checkPixelColor], on a sampled colour. *)
Definition within (tolerance : Z) (actual expected : PixelColor) : Prop :=
  Z.abs (r actual - r expected) <= tolerance
  /\ Z.abs (g actual - g expected) <= tolerance
  /\ Z.abs (b actual - b expected) <= tolerance.

(** Two states that differ at most in the abort flag, and two results that do. *)
Definition unflag {W} (s : State W) : State W := set_aborted false s.

Definition unflag_result {W A} (res : Result W A) : Result W A :=
  match res with
  | Returned a s => Returned a (unflag s)
  | Thrown e s => Thrown e (unflag s)
  | OutOfFuel => OutOfFuel
  end.

(** A computation that never reads the abort flag. *)
Definition flag_blind {W A} (m : M W A) : Prop :=
  forall s s' : State W, unflag s = unflag s' -> unflag_result (m s) = unflag_result (m s').

Definition effective_tolerance (v : JsVal) : Z :=
  match v with
  | JNum t => if t =? 0 then 10 else t
  | _ => 10
  end.

Definition the_condition_kinds : list string :=
  ["console_pattern"; "pixel_color"; "cvar_value"; "window_exists"; "timeout"].

(** ** The action table

    The collaborator call an action is dispatched to, for the actions that
    are one awaited call with the parameters threaded through, after the
    action vocabulary of the specification and the interfaces it lists.
    [check_pixel], [wait_for_pixel] and [wait_for_image] run code of
    ScreenCapture, [wait] a timer, and the assertions, [set_variable] and
    [log] code of the engine itself: they are not in the table. *)
Inductive AnyCall : Type :=
| any {A : Type} (c : Call A).

Definition action_table : list (string * (Params -> AnyCall)) :=
  [ ("launch", fun params =>
       any (Launch
              (JObj [("executablePath", prop params "executablePath");
                     ("workingDirectory", prop params "workingDirectory");
                     ("arguments", prop params "args");
                     ("windowedMode", prop params "windowed");
                     ("resolution",
                      if truthy (js_and (prop params "width") (prop params "height"))
                      then JObj [("width", prop params "width");
                                 ("height", prop params "height")]
                      else JUndefined)])));
    ("stop", fun _ => any Stop);
    ("restart", fun _ => any Restart);
    ("kill", fun _ => any ForceKill);
    ("command", fun params => any (SendCommand (prop params "command")));
    ("set_cvar", fun params => any (SetCvar (prop params "name") (prop params "value")));
    ("get_cvar", fun params => any (GetCvar (prop params "name")));
    ("load_map", fun params => any (LoadMap (prop params "map")));
    ("exec_config", fun params => any (ExecConfig (prop params "path")));
    ("mouse_move", fun params =>
       if truthy (prop params "relative")
       then any (MoveMouseRelative (prop params "x") (prop params "y"))
       else if truthy (prop params "window")
       then any (MoveMouseToWindow (prop params "x") (prop params "y"))
       else any (MoveMouse (prop params "x") (prop params "y")));
    ("mouse_click", fun params =>
       match prop params "x", prop params "y" with
       | JUndefined, _ | _, JUndefined =>
           any (ClickMouse (js_or (prop params "button") (JStr "left")))
       | x, y => any (ClickAt x y (js_or (prop params "button") (JStr "left")))
       end);
    ("double_click", fun params =>
       any (DoubleClick (js_or (prop params "button") (JStr "left"))));
    ("drag", fun params =>
       any (Drag (prop params "startX") (prop params "startY")
                 (prop params "endX") (prop params "endY")
                 (js_or (prop params "button") (JStr "left"))));
    ("scroll", fun params =>
       any (Scroll (prop params "direction") (js_or (prop params "clicks") (JNum 3))));
    ("type", fun params => any (TypeText (prop params "text") (prop params "delay")));
    ("press_key", fun params =>
       if truthy (prop params "modifiers")
       then any (PressKeyWithModifiers (prop params "key") (prop params "modifiers"))
       else any (PressKey (prop params "key")));
    ("key_combo", fun params => any (SendKeyCombo (prop params "combo")));
    ("toggle_console", fun _ => any ToggleConsole);
    ("focus_window", fun _ => any FocusWindow);
    ("screenshot", fun params => any (SaveScreenshot (prop params "path")));
    ("find_image", fun params =>
       any (FindImage (prop params "template") (prop params "region")
              (js_or (prop params "threshold") (JDec "0.9"))));
    ("wait_for_console", fun params =>
       any (WaitForConsolePattern (prop params "pattern")
              (js_or (prop params "timeout") (JNum 30000)))) ].

Definition collaborator_call (act : string) (params : Params) : option AnyCall :=
  option_map (fun entry => entry params) (lookup_label action_table act).

(** The call awaited, its value dropped. *)
Definition awaited {W} `{World W} (k : AnyCall) : M W unit :=
  match k with
  | any c => bind (await c) (fun _ => ret tt)
  end.

(** ** The script builders (automation.ts) *)

(** A step literal that gives its action and its params only. *)
Definition bare (act : string) (params : Params) : AutomationStep :=
  {| step_action := act; step_params := params; step_timeout := None;
     waitAfter := None; condition := None |}.

(** [createMapLoadTest(mapName, execPath)]. *)
Definition createMapLoadTest (mapName execPath : string) : AutomationScript :=
  {| script_name := "Load Map: " ++ mapName;
     description := Some ("Test loading map " ++ mapName);
     setup := Some
       [ {| step_action := "launch";
            step_params := [("executablePath", JStr execPath); ("windowed", JBool true);
                            ("width", JNum 1280); ("height", JNum 720)];
            step_timeout := Some 60000;
            waitAfter := None;
            condition := Some {| cond_type := "console_pattern";
                                 cond_params := [("pattern", JStr "Initializing")];
                                 cond_timeout := 30000 |} |} ];
     script_steps :=
       [ bare "wait" [("ms", JNum 5000)];
         bare "toggle_console" [];
         bare "wait" [("ms", JNum 500)];
         bare "type" [("text", JStr ("map " ++ mapName))];
         bare "press_key" [("key", JStr "enter")];
         bare "wait_for_console"
           [("pattern", JStr "Loading|loaded"); ("timeout", JNum 60000)];
         bare "screenshot" [("path", JStr ("/tmp/map_" ++ mapName ++ ".png"))] ];
     teardown := Some
       [ bare "command" [("command", JStr "quit")];
         bare "wait" [("ms", JNum 2000)] ] |}.

(** The three steps [createConsoleTest] pushes for one command. *)
Definition command_steps (cmd : string) : list AutomationStep :=
  [ bare "type" [("text", JStr cmd)];
    bare "press_key" [("key", JStr "enter")];
    bare "wait" [("ms", JNum 500)] ].

(** [createConsoleTest(commands, execPath)]; the [for] loop pushes onto
    [steps], command after command. *)
Definition createConsoleTest (commands : list string) (execPath : string)
    : AutomationScript :=
  let steps :=
    fold_left (fun steps cmd => (steps ++ command_steps cmd)%list) commands
      [ bare "wait" [("ms", JNum 5000)];
        bare "toggle_console" [];
        bare "wait" [("ms", JNum 500)] ] in
  {| script_name := "Console Commands Test";
     description := Some ("Test " ++ pretty (length commands) ++ " console commands");
     setup := Some
       [ {| step_action := "launch";
            step_params := [("executablePath", JStr execPath); ("windowed", JBool true)];
            step_timeout := Some 60000;
            waitAfter := None;
            condition := None |} ];
     script_steps := steps;
     teardown := Some [ bare "command" [("command", JStr "quit")] ] |}.

(** The texts of the type steps of a list, in order. *)
Definition typed_texts (l : list AutomationStep) : list JsVal :=
  map (fun step => prop (step_params step) "text")
      (List.filter (fun step => String.eqb (step_action step) "type") l).

(** Every entry of a script, in the order of the phases. *)
Definition all_entries (script : AutomationScript) : list AutomationStep :=
  (opt_steps (setup script) ++ script_steps script ++ opt_steps (teardown script))%list.

(** ** ScreenCapture.getPixels (screen-capture.ts) *)

Section Pixels.

Context {W : Type} `{World W}.

(** The key of a position: [`${pos.x},${pos.y}`]. *)
Definition position_key (pos : Z * Z) : string :=
  String_ (JNum (fst pos)) ++ "," ++ String_ (JNum (snd pos)).

(** The [for] loop of [getPixels]: one sample per position, stored under its
    key. *)
Fixpoint getPixels_loop (positions : list (Z * Z))
    (results : gmap string (option PixelColor))
    : M W (gmap string (option PixelColor)) :=
  match positions with
  | [] => ret results
  | pos :: rest =>
      bind (await (GetPixelColor (JNum (fst pos)) (JNum (snd pos))))
           (fun color => getPixels_loop rest (<[position_key pos := color]> results))
  end.

(** [getPixels(positions)]. *)
Definition getPixels (positions : list (Z * Z))
    : M W (gmap string (option PixelColor)) :=
  getPixels_loop positions ∅.

End Pixels.

(** ** ProcessLauncher: arguments and the console buffer (launcher.ts)

    The engine starts the game through [launch] and reads its console through
    [searchConsole]; here are [buildArguments], the buffer that [handleOutput]
    fills, and the two readers of the buffer.  The events [handleOutput]
    emits are collected in a list: their listeners do not touch the buffer.
    [searchConsole] is modelled for a pattern given as a string. *)

Module Launcher.

#[local] Open Scope list_scope.

Inductive Stream : Type := stdout | stderr | console.

Record ConsoleOutput := {
  timestamp : Z;
  text : string;
  type : Stream;
}.

(** [GameConfig], the fields [buildArguments] reads. *)
Record GameConfig := {
  executablePath : string;
  arguments : option (list string);
  gameDirectory : option string;
  enableConsole : option bool;
  enableCheats : option bool;
  windowedMode : option bool;
  resolution : option (Z * Z);
}.

Definition flag (v : option bool) : bool :=
  match v with
  | Some true => true
  | _ => false
  end.

(** [buildArguments(config)]; each [if] pushes onto [args]. *)
Definition buildArguments (config : GameConfig) : list string :=
  let args := match arguments config with Some l => l | None => [] end in
  let args :=
    match gameDirectory config with
    | Some dir => if String.eqb dir "" then args else args ++ ["+set"; "fs_game"; dir]
    | None => args
    end in
  let args :=
    match enableConsole config with
    | Some false => args
    | _ => args ++ ["+set"; "con_enable"; "1"]
    end in
  let args := if flag (enableCheats config) then args ++ ["+set"; "sv_cheats"; "1"] else args in
  let args := if flag (windowedMode config) then args ++ ["+set"; "r_fullscreen"; "0"] else args in
  match resolution config with
  | Some (width, height) =>
      args ++ ["+set"; "r_customwidth"; pretty width]
           ++ ["+set"; "r_customheight"; pretty height]
           ++ ["+set"; "r_mode"; "-1"]
  | None => args
  end.

(** [s.includes(sub)]. *)
Fixpoint includes (s sub : string) : bool :=
  String.prefix sub s
  || match s with
     | EmptyString => false
     | String _ s' => includes s' sub
     end.

(** [text.split('\n')]. *)
Fixpoint split_lines (s : string) : list string :=
  match s with
  | EmptyString => [EmptyString]
  | String ch s' =>
      if Ascii.eqb ch "010"%char then EmptyString :: split_lines s'
      else match split_lines s' with
           | line :: rest => String ch line :: rest
           | [] => [String ch EmptyString]
           end
  end.

(** [l.slice(start)]: a negative start counts from the end. *)
Definition slice_from {A} (start : Z) (l : list A) : list A :=
  if start <? 0
  then skipn (Z.to_nat (Z.max (Z.of_nat (length l) + start) 0)) l
  else skipn (Z.to_nat start) l.

Definition maxBufferLines : Z := 10000.

(** The events [handleOutput] emits. *)
Inductive Emitted : Type :=
| Output (output : ConsoleOutput)
| MapLoaded (line : string)
| GameError (line : string)
| GameWarning (line : string)
| Crash (line : string)
| Connected (line : string)
| Disconnected (line : string).

(** [detectEvents(line)]. *)
Definition detectEvents (line : string) : list Emitted :=
  (if includes line "Map loaded:" || includes line "Loading map" then [MapLoaded line] else [])
  ++ (if includes line "ERROR" || includes line "Error" then [GameError line] else [])
  ++ (if includes line "WARNING" || includes line "Warning" then [GameWarning line] else [])
  ++ (if includes line "CRASH" || includes line "Segmentation fault" then [Crash line] else [])
  ++ (if includes line "Connected to" then [Connected line] else [])
  ++ (if includes line "Disconnected" then [Disconnected line] else []).

(** The lines among the events, as the listeners of [output] receive them. *)
Definition outputs (events : list Emitted) : list ConsoleOutput :=
  flat_map (fun event => match event with Output output => [output] | _ => [] end) events.

(** The push of one line: [this.consoleBuffer.push(output)], then the trim. *)
Definition push_output (output : ConsoleOutput) (buffer : list ConsoleOutput)
    : list ConsoleOutput :=
  let buffer := buffer ++ [output] in
  if maxBufferLines <? Z.of_nat (length buffer)
  then slice_from (- maxBufferLines / 2) buffer
  else buffer.

Section Runtime.

(** What the runtime decides: whether a line trims to nothing, the clock
    read for the k-th line of a chunk, and the regular expressions. *)
Variable blank : string -> bool.
Variable clock : nat -> Z.
Variable compiles : string -> bool.
Variable test : string -> string -> bool.
Variable syntax_error : string -> string.

(** The [for] loop of [handleOutput]. *)
Fixpoint handleLines (kind : Stream) (k : nat) (lines : list string)
    (buffer : list ConsoleOutput) : list ConsoleOutput * list Emitted :=
  match lines with
  | [] => (buffer, [])
  | line :: rest =>
      let output := {| timestamp := clock k; text := line; type := kind |} in
      let '(buffer', events) := handleLines kind (S k) rest (push_output output buffer) in
      (buffer', Output output :: detectEvents line ++ events)
  end.

(** [handleOutput(text, type)]. *)
Definition handleOutput (chunk : string) (kind : Stream)
    (buffer : list ConsoleOutput) : list ConsoleOutput * list Emitted :=
  handleLines kind 0 (List.filter (fun line => negb (blank line)) (split_lines chunk)) buffer.

(** [getConsoleBuffer(lines?)]. *)
Definition getConsoleBuffer (lines : option Z) (buffer : list ConsoleOutput)
    : list ConsoleOutput :=
  match lines with
  | Some n => if n =? 0 then buffer else slice_from (- n) buffer
  | None => buffer
  end.

(** [searchConsole(pattern, limit?)], for a pattern given as a string. *)
Definition searchConsole (pattern : string) (limit : option Z)
    (buffer : list ConsoleOutput) : string + list ConsoleOutput :=
  if compiles pattern then
    let window :=
      match limit with
      | Some n => if n =? 0 then buffer else slice_from (- n) buffer
      | None => buffer
      end in
    inr (List.filter (fun line => test pattern (text line)) window)
  else inl (syntax_error pattern).

(** [clearConsoleBuffer()]. *)
Definition clearConsoleBuffer (buffer : list ConsoleOutput) : list ConsoleOutput := [].

End Runtime.

End Launcher.

(** ** ConsoleManager: the console toggle and the recent output (console.ts) *)

Module Console.

(** [consoleOpen], and the keys of the [needKeySimulation] events emitted
    so far. *)
Record T := {
  consoleOpen : bool;
  keys : list string;
}.

Definition consoleKey : string := "`".

(** [toggleConsole()]. *)
Definition toggleConsole (c : T) : T :=
  {| consoleOpen := negb (consoleOpen c);
     keys := (keys c ++ [consoleKey])%list |}.

(** [openConsole()]. *)
Definition openConsole (c : T) : T :=
  if negb (consoleOpen c) then toggleConsole c else c.

(** [closeConsole()]. *)
Definition closeConsole (c : T) : T :=
  if consoleOpen c then toggleConsole c else c.

(** [getRecentOutput(lines = 100)]. *)
Definition getRecentOutput (lines : option Z) (buffer : list Launcher.ConsoleOutput)
    : list Launcher.ConsoleOutput :=
  Launcher.getConsoleBuffer (Some (match lines with Some n => n | None => 100 end)) buffer.

End Console.

(** ** ScriptValidator (script-validator.ts)

    The validator runs [mfuse_exec] on a script and reads diagnostics off
    its output.  The process is a function from its arguments to how it
    ends; the regular expressions and [trim] are the runtime's. *)

Module Validator.

#[local] Open Scope list_scope.

Inductive Severity : Type := error | warning.

Record ScriptDiagnostic := {
  severity : Severity;
  line : Z;
  column : Z;
  message : string;
  file : string;
}.

Record ValidationResult := {
  success : bool;
  diagnostics : list ScriptDiagnostic;
  rawOutput : string;
  duration : Z;
}.

Definition is_error (d : ScriptDiagnostic) : bool :=
  match severity d with
  | error => true
  | warning => false
  end.

(** [s.endsWith(suffix)]. *)
Fixpoint endsWith (s suffix : string) : bool :=
  String.eqb s suffix
  || match s with
     | EmptyString => false
     | String _ s' => endsWith s' suffix
     end.

(** [s.replace] of a leading [.tmp_] by nothing. *)
Definition strip_tmp (s : string) : string :=
  match s with
  | String "."%char (String "t"%char (String "m"%char (String "p"%char
      (String "_"%char rest)))) => rest
  | _ => s
  end.

Definition marker : string := "^~^~^".

(** The text after the first [sep] of [s], if there is one. *)
Fixpoint after_first (sep s : string) : option string :=
  if String.prefix sep s
  then Some (String.substring (String.length sep)
               (String.length s - String.length sep) s)
  else match s with
       | EmptyString => None
       | String _ s' => after_first sep s'
       end.

(** The text before the first [sep] of [s], or all of [s]. *)
Fixpoint before_first (sep s : string) : string :=
  if String.prefix sep s then EmptyString
  else match s with
       | EmptyString => EmptyString
       | String ch s' => String ch (before_first sep s')
       end.

(** [line.split('^~^~^')[1]]. *)
Definition second_part (line : string) : option string :=
  option_map (before_first marker) (after_first marker line).

(** The test that keeps a diagnostic: the three alternatives of the source. *)
Definition file_matches (currentFile originalFileName : string) : bool :=
  String.eqb (strip_tmp currentFile) originalFileName
  || String.eqb currentFile originalFileName
  || endsWith currentFile originalFileName.

(** [currentFile], [currentLine] and [currentSeverity] of the parse loop. *)
Record Cursor := {
  currentFile : string;
  currentLine : Z;
  currentSeverity : option Severity;
}.

Definition start_cursor : Cursor :=
  {| currentFile := ""; currentLine := 0; currentSeverity := None |}.

(** How the process ends, by the event that comes first and settles the
    promise: ['close'] with what it printed, or ['error'] with a message. *)
Inductive Exit : Type :=
| Closed (output : string)
| Errored (message : string).

Section Runtime.

(** [s.trim()]. *)
Variable trim : string -> string.
(** The three groups of the location pattern: the letter E or W, the
    file name and the digits of the line number. *)
Variable loc_match : string -> option (string * string * string).
Variable parseInt : string -> Z.
(** The first [replace]: a leading Script Warning, Script file compile
    error or Script execution failed, with its colon, is dropped. *)
Variable strip_script_prefix : string -> string.
(** The second [replace]: a leading note that a file could not be
    parsed, with its colon, is dropped. *)
Variable strip_parse_prefix : string -> string.
(** The group of the simple error pattern: the text after
    [E: Script execution failed: ]. *)
Variable simple_match : string -> option string.
Variable existsSync : string -> bool.
Variable dirname : string -> string.
Variable basename : string -> string.
Variable spawn : string -> list string -> Exit.

(** Whether a location line still waits for its message line. *)
Definition pending (cursor : Cursor) : nat :=
  match currentSeverity cursor with
  | Some _ => 1
  | None => 0
  end.

(** The lines the location pattern matches, and those the simple error
    pattern matches. *)
Definition is_location (raw : string) : bool :=
  match loc_match (trim raw) with
  | Some _ => true
  | None => false
  end.

Definition is_simple_error (raw : string) : bool :=
  match simple_match (trim raw) with
  | Some _ => true
  | None => false
  end.

(** The message-line branch of the loop body. *)
Definition message_line (originalFileName line : string)
    (st : Cursor * list ScriptDiagnostic) : Cursor * list ScriptDiagnostic :=
  let '(cursor, diagnostics) := st in
  if Launcher.includes line marker then
    match second_part line with
    | Some part =>
        let message := trim (strip_parse_prefix (trim (strip_script_prefix (trim part)))) in
        match currentSeverity cursor with
        | Some sev =>
            ({| currentFile := currentFile cursor;
                currentLine := currentLine cursor;
                currentSeverity := None |},
             if file_matches (currentFile cursor) originalFileName
             then diagnostics ++ [{| severity := sev; line := currentLine cursor;
                                     column := 0; message := message;
                                     file := originalFileName |}]
             else diagnostics)
        | None => st
        end
    | None => st
    end
  else st.

(** The simple-error branch of the loop body. *)
Definition simple_error_line (originalFileName line : string)
    (st : Cursor * list ScriptDiagnostic) : Cursor * list ScriptDiagnostic :=
  match simple_match line with
  | Some text =>
      (fst st, snd st ++ [{| severity := error; line := 0; column := 0;
                             message := text; file := originalFileName |}])
  | None => st
  end.

(** One turn of the [for] loop over the lines of the output. *)
Definition parse_line (originalFileName : string)
    (st : Cursor * list ScriptDiagnostic) (raw : string)
    : Cursor * list ScriptDiagnostic :=
  let line := trim raw in
  match loc_match line with
  | Some (type, name, number) =>
      ({| currentFile := name;
          currentLine := parseInt number;
          currentSeverity := Some (if String.eqb type "E" then error else warning) |},
       snd st)
  | None =>
      simple_error_line originalFileName line (message_line originalFileName line st)
  end.

Definition parse_output (originalFileName output : string) : list ScriptDiagnostic :=
  snd (fold_left (parse_line originalFileName) (Launcher.split_lines output)
         (start_cursor, [])).

Definition failed (text originalFileName : string) (startTime endTime : Z)
    : ValidationResult :=
  {| success := false;
     diagnostics := [{| severity := error; line := 0; column := 0;
                        message := text; file := originalFileName |}];
     rawOutput := "";
     duration := endTime - startTime |}.

(** [runValidation(args, originalFileName, startTime)]; [endTime] is the
    clock read when the process ends. *)
Definition runValidation (mfuseExecPath : string) (args : list string)
    (originalFileName : string) (startTime endTime : Z) : ValidationResult :=
  match spawn mfuseExecPath args with
  | Closed output =>
      let diagnostics := parse_output originalFileName output in
      {| success := (length (List.filter is_error diagnostics) =? 0)%nat;
         diagnostics := diagnostics;
         rawOutput := output;
         duration := endTime - startTime |}
  | Errored text =>
      failed ("Failed to run mfuse_exec: " ++ text)%string originalFileName startTime endTime
  end.

Record Paths := {
  mfuseExecPath : string;
  commandsListPath : string;
}.

(** [isAvailable()]. *)
Definition isAvailable (paths : Paths) : bool :=
  negb (String.eqb (mfuseExecPath paths) "") && existsSync (mfuseExecPath paths).

Definition extra_args (paths : Paths) : list string :=
  if negb (String.eqb (commandsListPath paths) "") && existsSync (commandsListPath paths)
  then ["-e"; commandsListPath paths]
  else [].

Definition not_found (paths : Paths) : string :=
  ("mfuse_exec not found at: "
   ++ (if String.eqb (mfuseExecPath paths) "" then "(not configured)"
       else mfuseExecPath paths))%string.

(** [validateFile(scriptPath)]; [startTime] and [endTime] are its two
    reads of the clock. *)
Definition validateFile (paths : Paths) (scriptPath : string)
    (startTime endTime : Z) : ValidationResult :=
  if negb (isAvailable paths) then
    failed (not_found paths) scriptPath startTime endTime
  else if negb (existsSync scriptPath) then
    failed ("Script file not found: " ++ scriptPath)%string scriptPath startTime endTime
  else
    runValidation (mfuseExecPath paths)
      (["-d"; dirname scriptPath; "-s"; basename scriptPath] ++ extra_args paths)
      (basename scriptPath) startTime endTime.

End Runtime.

End Validator.

(** ** A sample runtime for the launcher and the validator *)

Module Sample.

Definition newline : string := String "010"%char EmptyString.

Definition blank (line : string) : bool := String.eqb line "".

Definition clock (k : nat) : Z := Z.of_nat k.

Definition compiles (pattern : string) : bool := negb (String.eqb pattern "(").

Definition test (pattern text : string) : bool := Launcher.includes text pattern.

Definition syntax_error (pattern : string) : string :=
  "SyntaxError: Invalid regular expression".

Definition chunk : string := "Loading map dm1" ++ newline ++ newline ++ "Map loaded: dm1".

Definition entry (text : string) : Launcher.ConsoleOutput :=
  {| Launcher.timestamp := 0; Launcher.text := text; Launcher.type := Launcher.stdout |}.

Definition buffer : list Launcher.ConsoleOutput :=
  [entry "Loading map dm1"; entry "Map loaded: dm1"; entry "Connected to server"].

Definition config : Launcher.GameConfig :=
  {| Launcher.executablePath := "/opt/openmohaa";
     Launcher.arguments := Some ["+map"; "dm1"];
     Launcher.gameDirectory := Some "main";
     Launcher.enableConsole := None;
     Launcher.enableCheats := Some true;
     Launcher.windowedMode := Some false;
     Launcher.resolution := Some (800, 600) |}.

Definition trim (s : string) : string := s.

(** The location pattern, on the one warning line of [output]. *)
Definition loc_match (line : string) : option (string * string * string) :=
  if String.eqb line "W: (a.scr, 3):" then Some ("W", "a.scr", "3") else None.

Definition parseInt (digits : string) : Z :=
  if String.eqb digits "3" then 3 else 0.

Definition keep (s : string) : string := s.

Definition simple_match (line : string) : option string := None.

Definition existsSync (path : string) : bool := true.

Definition dirname (path : string) : string := ".".

Definition basename (path : string) : string := path.

Definition output : string :=
  "W: (a.scr, 3):" ++ newline ++ "^~^~^ unused variable".

Definition spawn (exe : string) (args : list string) : Validator.Exit :=
  Validator.Closed output.

Definition paths : Validator.Paths :=
  {| Validator.mfuseExecPath := "/opt/mfuse_exec"; Validator.commandsListPath := "" |}.

End Sample.

(** A computation keeps [R] when the state it ends in, returning or
    throwing, is related by [R] to the state it started from. *)
Definition keeps {W A} (R : State W -> State W -> Prop) (m : M W A) : Prop :=
  forall s,
    match m s with
    | Returned _ s' | Thrown _ s' => R s s'
    | OutOfFuel => True
    end.

(** A computation whose loops have the fuel they need. *)
Definition total {W A} (m : M W A) : Prop := forall s, m s <> OutOfFuel.

(** The recorded results are the same; the variable [k] is the same. *)
Definition same_results {W} (s s' : State W) : Prop := stepResults s' = stepResults s.

Definition var_kept {W} (k : string) (s s' : State W) : Prop :=
  variables s' !! k = variables s !! k.

(** Once set, the abort flag stays set. *)
Definition flag_stays {W} (s s' : State W) : Prop :=
  aborted s = true -> aborted s' = true.

Section Properties.

Context {W : Type} `{World W}.

Implicit Types (s : State W) (step : AutomationStep) (c : WaitCondition).

(** ** The dispatch tables *)

Lemma lookup_label_None {A} (table : list (string * A)) (tag : string) :
  ~ In tag (map fst table) -> lookup_label table tag = None.
Proof.
  induction table as [|[label a] rest IH]; simpl; intros Hn; [reflexivity|].
  destruct (String.eqb_spec tag label) as [->|_].
  - exfalso. apply Hn. now left.
  - apply IH. intros Hin. apply Hn. now right.
Qed.

Lemma lookup_label_Some {A} (table : list (string * A)) (tag : string) (a : A) :
  lookup_label table tag = Some a -> In tag (map fst table).
Proof.
  induction table as [|[label a'] rest IH]; simpl; [discriminate|].
  destruct (String.eqb_spec tag label) as [->|_]; [now left|].
  intros Hl. right. now apply IH.
Qed.

Lemma executeAction_unknown fuel act params s :
  ~ In act (map fst vocabulary) ->
  executeAction fuel act params s = Thrown ("Error: Unknown action: " ++ act) s.
Proof.
  intros Hn. unfold executeAction. now rewrite (lookup_label_None _ _ Hn).
Qed.

(** ** Conditions *)

Lemma checkCondition_timeout params timeout s :
  checkCondition {| cond_type := "timeout"; cond_params := params;
                    cond_timeout := timeout |} s = Returned true s.
Proof. reflexivity. Qed.

Lemma checkCondition_unknown c s :
  ~ In (cond_type c) the_condition_kinds ->
  checkCondition c s = Returned false s.
Proof.
  intros Hn. unfold checkCondition.
  now rewrite (lookup_label_None condition_kinds (cond_type c) Hn).
Qed.

Lemma as_PixelColor_inv v e :
  as_PixelColor v = Some e ->
  exists fields, v = JObj fields
    /\ prop fields "r" = JNum (r e) /\ prop fields "g" = JNum (g e)
    /\ prop fields "b" = JNum (b e).
Proof.
  destruct v as [| | | | | |fields]; simpl; try discriminate.
  destruct (prop fields "r") eqn:Er; try discriminate.
  destruct (prop fields "g") eqn:Eg; try discriminate.
  destruct (prop fields "b") eqn:Eb; try discriminate.
  intros [= <-]. exists fields. simpl. auto.
Qed.

Lemma to_number_tolerance v :
  v = JUndefined \/ (exists t, v = JNum t) ->
  to_number (default_arg (js_or v (JNum 10)) (JNum 10)) = Some (effective_tolerance v).
Proof.
  intros [->|[t ->]]; [reflexivity|].
  unfold js_or, effective_tolerance. simpl.
  destruct (t =? 0); reflexivity.
Qed.

(** What [checkPixelColor] answers once the pixel is sampled. *)
Lemma checkPixelColor_sampled x y expected tolerance s actual e :
  outcome (perform (GetPixelColor x y) (world s)) = inr (Some actual) ->
  as_PixelColor expected = Some e ->
  tolerance = JUndefined \/ (exists t, tolerance = JNum t) ->
  exists s' met,
    checkPixelColor x y expected (js_or tolerance (JNum 10)) s = Returned met s'
    /\ (met = true <-> within (effective_tolerance tolerance) actual e).
Proof.
  intros Hpix Hexp Htol.
  destruct (as_PixelColor_inv _ _ Hexp) as (fields & -> & Hr & Hg & Hb).
  unfold checkPixelColor, bind, await. rewrite Hpix.
  rewrite (to_number_tolerance _ Htol).
  unfold member, channel_diff. rewrite Hr, Hg, Hb. simpl.
  eexists _, _. split; [reflexivity|].
  unfold within. rewrite !andb_true_iff, !Z.leb_le. tauto.
Qed.

Lemma checkPixelColor_unsampled x y expected tolerance s :
  outcome (perform (GetPixelColor x y) (world s)) = inr None ->
  exists s', checkPixelColor x y expected tolerance s = Returned false s'.
Proof.
  intros Hpix. unfold checkPixelColor, bind, await. rewrite Hpix.
  eexists. reflexivity.
Qed.

Ltac split_if :=
  match goal with
  | |- context [if ?g then _ else _] => destruct g eqn:?
  end.

(** ** State bookkeeping *)

Lemma note_abort_fields called s :
  stepResults (note_abort called s) = stepResults s
  /\ variables (note_abort called s) = variables s
  /\ world (note_abort called s) = world s
  /\ running (note_abort called s) = running s
  /\ currentScript (note_abort called s) = currentScript s.
Proof. destruct called; simpl; auto. Qed.

Lemma note_abort_flag called s :
  aborted (note_abort called s) = aborted s || called.
Proof. destruct called; simpl; [now rewrite orb_true_r | now rewrite orb_false_r]. Qed.

Lemma emit_stepResults ev s : stepResults (emit ev s) = stepResults s.
Proof.
  unfold emit. destruct (listeners ev (world s)) as [w called].
  destruct called; reflexivity.
Qed.

Lemma emit_variables ev s : variables (emit ev s) = variables s.
Proof.
  unfold emit. destruct (listeners ev (world s)) as [w called].
  destruct called; reflexivity.
Qed.

Lemma emit_keeps_abort ev s : aborted s = true -> aborted (emit ev s) = true.
Proof.
  unfold emit. destruct (listeners ev (world s)) as [w called].
  destruct called; simpl; auto.
Qed.

(** ** Frames: what a computation leaves as it was

    [R] relates a state to a later one; it is kept by every change of the
    world, by the setting of the abort flag, and by writes to the [writable]
    keys of the variables map.  Every piece of a step's body up to the push of its
    StepResult then keeps [R]. *)

Section Frame.

Variable R : State W -> State W -> Prop.
Variable writable : string -> Prop.
Hypothesis R_refl : forall s, R s s.
Hypothesis R_trans : forall s1 s2 s3, R s1 s2 -> R s2 s3 -> R s1 s3.
Hypothesis R_world : forall s w, R s (set_world w s).
Hypothesis R_aborted : forall s, R s (set_aborted true s).
Hypothesis R_variables : forall s key v,
  writable key -> R s (set_variables (<[key := v]> (variables s)) s).

Lemma R_note_abort called s : R s (note_abort called s).
Proof. destruct called; simpl; [apply (R_aborted s) | apply R_refl]. Qed.

Lemma R_arrival w called s : R s (note_abort called (set_world w s)).
Proof. eapply R_trans; [apply (R_world s w) | apply R_note_abort]. Qed.

Lemma R_emit ev s : R s (emit ev s).
Proof.
  unfold emit. destruct (listeners ev (world s)) as [w called]. apply R_arrival.
Qed.

Lemma keeps_ret {A} (a : A) : keeps R (ret a).
Proof. intros s. apply R_refl. Qed.

Lemma keeps_throw {A} e : keeps R (@throw W A e).
Proof. intros s. apply R_refl. Qed.

Lemma keeps_throw_Error {A} msg : keeps R (@throw_Error W A msg).
Proof. apply keeps_throw. Qed.

Lemma keeps_bind {A B} (m : M W A) (k : A -> M W B) :
  keeps R m -> (forall a, keeps R (k a)) -> keeps R (bind m k).
Proof.
  intros Hm Hk s. unfold bind. specialize (Hm s).
  destruct (m s) as [a s1|e s1|]; auto.
  specialize (Hk a s1). destruct (k a s1); eauto.
Qed.

Lemma keeps_await {A} (c : Call A) : keeps R (await c).
Proof.
  intros s. unfold await. destruct (outcome (perform c (world s))); apply R_arrival.
Qed.

Lemma keeps_delay ms : keeps R (delay ms).
Proof.
  intros s. unfold delay. destruct (setTimeout ms (world s)) as [w called].
  apply R_arrival.
Qed.

Lemma keeps_variables_set key v : writable key -> keeps R (variables_set key v).
Proof. intros Hk s. simpl. now apply R_variables. Qed.

Lemma keeps_checkPixelColor x y expected tolerance :
  keeps R (checkPixelColor x y expected tolerance).
Proof.
  unfold checkPixelColor. apply keeps_bind; [apply keeps_await|].
  intros [actual|]; [|apply keeps_ret].
  destruct expected; first [apply keeps_throw | apply keeps_ret].
Qed.

Lemma keeps_waitForPixelColor_loop fuel startTime x y expected timeout tolerance :
  keeps R (waitForPixelColor_loop fuel startTime x y expected timeout tolerance).
Proof.
  induction fuel as [|fuel IH]; intros s; cbn [waitForPixelColor_loop].
  - split_if; [exact I | apply R_refl].
  - split_if; [|apply R_refl].
    apply (keeps_bind (checkPixelColor x y expected tolerance)).
    + apply keeps_checkPixelColor.
    + intros [|]; [apply keeps_ret|].
      apply keeps_bind; [apply keeps_delay | intros _; exact IH].
Qed.

Lemma keeps_waitForPixelColor fuel x y expected timeout tolerance :
  keeps R (waitForPixelColor fuel x y expected timeout tolerance).
Proof. intros s. apply keeps_waitForPixelColor_loop. Qed.

Lemma keeps_waitForImage_loop fuel startTime templatePath timeout threshold :
  keeps R (waitForImage_loop fuel startTime templatePath timeout threshold).
Proof.
  induction fuel as [|fuel IH]; intros s; cbn [waitForImage_loop].
  - split_if; [exact I | apply R_refl].
  - split_if; [|apply R_refl].
    apply (keeps_bind (await (FindImage templatePath JUndefined threshold))).
    + apply keeps_await.
    + intros res. destruct (found res); [apply keeps_ret|].
      apply keeps_bind; [apply keeps_delay | intros _; exact IH].
Qed.

Lemma keeps_waitForImage fuel templatePath timeout threshold :
  keeps R (waitForImage fuel templatePath timeout threshold).
Proof. intros s. apply keeps_waitForImage_loop. Qed.

Lemma keeps_checkCondition c : keeps R (checkCondition c).
Proof.
  unfold checkCondition.
  destruct (lookup_label condition_kinds (cond_type c)) as [[| | | |]|].
  - intros s. destruct (launcher_searchConsole _ _ _); apply R_refl.
  - apply keeps_checkPixelColor.
  - apply keeps_bind; [apply keeps_await | intros a; apply keeps_ret].
  - apply keeps_bind; [apply keeps_await | intros a; apply keeps_ret].
  - apply keeps_ret.
  - apply keeps_ret.
Qed.

Lemma keeps_waitForCondition_loop fuel startTime timeout c :
  keeps R (waitForCondition_loop fuel startTime timeout c).
Proof.
  induction fuel as [|fuel IH]; intros s; cbn [waitForCondition_loop].
  - split_if; [exact I | apply R_refl].
  - split_if; [|apply R_refl].
    apply (keeps_bind (checkCondition c)).
    + apply keeps_checkCondition.
    + intros [|]; [apply keeps_ret|].
      apply keeps_bind; [apply keeps_delay | intros _; exact IH].
Qed.

Lemma keeps_waitForCondition fuel c : keeps R (waitForCondition fuel c).
Proof. intros s. apply keeps_waitForCondition_loop. Qed.

Lemma keeps_wait_after step : keeps R (wait_after step).
Proof.
  unfold wait_after. destruct (waitAfter step) as [ms|]; [|apply keeps_ret].
  destruct (ms =? 0); [apply keeps_ret | apply keeps_delay].
Qed.

Lemma keeps_wait_condition fuel step : keeps R (wait_condition fuel step).
Proof.
  unfold wait_condition. destruct (condition step) as [c|]; [|apply keeps_ret].
  apply keeps_bind; [apply keeps_waitForCondition|].
  intros [|]; simpl; [apply keeps_ret | apply keeps_throw].
Qed.

Lemma keeps_executeAction fuel step :
  Forall writable (written_keys step) ->
  keeps R (executeAction fuel (step_action step) (step_params step)).
Proof.
  unfold written_keys, executeAction.
  destruct (lookup_label vocabulary (step_action step)) as [a|];
    [|intros _; apply keeps_throw].
  destruct a; simpl; intros Hw;
    try (apply keeps_await); try (apply keeps_delay).
  - (* get_cvar *)
    apply keeps_bind; [apply keeps_await|]. intros cvar.
    destruct (truthy (prop (step_params step) "storeAs")); [|apply keeps_ret].
    apply keeps_variables_set. now inversion Hw.
  - (* mouse_move *)
    destruct (truthy _); [apply keeps_await|].
    destruct (truthy _); apply keeps_await.
  - (* mouse_click *)
    destruct (_ && _); apply keeps_await.
  - (* press_key *)
    destruct (truthy _); apply keeps_await.
  - (* screenshot *)
    apply keeps_bind; [apply keeps_await|].
    intros [|]; simpl; [apply keeps_ret | apply keeps_throw].
  - (* check_pixel *)
    apply keeps_bind; [apply keeps_checkPixelColor|].
    intros [|]; simpl; [apply keeps_ret | apply keeps_throw].
  - (* find_image *)
    apply keeps_bind; [apply keeps_await|]. intros res.
    destruct (found res); simpl; [|apply keeps_throw].
    apply Forall_app in Hw. destruct Hw as [Hx Hy].
    apply keeps_bind.
    + destruct (truthy (prop (step_params step) "storeX")); [|apply keeps_ret].
      apply keeps_variables_set. now inversion Hx.
    + intros _.
      destruct (truthy (prop (step_params step) "storeY")); [|apply keeps_ret].
      apply keeps_variables_set. now inversion Hy.
  - (* wait_for_console *)
    apply keeps_bind; [apply keeps_await | intros a; apply keeps_ret].
  - (* wait_for_pixel *)
    apply keeps_bind; [apply keeps_waitForPixelColor | intros a; apply keeps_ret].
  - (* wait_for_image *)
    apply keeps_bind; [apply keeps_waitForImage|]. intros res.
    destruct (found res); simpl; [apply keeps_ret | apply keeps_throw].
  - (* assert *)
    intros s. destruct (negb _); apply R_refl.
  - (* assert_running *)
    intros s. destruct (negb _); apply R_refl.
  - (* assert_not_running *)
    intros s. destruct (launcher_isRunning _); apply R_refl.
  - (* set_variable *)
    apply keeps_variables_set. now inversion Hw.
  - (* log *)
    intros s. apply R_emit.
Qed.

Lemma keeps_step_body fuel step :
  Forall writable (written_keys step) -> keeps R (step_body fuel step).
Proof.
  intros Hw. unfold step_body.
  apply keeps_bind; [now apply keeps_executeAction|]. intros _.
  apply keeps_bind; [apply keeps_wait_after|]. intros _.
  apply keeps_wait_condition.
Qed.

End Frame.

(** ** One StepResult per executed step *)

Lemma step_body_results fuel step : keeps same_results (step_body fuel step).
Proof.
  apply keeps_step_body with (writable := fun _ => True);
    unfold same_results; simpl; try congruence; auto.
  apply Forall_forall. auto.
Qed.

Lemma executeStep_pushes fuel step s :
  match executeStep fuel step s with
  | Returned res s' =>
      res = success_record step (duration res)
      /\ stepResults s' = (stepResults s ++ [res])%list
  | Thrown e s' =>
      exists d, stepResults s' = (stepResults s ++ [failure_record step d e])%list
  | OutOfFuel => True
  end.
Proof.
  unfold executeStep.
  pose proof (step_body_results fuel step
                (emit (EvStepStart (step_action step) (step_params step)) s)) as Hb.
  destruct (step_body fuel step _) as [[] s1|e s1|]; [| |exact I];
    unfold same_results in Hb; rewrite emit_stepResults in Hb.
  - split; [reflexivity|].
    rewrite emit_stepResults. simpl. now rewrite Hb.
  - eexists. rewrite emit_stepResults. simpl. now rewrite Hb.
Qed.

(** The teardown loop never throws, and leaves one StepResult per entry. *)
Lemma run_teardown_results fuel l : forall s,
  match run_teardown fuel l s with
  | Returned _ s' =>
      exists td, stepResults s' = (stepResults s ++ td)%list
        /\ Forall2 (fun step res => action res = step_action step) l td
  | Thrown _ _ => False
  | OutOfFuel => True
  end.
Proof.
  induction l as [|step rest IH]; intros s; simpl.
  - exists []. split; [now rewrite app_nil_r | constructor].
  - pose proof (executeStep_pushes fuel step s) as Hs.
    destruct (executeStep fuel step s) as [res s1|e s1|]; [| |exact I].
    + destruct Hs as [Hres Hpush]. specialize (IH s1).
      destruct (run_teardown fuel rest s1) as [[] s2|e s2|]; auto.
      destruct IH as (td & Htd & Hall). exists (res :: td). split.
      * rewrite Htd, Hpush, <- app_assoc. reflexivity.
      * constructor; [now rewrite Hres | exact Hall].
    + destruct Hs as (d & Hpush). specialize (IH s1).
      destruct (run_teardown fuel rest s1) as [[] s2|e' s2|]; auto.
      destruct IH as (td & Htd & Hall). exists (failure_record step d e :: td). split.
      * rewrite Htd, Hpush, <- app_assoc. reflexivity.
      * constructor; [reflexivity | exact Hall].
Qed.

Lemma finally_teardown_results fuel script s :
  match finally_teardown fuel script s with
  | Returned _ s' =>
      exists td, stepResults s' = (stepResults s ++ td)%list
        /\ Forall2 (fun step res => action res = step_action step)
                   (opt_steps (teardown script)) td
  | Thrown _ _ => False
  | OutOfFuel => True
  end.
Proof.
  unfold finally_teardown.
  destruct (teardown script) as [[|step rest]|]; simpl opt_steps.
  - exists []. split; [now rewrite app_nil_r | constructor].
  - pose proof (run_teardown_results fuel (step :: rest) (emit (EvPhase "teardown") s)) as Ht.
    destruct (run_teardown fuel (step :: rest) _); auto.
    now rewrite emit_stepResults in Ht.
  - exists []. split; [now rewrite app_nil_r | constructor].
Qed.

(** ** Termination of the polling loops *)

Lemma total_ret {A} (a : A) : total (@ret W A a).
Proof. intros s. discriminate. Qed.

Lemma total_throw {A} e : total (@throw W A e).
Proof. intros s. discriminate. Qed.

Lemma total_bind {A B} (m : M W A) (k : A -> M W B) :
  total m -> (forall a, total (k a)) -> total (bind m k).
Proof.
  intros Hm Hk s. unfold bind. specialize (Hm s).
  destruct (m s) as [a s1|e s1|]; [apply Hk | discriminate | congruence].
Qed.

Lemma total_await {A} (c : Call A) : total (await c).
Proof. intros s. unfold await. destruct (outcome _); discriminate. Qed.

Lemma total_delay ms : total (delay ms).
Proof. intros s. unfold delay. destruct (setTimeout _ _). discriminate. Qed.

Lemma total_variables_set key v : total (@variables_set W key v).
Proof. intros s. discriminate. Qed.

Lemma total_checkPixelColor x y expected tolerance :
  total (checkPixelColor x y expected tolerance).
Proof.
  unfold checkPixelColor. apply total_bind; [apply total_await|].
  intros [actual|]; [|apply total_ret].
  destruct expected; first [apply total_throw | apply total_ret].
Qed.

Lemma total_checkCondition c : total (checkCondition c).
Proof.
  unfold checkCondition.
  destruct (lookup_label condition_kinds (cond_type c)) as [[| | | |]|].
  - intros s. destruct (launcher_searchConsole _ _ _); discriminate.
  - apply total_checkPixelColor.
  - apply total_bind; [apply total_await | intros a; apply total_ret].
  - apply total_bind; [apply total_await | intros a; apply total_ret].
  - apply total_ret.
  - apply total_ret.
Qed.

Lemma polls_step (interval m m' : Z) :
  0 < interval -> 0 < m -> m' <= m - interval ->
  (Z.to_nat ((m' + interval - 1) / interval)
   < Z.to_nat ((m + interval - 1) / interval))%nat.
Proof.
  intros Hi Hm Hm'.
  assert (1 <= (m + interval - 1) / interval) as Hq.
  { apply Z.div_le_lower_bound; lia. }
  assert ((m' + interval - 1) / interval <= (m + interval - 1) / interval - 1) as Hq'.
  { replace ((m + interval - 1) / interval - 1)
      with ((m + interval - 1 + (-1) * interval) / interval)
      by (rewrite Z.div_add; lia).
    apply Z.div_le_mono; lia. }
  lia.
Qed.

(** ** The phase loop *)

Lemma run_steps_aborted fuel l s :
  aborted s = true -> run_steps fuel l s = Returned tt s.
Proof. intros Ha. destruct l as [|step rest]; simpl; [reflexivity | now rewrite Ha]. Qed.

Lemma run_steps_app fuel pre rest : forall s,
  run_steps fuel (pre ++ rest)%list s
  = bind (run_steps fuel pre) (fun _ => run_steps fuel rest) s.
Proof.
  induction pre as [|step pre IH]; intros s; [reflexivity|].
  unfold bind. cbn [app run_steps]. destruct (aborted s) eqn:Ha.
  - now rewrite run_steps_aborted.
  - unfold bind.
    destruct (executeStep fuel step s) as [res s1|e s1|]; auto.
Qed.

(** The first entry that throws ends the loop: what follows it plays no part. *)
Lemma run_steps_throw fuel pre step post s s1 e s2 :
  run_steps fuel pre s = Returned tt s1 ->
  aborted s1 = false ->
  executeStep fuel step s1 = Thrown e s2 ->
  run_steps fuel (pre ++ step :: post)%list s = Thrown e s2.
Proof.
  intros Hpre Ha Hstep. rewrite run_steps_app. unfold bind. rewrite Hpre.
  simpl. rewrite Ha. unfold bind. now rewrite Hstep.
Qed.

(** ** The order of a step *)

Lemma lookup_label_In {A} (table : list (string * A)) (tag : string) (a : A) :
  lookup_label table tag = Some a -> In (tag, a) table.
Proof.
  induction table as [|[label a'] rest IH]; simpl; [discriminate|].
  destruct (String.eqb_spec tag label) as [->|_].
  - intros [= ->]. now left.
  - intros Hl. right. now apply IH.
Qed.

Ltac known_action :=
  unfold executeAction, written_keys;
  cbn [step_action step_params];
  repeat match goal with
         | |- context [lookup_label vocabulary ?tag] =>
             let a := eval vm_compute in (lookup_label vocabulary tag) in
             change (lookup_label vocabulary tag) with a
         end;
  cbn [run_action button_or_left].

(** An action of the table is its call: when the call throws, so does the
    action, from the state the call left; when the call resolves, the action
    makes no other call, and leaves the state of the call unless it stores a
    variable. *)
Lemma executeAction_dispatch fuel step k s0 :
  collaborator_call (step_action step) (step_params step) = Some k ->
  (forall e s1,
      awaited k s0 = Thrown e s1 ->
      executeAction fuel (step_action step) (step_params step) s0 = Thrown e s1)
  /\ (forall s1,
        awaited k s0 = Returned tt s1 ->
        (exists s2,
            executeAction fuel (step_action step) (step_params step) s0 = Returned tt s2
            /\ world s2 = world s1
            /\ (written_keys step = [] -> s2 = s1))
        \/ (exists e,
              executeAction fuel (step_action step) (step_params step) s0
              = Thrown e s1)).
Proof.
  destruct step as [act params timeout after cond]. cbn [step_action step_params].
  unfold collaborator_call.
  destruct (lookup_label action_table act) as [entry|] eqn:Hentry; [|discriminate].
  apply lookup_label_In in Hentry. intros [= <-].
  assert (Hunit : forall (c : Call unit) (m : M W unit),
             (forall s, m s = await c s) ->
             (forall e s1, awaited (any c) s0 = Thrown e s1 -> m s0 = Thrown e s1)
             /\ (forall s1,
                   awaited (any c) s0 = Returned tt s1 ->
                   (exists s2, m s0 = Returned tt s2 /\ world s2 = world s1
                               /\ (written_keys
                                     {| step_action := act; step_params := params;
                                        step_timeout := timeout; waitAfter := after;
                                        condition := cond |} = [] -> s2 = s1))
                   \/ (exists e, m s0 = Thrown e s1))).
  { intros c m Hm. rewrite Hm. unfold awaited, bind, ret.
    destruct (await c s0) as [[] s'|e s'|]; split.
    - intros e s1 Hk. discriminate.
    - intros s1 Hk. left. exists s'.
      assert (s' = s1) by congruence. subst s'.
      split; [reflexivity|]. split; [reflexivity|]. reflexivity.
    - intros e' s1 Hk. exact Hk.
    - intros s1 Hk. discriminate.
    - intros e' s1 Hk. discriminate.
    - intros s1 Hk. discriminate. }
  simpl in Hentry.
  repeat (destruct Hentry as [Hentry|Hentry];
          [injection Hentry as <- <-|]); try contradiction.
  all: known_action.
  all: try (apply Hunit; intros ?; reflexivity).
  - (* get_cvar *)
    unfold awaited, bind.
    destruct (await (GetCvar (prop params "name")) s0) as [cvar s'|e s'|];
      split; intros; try discriminate; [|congruence].
    left. unfold ret in *.
    assert (s' = s1) by congruence. subst s'.
    destruct (truthy (prop params "storeAs")).
    + eexists. split; [reflexivity|]. split; [reflexivity|]. discriminate.
    + exists s1. split; [reflexivity|]. split; [reflexivity|]. reflexivity.
  - (* mouse_move *)
    destruct (truthy (prop params "relative"));
      [|destruct (truthy (prop params "window"))];
      apply Hunit; intros ?; reflexivity.
  - (* mouse_click *)
    destruct (prop params "x"), (prop params "y"); cbn [strict_eq negb andb];
      apply Hunit; intros ?; reflexivity.
  - (* press_key *)
    destruct (truthy (prop params "modifiers")); apply Hunit; intros ?; reflexivity.
  - (* screenshot *)
    unfold awaited, bind.
    destruct (await (SaveScreenshot (prop params "path")) s0) as [saved s'|e s'|];
      split; intros; try discriminate; [|congruence].
    unfold ret in *. assert (s' = s1) by congruence. subst s'.
    destruct saved; cbn [negb].
    + left. exists s1. split; [reflexivity|]. split; reflexivity.
    + right. eexists. reflexivity.
  - (* find_image *)
    unfold awaited, bind.
    destruct (await (FindImage (prop params "template") (prop params "region")
                       (js_or (prop params "threshold") (JDec "0.9"))) s0)
      as [image s'|e s'|]; split; intros; try discriminate; [|congruence].
    unfold ret in *. assert (s' = s1) by congruence. subst s'.
    destruct (found image); cbn [negb]; [|right; eexists; reflexivity].
    left. unfold variables_set.
    destruct (truthy (prop params "storeX")), (truthy (prop params "storeY"));
      eexists; (split; [reflexivity|]); (split; [reflexivity|]);
      cbn [app]; try discriminate; reflexivity.
  - (* wait_for_console *)
    unfold awaited, bind.
    destruct (await (WaitForConsolePattern (prop params "pattern")
                       (js_or (prop params "timeout") (JNum 30000))) s0)
      as [line s'|e s'|]; split; intros; try discriminate; [|congruence].
    left. exists s'. unfold ret in *. split; [reflexivity|].
    split; [congruence|intros _; congruence].
Qed.


(** ** The pixel condition *)

(** C7, as amended: for a pixel_color condition whose pixel is sampled,
    [checkCondition] returns true exactly when each of the three channel
    differences is at most the effective tolerance, a bound per channel; the
    effective tolerance is the given one when it is a number other than 0, and
    10 when it is absent or 0.  With an effective tolerance of 10, a
    difference of 11 or more on a channel gives false; so does a pixel that
    cannot be sampled. *)
Theorem checkCondition_pixel_color c s e :
  cond_type c = "pixel_color" ->
  as_PixelColor (prop (cond_params c) "expected") = Some e ->
  prop (cond_params c) "tolerance" = JUndefined
  \/ (exists t, prop (cond_params c) "tolerance" = JNum t) ->
  let sample :=
    outcome (perform (GetPixelColor (prop (cond_params c) "x") (prop (cond_params c) "y"))
                     (world s)) in
  let tolerance := effective_tolerance (prop (cond_params c) "tolerance") in
  (forall actual,
      sample = inr (Some actual) ->
      exists s' met,
        checkCondition c s = Returned met s'
        /\ (met = true <-> within tolerance actual e)
        /\ (tolerance = 10 ->
            11 <= Z.abs (r actual - r e) \/ 11 <= Z.abs (g actual - g e)
            \/ 11 <= Z.abs (b actual - b e) ->
            met = false))
  /\ (sample = inr None -> exists s', checkCondition c s = Returned false s')
  /\ effective_tolerance JUndefined = 10
  /\ effective_tolerance (JNum 0) = 10
  /\ (forall t, t <> 0 -> effective_tolerance (JNum t) = t).
Proof.
  intros Hkind Hexp Htol sample tolerance.
  assert (checkCondition c
          = checkPixelColor (prop (cond_params c) "x") (prop (cond_params c) "y")
              (prop (cond_params c) "expected")
              (js_or (prop (cond_params c) "tolerance") (JNum 10))) as Hcheck.
  { unfold checkCondition. now rewrite Hkind. }
  repeat split; try reflexivity.
  - intros actual Hsample. rewrite Hcheck.
    destruct (checkPixelColor_sampled _ _ _ _ s actual e Hsample Hexp Htol)
      as (s' & met & Hrun & Hiff).
    exists s', met. split; [exact Hrun|]. split; [exact Hiff|].
    intros Hten Hfar. fold tolerance in Hiff. rewrite Hten in Hiff.
    destruct met; [|reflexivity].
    unfold within in Hiff. destruct Hiff as [Hin _]. specialize (Hin eq_refl). lia.
  - intros Hsample. rewrite Hcheck. now apply checkPixelColor_unsampled.
  - intros t Ht. simpl. apply Z.eqb_neq in Ht. now rewrite Ht.
Qed.

(** ** The variables map *)

Lemma var_kept_step_body fuel step k :
  ~ In k (written_keys step) -> keeps (var_kept k) (step_body fuel step).
Proof.
  intros Hk. apply keeps_step_body with (writable := fun key => key <> k);
    unfold var_kept; simpl; try congruence.
  - intros s key v Hne. now rewrite lookup_insert_ne.
  - apply Forall_forall. intros key Hin ->. apply Hk. now apply list_elem_of_In.
Qed.

Lemma var_kept_executeStep fuel step k :
  ~ In k (written_keys step) -> keeps (var_kept k) (executeStep fuel step).
Proof.
  intros Hk s. unfold executeStep.
  pose proof (var_kept_step_body fuel step k Hk
                (emit (EvStepStart (step_action step) (step_params step)) s)) as Hb.
  destruct (step_body fuel step _) as [[] s1|e s1|]; [| |exact I];
    unfold var_kept in *; rewrite emit_variables in *; simpl; exact Hb.
Qed.

Lemma var_kept_run_steps fuel l k :
  ~ In k (flat_map written_keys l) -> keeps (var_kept k) (run_steps fuel l).
Proof.
  induction l as [|step rest IH]; simpl; intros Hk s; [reflexivity|].
  rewrite in_app_iff in Hk.
  destruct (aborted s); [reflexivity|].
  apply (keeps_bind (var_kept k)); unfold var_kept; try congruence.
  - apply var_kept_executeStep. tauto.
  - intros _. apply IH. tauto.
Qed.

Lemma var_kept_run_teardown fuel l k :
  ~ In k (flat_map written_keys l) -> keeps (var_kept k) (run_teardown fuel l).
Proof.
  induction l as [|step rest IH]; simpl; intros Hk s; [reflexivity|].
  rewrite in_app_iff in Hk.
  pose proof (var_kept_executeStep fuel step k ltac:(tauto) s) as Hs.
  destruct (executeStep fuel step s) as [res s1|e s1|]; [| |exact I];
    pose proof (IH ltac:(tauto) s1) as Hr;
    destruct (run_teardown fuel rest s1); unfold var_kept in *; congruence.
Qed.

Lemma var_kept_runScript fuel script k :
  ~ In k (script_written_keys script) ->
  keeps (var_kept k) (runScript fuel script).
Proof.
  unfold script_written_keys. rewrite !flat_map_app, !in_app_iff. intros Hk s0.
  assert (keeps (var_kept k) (run_phases fuel script)) as Hphases.
  { unfold run_phases. apply keeps_bind; unfold var_kept; try congruence.
    - unfold setup_phase.
      destruct (setup script) as [[|step rest]|]; try (intros s1; reflexivity).
      intros s1.
      pose proof (var_kept_run_steps fuel (step :: rest) k ltac:(simpl in *; tauto)
                    (emit (EvPhase "setup") s1)) as Hr.
      destruct (run_steps fuel (step :: rest) _); auto;
        unfold var_kept in Hr; now rewrite emit_variables in Hr.
    - intros _ s1. unfold main_phase. destruct (negb (aborted s1)); [|reflexivity].
      pose proof (var_kept_run_steps fuel (script_steps script) k ltac:(tauto)
                    (emit (EvPhase "main") s1)) as Hr.
      destruct (run_steps fuel (script_steps script) _); auto;
        unfold var_kept in Hr; now rewrite emit_variables in Hr. }
  assert (keeps (var_kept k) (finally_teardown fuel script)) as Hfinally.
  { unfold finally_teardown.
    destruct (teardown script) as [[|step rest]|]; try (intros s1; reflexivity).
    intros s1.
    pose proof (var_kept_run_teardown fuel (step :: rest) k ltac:(simpl in *; tauto)
                  (emit (EvPhase "teardown") s1)) as Hr.
    destruct (run_teardown fuel (step :: rest) _); auto;
      unfold var_kept in Hr; now rewrite emit_variables in Hr. }
  unfold runScript, try_phases.
  assert (variables (start_run script s0) = variables s0) as Hstart.
  { unfold start_run. now rewrite emit_variables. }
  specialize (Hphases (start_run script s0)).
  destruct (run_phases fuel script (start_run script s0)) as [[] s1|e s1|]; [| |exact I].
  - specialize (Hfinally s1).
    destruct (finally_teardown fuel script s1) as [[] s2|e s2|]; [| |exact I];
      unfold var_kept, finish_run in *; rewrite ?emit_variables; simpl; congruence.
  - specialize (Hfinally (push_result (error_record e) s1)).
    destruct (finally_teardown fuel script _) as [[] s2|e' s2|]; [| |exact I];
      unfold var_kept, finish_run in *; rewrite ?emit_variables;
      simpl in *; congruence.
Qed.


(** A condition that is never met and never throws makes the loop answer
    false, if it answers. *)
Lemma waitForCondition_loop_never c :
  (forall s, exists s', checkCondition c s = Returned false s') ->
  forall fuel startTime timeout s,
    waitForCondition_loop fuel startTime timeout c s = OutOfFuel
    \/ exists s', waitForCondition_loop fuel startTime timeout c s = Returned false s'.
Proof.
  intros Hnever fuel startTime timeout.
  induction fuel as [|fuel IH]; intros s; cbn [waitForCondition_loop];
    split_if; eauto.
  unfold bind. destruct (Hnever s) as [s1 ->].
  unfold delay. destruct (setTimeout (JNum 200) (world s1)) as [w called]. apply IH.
Qed.

(** ** The abort flag is read between entries only *)

Lemma unflag_fields s s' :
  unflag s = unflag s' ->
  running s = running s' /\ currentScript s = currentScript s'
  /\ stepResults s = stepResults s' /\ variables s = variables s'
  /\ world s = world s'.
Proof. unfold unflag. simpl. intros [= -> -> -> -> ->]. auto. Qed.

Lemma unflag_arrival w called s :
  unflag (note_abort called (set_world w s)) = set_world w (unflag s).
Proof. destruct called; reflexivity. Qed.

Lemma unflag_emit ev s s' :
  unflag s = unflag s' -> unflag (emit ev s) = unflag (emit ev s').
Proof.
  intros Heq. unfold emit.
  destruct (unflag_fields s s' Heq) as (_ & _ & _ & _ & <-).
  destruct (listeners ev (world s)) as [w called].
  now rewrite !unflag_arrival, Heq.
Qed.

Lemma unflag_push res s s' :
  unflag s = unflag s' -> unflag (push_result res s) = unflag (push_result res s').
Proof. unfold unflag. simpl. now intros [= -> -> -> -> ->]. Qed.

Lemma blind_ret {A} (a : A) : flag_blind (@ret W A a).
Proof. intros s s' Heq. simpl. now rewrite Heq. Qed.

Lemma blind_throw {A} e : flag_blind (@throw W A e).
Proof. intros s s' Heq. simpl. now rewrite Heq. Qed.

Lemma blind_bind {A B} (m : M W A) (k : A -> M W B) :
  flag_blind m -> (forall a, flag_blind (k a)) -> flag_blind (bind m k).
Proof.
  intros Hm Hk s s' Heq. unfold bind. specialize (Hm s s' Heq).
  destruct (m s) as [a s1|e s1|], (m s') as [a' s1'|e' s1'|];
    cbn [unflag_result] in Hm; try discriminate; try reflexivity.
  - assert (a = a' /\ unflag s1 = unflag s1') as [-> Hs] by (split; congruence).
    now apply Hk.
  - cbn [unflag_result]. congruence.
Qed.

Lemma blind_await {A} (c : Call A) : flag_blind (await c).
Proof.
  intros s s' Heq. unfold await.
  destruct (unflag_fields s s' Heq) as (_ & _ & _ & _ & <-).
  destruct (outcome (perform c (world s))); cbn [unflag_result];
    now rewrite !unflag_arrival, Heq.
Qed.

Lemma blind_delay ms : flag_blind (delay ms).
Proof.
  intros s s' Heq. unfold delay.
  destruct (unflag_fields s s' Heq) as (_ & _ & _ & _ & <-).
  destruct (setTimeout ms (world s)) as [w called]. cbn [unflag_result].
  now rewrite !unflag_arrival, Heq.
Qed.

Lemma blind_variables_set key v : flag_blind (@variables_set W key v).
Proof.
  intros s s' Heq. unfold variables_set, unflag in *. simpl in *.
  now injection Heq as -> -> -> -> ->.
Qed.

Lemma blind_checkPixelColor x y expected tolerance :
  flag_blind (checkPixelColor x y expected tolerance).
Proof.
  unfold checkPixelColor. apply blind_bind; [apply blind_await|].
  intros [actual|]; [|apply blind_ret].
  destruct expected; first [apply blind_throw | apply blind_ret].
Qed.

Lemma blind_waitForPixelColor fuel x y expected timeout tolerance :
  flag_blind (waitForPixelColor fuel x y expected timeout tolerance).
Proof.
  assert (forall startTime t tol,
             flag_blind (waitForPixelColor_loop fuel startTime x y expected t tol)) as Hloop.
  { intros startTime t tol.
    induction fuel as [|fuel IH]; intros s s' Heq; cbn [waitForPixelColor_loop];
      unfold now; destruct (unflag_fields s s' Heq) as (_ & _ & _ & _ & <-);
      split_if; simpl; try reflexivity; try (now rewrite Heq).
    apply (blind_bind (checkPixelColor x y expected tol)); [apply blind_checkPixelColor| |exact Heq].
    intros [|]; [apply blind_ret|].
    apply blind_bind; [apply blind_delay | intros _; exact IH]. }
  intros s s' Heq. unfold waitForPixelColor, now.
  destruct (unflag_fields s s' Heq) as (_ & _ & _ & _ & <-). now apply Hloop.
Qed.

Lemma blind_waitForImage fuel templatePath timeout threshold :
  flag_blind (waitForImage fuel templatePath timeout threshold).
Proof.
  assert (forall startTime t th,
             flag_blind (waitForImage_loop fuel startTime templatePath t th)) as Hloop.
  { intros startTime t th.
    induction fuel as [|fuel IH]; intros s s' Heq; cbn [waitForImage_loop];
      unfold now; destruct (unflag_fields s s' Heq) as (_ & _ & _ & _ & <-);
      split_if; simpl; try reflexivity; try (now rewrite Heq).
    apply (blind_bind (await (FindImage templatePath JUndefined th)));
      [apply blind_await| |exact Heq].
    intros res. destruct (found res); [apply blind_ret|].
    apply blind_bind; [apply blind_delay | intros _; exact IH]. }
  intros s s' Heq. unfold waitForImage, now.
  destruct (unflag_fields s s' Heq) as (_ & _ & _ & _ & <-). now apply Hloop.
Qed.

Lemma blind_checkCondition c : flag_blind (checkCondition c).
Proof.
  unfold checkCondition.
  destruct (lookup_label condition_kinds (cond_type c)) as [[| | | |]|].
  - intros s s' Heq. destruct (unflag_fields s s' Heq) as (_ & _ & _ & _ & <-).
    destruct (launcher_searchConsole _ _ _); simpl; now rewrite Heq.
  - apply blind_checkPixelColor.
  - apply blind_bind; [apply blind_await | intros a; apply blind_ret].
  - apply blind_bind; [apply blind_await | intros a; apply blind_ret].
  - apply blind_ret.
  - apply blind_ret.
Qed.

Lemma blind_waitForCondition fuel c : flag_blind (waitForCondition fuel c).
Proof.
  assert (forall startTime timeout,
             flag_blind (waitForCondition_loop fuel startTime timeout c)) as Hloop.
  { intros startTime timeout.
    induction fuel as [|fuel IH]; intros s s' Heq; cbn [waitForCondition_loop];
      unfold now; destruct (unflag_fields s s' Heq) as (_ & _ & _ & _ & <-);
      split_if; simpl; try reflexivity; try (now rewrite Heq).
    apply (blind_bind (checkCondition c)); [apply blind_checkCondition| |exact Heq].
    intros [|]; [apply blind_ret|].
    apply blind_bind; [apply blind_delay | intros _; exact IH]. }
  intros s s' Heq. unfold waitForCondition, now.
  destruct (unflag_fields s s' Heq) as (_ & _ & _ & _ & <-). now apply Hloop.
Qed.

Lemma blind_executeAction fuel act params : flag_blind (executeAction fuel act params).
Proof.
  unfold executeAction.
  destruct (lookup_label vocabulary act) as [a|]; [|apply blind_throw].
  destruct a; simpl;
    try (apply blind_await); try (apply blind_delay);
    try (apply blind_variables_set).
  - apply blind_bind; [apply blind_await|]. intros cvar.
    destruct (truthy _); [apply blind_variables_set | apply blind_ret].
  - destruct (truthy _); [apply blind_await|].
    destruct (truthy _); apply blind_await.
  - destruct (_ && _); apply blind_await.
  - destruct (truthy _); apply blind_await.
  - apply blind_bind; [apply blind_await|].
    intros [|]; simpl; [apply blind_ret | apply blind_throw].
  - apply blind_bind; [apply blind_checkPixelColor|].
    intros [|]; simpl; [apply blind_ret | apply blind_throw].
  - apply blind_bind; [apply blind_await|]. intros res.
    destruct (found res); simpl; [|apply blind_throw].
    apply blind_bind.
    + destruct (truthy _); [apply blind_variables_set | apply blind_ret].
    + intros _. destruct (truthy _); [apply blind_variables_set | apply blind_ret].
  - apply blind_bind; [apply blind_await | intros a; apply blind_ret].
  - apply blind_bind; [apply blind_waitForPixelColor | intros a; apply blind_ret].
  - apply blind_bind; [apply blind_waitForImage|]. intros res.
    destruct (found res); simpl; [apply blind_ret | apply blind_throw].
  - intros s s' Heq. unfold variables_get.
    destruct (unflag_fields s s' Heq) as (_ & _ & _ & <- & _).
    destruct (negb _); simpl; now rewrite Heq.
  - intros s s' Heq. destruct (unflag_fields s s' Heq) as (_ & _ & _ & _ & <-).
    destruct (negb _); simpl; now rewrite Heq.
  - intros s s' Heq. destruct (unflag_fields s s' Heq) as (_ & _ & _ & _ & <-).
    destruct (launcher_isRunning _); simpl; now rewrite Heq.
  - intros s s' Heq. simpl. now rewrite (unflag_emit _ s s' Heq).
Qed.

Lemma blind_executeStep fuel step : flag_blind (executeStep fuel step).
Proof.
  intros s s' Heq. unfold executeStep, now.
  destruct (unflag_fields s s' Heq) as (_ & _ & _ & _ & Hw). rewrite <- Hw.
  assert (flag_blind (step_body fuel step)) as Hbody.
  { unfold step_body. apply blind_bind; [apply blind_executeAction|]. intros _.
    apply blind_bind.
    - unfold wait_after. destruct (waitAfter step) as [ms|]; [|apply blind_ret].
      destruct (ms =? 0); [apply blind_ret | apply blind_delay].
    - intros _. unfold wait_condition.
      destruct (condition step) as [c|]; [|apply blind_ret].
      apply blind_bind; [apply blind_waitForCondition|].
      intros [|]; simpl; [apply blind_ret | apply blind_throw]. }
  specialize (Hbody _ _ (unflag_emit (EvStepStart (step_action step) (step_params step))
                           s s' Heq)).
  destruct (step_body fuel step (emit _ s)) as [[] s1|e s1|],
           (step_body fuel step (emit _ s')) as [[] s1'|e' s1'|];
    cbn [unflag_result] in Hbody; try discriminate; try reflexivity.
  - assert (unflag s1 = unflag s1') as Hs by congruence.
    destruct (unflag_fields s1 s1' Hs) as (_ & _ & _ & _ & Hw1). rewrite <- Hw1.
    cbn [unflag_result]. f_equal. apply unflag_emit. now apply unflag_push.
  - assert (e = e' /\ unflag s1 = unflag s1') as [-> Hs] by (split; congruence).
    destruct (unflag_fields s1 s1' Hs) as (_ & _ & _ & _ & Hw1). rewrite <- Hw1.
    cbn [unflag_result]. f_equal. apply unflag_emit. now apply unflag_push.
Qed.

Lemma blind_run_teardown fuel l : flag_blind (run_teardown fuel l).
Proof.
  induction l as [|step rest IH]; intros s s' Heq; simpl; [now rewrite Heq|].
  pose proof (blind_executeStep fuel step s s' Heq) as Hs.
  destruct (executeStep fuel step s) as [res s1|e s1|],
           (executeStep fuel step s') as [res' s1'|e' s1'|];
    cbn [unflag_result] in Hs; try discriminate; try reflexivity.
  - apply IH. congruence.
  - apply IH. congruence.
Qed.

Lemma blind_finally_teardown fuel script : flag_blind (finally_teardown fuel script).
Proof.
  unfold finally_teardown.
  destruct (teardown script) as [[|step rest]|]; try apply blind_ret.
  intros s s' Heq. apply blind_run_teardown. now apply unflag_emit.
Qed.

(** The flag any caller left is overwritten when [runScript] starts. *)
Lemma runScript_resets_flag fuel script s s' :
  unflag s = unflag s' -> runScript fuel script s = runScript fuel script s'.
Proof.
  intros Heq. unfold runScript, now.
  destruct (unflag_fields s s' Heq) as (Hr & Hc & Hres & Hv & Hw).
  assert (start_run script s = start_run script s') as ->; [|now rewrite Hw].
  unfold start_run. simpl. now rewrite Hv, Hw.
Qed.

(** The loop answers false only once the timeout has elapsed. *)
Lemma waitForCondition_loop_false fuel startTime timeout c : forall s s',
  waitForCondition_loop fuel startTime timeout c s = Returned false s' ->
  timeout <= now s' - startTime.
Proof.
  induction fuel as [|fuel IH]; intros s s'; cbn [waitForCondition_loop];
    split_if; try discriminate;
    try (intros [= <-]; apply Z.ltb_ge; assumption).
  unfold bind. destruct (checkCondition c s) as [[|] s1|e s1|]; try discriminate.
  unfold delay. destruct (setTimeout (JNum 200) (world s1)) as [w called].
  apply IH.
Qed.

Lemma start_run_results script s : stepResults (start_run script s) = [].
Proof. unfold start_run. now rewrite emit_stepResults. Qed.

(** ** A condition that is never met *)

Section NeverMet.

Variable c : WaitCondition.
Variable D : Z.

(** The 200 ms timer is exact, and a check of the condition answers false
    within [D] milliseconds. *)
Hypothesis timer_200 :
  forall w : W, Date_now (fst (setTimeout (JNum 200) w)) = Date_now w + 200.
Hypothesis never_met :
  forall s, exists s',
    checkCondition c s = Returned false s' /\ now s <= now s' <= now s + D.

Lemma delay_200 s :
  exists s', delay (JNum 200) s = Returned tt s' /\ now s' = now s + 200.
Proof.
  unfold delay. pose proof (timer_200 (world s)) as Ht.
  destruct (setTimeout (JNum 200) (world s)) as [w called].
  eexists. split; [reflexivity|]. unfold now.
  now rewrite (proj1 (proj2 (proj2 (note_abort_fields _ _)))).
Qed.

Lemma waitForCondition_loop_never_met fuel startTime timeout : forall s,
  (Z.to_nat ((timeout - (now s - startTime) + 200 - 1) / 200) <= fuel)%nat ->
  exists s',
    waitForCondition_loop fuel startTime timeout c s = Returned false s'
    /\ (timeout <= now s - startTime -> s' = s)
    /\ (now s - startTime < timeout ->
        now s' - startTime < timeout + 200 + D).
Proof.
  induction fuel as [|fuel IH]; intros s Hfuel; cbn [waitForCondition_loop];
    split_if.
  - apply Z.ltb_lt in Heqb0.
    pose proof (polls_step 200 (timeout - (now s - startTime)) (-200)). lia.
  - apply Z.ltb_ge in Heqb0. exists s. split; [reflexivity|]. split; [reflexivity|lia].
  - apply Z.ltb_lt in Heqb0. unfold bind.
    destruct (never_met s) as (s1 & -> & Hcheck).
    destruct (delay_200 s1) as (s2 & -> & Hdelay).
    destruct (IH s2) as (s' & Hloop & Hsame & Hlate).
    { pose proof (polls_step 200 (timeout - (now s - startTime))
                    (timeout - (now s2 - startTime))). lia. }
    exists s'. split; [exact Hloop|]. split; [lia|].
    intros _. destruct (Z.lt_ge_cases (now s2 - startTime) timeout) as [Hlt|Hge].
    + apply Hlate, Hlt.
    + rewrite (Hsame Hge). lia.
  - apply Z.ltb_ge in Heqb0. exists s. split; [reflexivity|]. split; [reflexivity|lia].
Qed.

(** C6, as amended: a condition that is never met is polled with one 200 ms
    timer between two checks, and, with fuel for the polls, the wait returns
    false once the effective timeout has elapsed, at most one poll interval
    and one check after it; the effective timeout is the condition's timeout,
    or 30000 ms when that is 0.  The step that carries the condition then
    fails with the condition-not-met error. *)
Theorem waitForCondition_times_out fuel s :
  (polls (effective_timeout c) 200 <= fuel)%nat ->
  (exists s',
      waitForCondition fuel c s = Returned false s'
      /\ (0 < effective_timeout c ->
          effective_timeout c <= now s' - now s < effective_timeout c + 200 + D)
      /\ (effective_timeout c <= 0 -> s' = s)
      /\ (forall step,
            condition step = Some c ->
            wait_condition fuel step s
            = Thrown ("Error: Condition not met: " ++ JSON_stringify c) s'))
  /\ (forall fuel' startTime timeout s0 s1,
        now s0 - startTime < timeout ->
        checkCondition c s0 = Returned false s1 ->
        waitForCondition_loop (S fuel') startTime timeout c s0
        = bind (delay (JNum 200))
               (fun _ => waitForCondition_loop fuel' startTime timeout c) s1)
  /\ effective_timeout c = (if cond_timeout c =? 0 then 30000 else cond_timeout c).
Proof.
  intros Hfuel. split; [|split; [|reflexivity]].
  - destruct (waitForCondition_loop_never_met fuel (now s) (effective_timeout c) s)
      as (s' & Hloop & Hsame & Hlate).
    { unfold polls in Hfuel.
      replace (effective_timeout c - (now s - now s) + 200 - 1)
        with (effective_timeout c + 200 - 1) by lia.
      exact Hfuel. }
    exists s'. unfold waitForCondition. split; [exact Hloop|]. split; [|split].
    + intros Hpos. split; [now apply (waitForCondition_loop_false _ _ _ _ _ _ Hloop)|].
      apply Hlate. lia.
    + intros Hle. apply Hsame. lia.
    + intros step Hcond. unfold wait_condition, bind, waitForCondition.
      now rewrite Hcond, Hloop.
  - intros fuel' startTime timeout s0 s1 Hlt Hcheck. cbn [waitForCondition_loop].
    apply Z.ltb_lt in Hlt. rewrite Hlt. unfold bind at 1. now rewrite Hcheck.
Qed.

End NeverMet.

Section Timed.

Context `{!TimedWorld W}.

Lemma await_clock {A} (c : Call A) s :
  match await c s with
  | Returned _ s' | Thrown _ s' => now s <= now s'
  | OutOfFuel => True
  end.
Proof.
  unfold await. pose proof (perform_clock A c (world s)) as Hc.
  destruct (outcome _); unfold now;
    rewrite (proj1 (proj2 (proj2 (note_abort_fields _ _)))); exact Hc.
Qed.

Lemma delay_clock n s :
  0 <= n -> exists s', delay (JNum n) s = Returned tt s' /\ now s + n <= now s'.
Proof.
  intros Hn. unfold delay. pose proof (timer_clock n (world s) Hn) as Hc.
  destruct (setTimeout (JNum n) (world s)) as [w called].
  eexists. split; [reflexivity|]. unfold now.
  now rewrite (proj1 (proj2 (proj2 (note_abort_fields _ _)))).
Qed.

Lemma checkPixelColor_clock x y expected tolerance s :
  match checkPixelColor x y expected tolerance s with
  | Returned _ s' | Thrown _ s' => now s <= now s'
  | OutOfFuel => True
  end.
Proof.
  unfold checkPixelColor, bind. pose proof (await_clock (GetPixelColor x y) s) as Hc.
  destruct (await (GetPixelColor x y) s) as [[actual|] s1|e s1|]; auto.
  destruct expected; exact Hc.
Qed.

Lemma checkCondition_clock c s :
  match checkCondition c s with
  | Returned _ s' | Thrown _ s' => now s <= now s'
  | OutOfFuel => True
  end.
Proof.
  unfold checkCondition.
  destruct (lookup_label condition_kinds (cond_type c)) as [[| | | |]|].
  - destruct (launcher_searchConsole _ _ _); lia.
  - apply checkPixelColor_clock.
  - unfold bind. pose proof (await_clock (GetCvar (prop (cond_params c) "name")) s) as Hc.
    destruct (await _ s); exact Hc.
  - unfold bind. pose proof (await_clock (FindWindow (prop (cond_params c) "title")) s) as Hc.
    destruct (await _ s); exact Hc.
  - simpl. lia.
  - simpl. lia.
Qed.

Lemma waitForCondition_loop_total fuel startTime timeout c : forall s,
  (Z.to_nat ((timeout - (now s - startTime) + 200 - 1) / 200) <= fuel)%nat ->
  waitForCondition_loop fuel startTime timeout c s <> OutOfFuel.
Proof.
  induction fuel as [|fuel IH]; intros s Hfuel; cbn [waitForCondition_loop];
    split_if; try discriminate.
  - apply Z.ltb_lt in Heqb0.
    pose proof (polls_step 200 (timeout - (now s - startTime)) (-200)). lia.
  - apply Z.ltb_lt in Heqb0. unfold bind.
    pose proof (checkCondition_clock c s) as Hc.
    pose proof (total_checkCondition c s) as Ht.
    destruct (checkCondition c s) as [[|] s1|e s1|]; try discriminate; [|congruence].
    destruct (delay_clock 200 s1) as (s2 & -> & Hd); [lia|].
    apply IH.
    pose proof (polls_step 200 (timeout - (now s - startTime))
                  (timeout - (now s2 - startTime))). lia.
Qed.

Lemma total_waitForCondition fuel c :
  (polls (effective_timeout c) 200 <= fuel)%nat -> total (waitForCondition fuel c).
Proof.
  intros Hfuel s. unfold waitForCondition. apply waitForCondition_loop_total.
  unfold polls in Hfuel.
  replace (effective_timeout c - (now s - now s) + 200 - 1)
    with (effective_timeout c + 200 - 1) by lia.
  exact Hfuel.
Qed.

Lemma waitForPixelColor_loop_total fuel startTime x y expected timeout tolerance t :
  to_number timeout = Some t ->
  forall s,
  (Z.to_nat ((t - (now s - startTime) + 200 - 1) / 200) <= fuel)%nat ->
  waitForPixelColor_loop fuel startTime x y expected timeout tolerance s <> OutOfFuel.
Proof.
  intros Ht.
  induction fuel as [|fuel IH]; intros s Hfuel; cbn [waitForPixelColor_loop];
    rewrite Ht; unfold num_lt; split_if; try discriminate.
  - apply Z.ltb_lt in Heqb0.
    pose proof (polls_step 200 (t - (now s - startTime)) (-200)). lia.
  - apply Z.ltb_lt in Heqb0. unfold bind.
    pose proof (checkPixelColor_clock x y expected tolerance s) as Hc.
    pose proof (total_checkPixelColor x y expected tolerance s) as Htot.
    destruct (checkPixelColor x y expected tolerance s) as [[|] s1|e s1|];
      try discriminate; [|congruence].
    destruct (delay_clock 200 s1) as (s2 & -> & Hd); [lia|].
    apply IH.
    pose proof (polls_step 200 (t - (now s - startTime)) (t - (now s2 - startTime))). lia.
Qed.

Lemma no_timeout_no_loop_pixel fuel startTime x y expected timeout tolerance s :
  to_number timeout = None ->
  waitForPixelColor_loop fuel startTime x y expected timeout tolerance s = Returned false s.
Proof. intros Ht. destruct fuel; cbn [waitForPixelColor_loop]; now rewrite Ht. Qed.

Lemma default_arg_js_or a d d' :
  d <> JUndefined -> default_arg (js_or a d) d' = js_or a d.
Proof.
  intros Hd. unfold js_or. destruct (truthy a) eqn:Ha.
  - destruct a; try reflexivity; discriminate.
  - destruct d; try reflexivity; congruence.
Qed.

Lemma total_waitForPixelColor fuel x y expected timeout tolerance :
  (timeout_polls (js_or timeout (JNum 30000)) 200 <= fuel)%nat ->
  total (waitForPixelColor fuel x y expected (js_or timeout (JNum 30000)) tolerance).
Proof.
  intros Hfuel s. unfold waitForPixelColor.
  rewrite default_arg_js_or by discriminate.
  unfold timeout_polls in Hfuel.
  destruct (to_number (js_or timeout (JNum 30000))) as [t|] eqn:Ht.
  - apply (waitForPixelColor_loop_total _ _ _ _ _ _ _ t Ht).
    unfold polls in Hfuel.
    replace (t - (now s - now s) + 200 - 1) with (t + 200 - 1) by lia.
    exact Hfuel.
  - now rewrite no_timeout_no_loop_pixel.
Qed.

Lemma waitForImage_loop_total fuel startTime templatePath timeout threshold t :
  to_number timeout = Some t ->
  forall s,
  (Z.to_nat ((t - (now s - startTime) + 500 - 1) / 500) <= fuel)%nat ->
  waitForImage_loop fuel startTime templatePath timeout threshold s <> OutOfFuel.
Proof.
  intros Ht.
  induction fuel as [|fuel IH]; intros s Hfuel; cbn [waitForImage_loop];
    rewrite Ht; unfold num_lt; split_if; try discriminate.
  - apply Z.ltb_lt in Heqb0.
    pose proof (polls_step 500 (t - (now s - startTime)) (-500)). lia.
  - apply Z.ltb_lt in Heqb0. unfold bind.
    pose proof (await_clock (FindImage templatePath JUndefined threshold) s) as Hc.
    pose proof (total_await (FindImage templatePath JUndefined threshold) s) as Htot.
    destruct (await (FindImage templatePath JUndefined threshold) s) as [res s1|e s1|];
      try discriminate; [|congruence].
    destruct (found res); [discriminate|].
    destruct (delay_clock 500 s1) as (s2 & -> & Hd); [lia|].
    apply IH.
    pose proof (polls_step 500 (t - (now s - startTime)) (t - (now s2 - startTime))). lia.
Qed.

Lemma no_timeout_no_loop_image fuel startTime templatePath timeout threshold s :
  to_number timeout = None ->
  waitForImage_loop fuel startTime templatePath timeout threshold s = Returned notFound s.
Proof. intros Ht. destruct fuel; cbn [waitForImage_loop]; now rewrite Ht. Qed.

Lemma total_waitForImage fuel templatePath timeout threshold :
  (timeout_polls (js_or timeout (JNum 30000)) 500 <= fuel)%nat ->
  total (waitForImage fuel templatePath (js_or timeout (JNum 30000)) threshold).
Proof.
  intros Hfuel s. unfold waitForImage.
  rewrite default_arg_js_or by discriminate.
  unfold timeout_polls in Hfuel.
  destruct (to_number (js_or timeout (JNum 30000))) as [t|] eqn:Ht.
  - apply (waitForImage_loop_total _ _ _ _ _ t Ht).
    unfold polls in Hfuel.
    replace (t - (now s - now s) + 500 - 1) with (t + 500 - 1) by lia.
    exact Hfuel.
  - now rewrite no_timeout_no_loop_image.
Qed.

Lemma total_executeAction fuel act params :
  (action_polls act params <= fuel)%nat -> total (executeAction fuel act params).
Proof.
  unfold action_polls, executeAction.
  destruct (lookup_label vocabulary act) as [a|]; [|intros _; apply total_throw].
  destruct a; simpl; intros Hfuel;
    try (apply total_await); try (apply total_delay);
    try (apply total_variables_set).
  - apply total_bind; [apply total_await|]. intros cvar.
    destruct (truthy _); [apply total_variables_set | apply total_ret].
  - destruct (truthy _); [apply total_await|].
    destruct (truthy _); apply total_await.
  - destruct (_ && _); apply total_await.
  - destruct (truthy _); apply total_await.
  - apply total_bind; [apply total_await|].
    intros [|]; simpl; [apply total_ret | apply total_throw].
  - apply total_bind; [apply total_checkPixelColor|].
    intros [|]; simpl; [apply total_ret | apply total_throw].
  - apply total_bind; [apply total_await|]. intros res.
    destruct (found res); simpl; [|apply total_throw].
    apply total_bind.
    + destruct (truthy _); [apply total_variables_set | apply total_ret].
    + intros _. destruct (truthy _); [apply total_variables_set | apply total_ret].
  - apply total_bind; [apply total_await | intros a; apply total_ret].
  - apply total_bind; [now apply total_waitForPixelColor | intros a; apply total_ret].
  - apply total_bind; [now apply total_waitForImage|]. intros res.
    destruct (found res); simpl; [apply total_ret | apply total_throw].
  - intros s. destruct (negb _); discriminate.
  - intros s. destruct (negb _); discriminate.
  - intros s. destruct (launcher_isRunning _); discriminate.
  - intros s. discriminate.
Qed.

Lemma total_wait_after step : total (wait_after step).
Proof.
  unfold wait_after. destruct (waitAfter step) as [ms|]; [|apply total_ret].
  destruct (ms =? 0); [apply total_ret | apply total_delay].
Qed.

Lemma total_wait_condition fuel step :
  (condition_polls step <= fuel)%nat -> total (wait_condition fuel step).
Proof.
  unfold condition_polls, wait_condition.
  destruct (condition step) as [c|]; [|intros _; apply total_ret].
  intros Hfuel. apply total_bind; [now apply total_waitForCondition|].
  intros [|]; simpl; [apply total_ret | apply total_throw].
Qed.

Lemma total_executeStep fuel step :
  (step_polls step <= fuel)%nat -> total (executeStep fuel step).
Proof.
  unfold step_polls. intros Hfuel s. unfold executeStep.
  assert (total (step_body fuel step)) as Hb.
  { unfold step_body.
    apply total_bind; [apply total_executeAction; lia|]. intros _.
    apply total_bind; [apply total_wait_after|]. intros _.
    apply total_wait_condition. lia. }
  specialize (Hb (emit (EvStepStart (step_action step) (step_params step)) s)).
  destruct (step_body fuel step _); [discriminate | discriminate | congruence].
Qed.

Lemma total_run_steps fuel l :
  (steps_polls l <= fuel)%nat -> total (run_steps fuel l).
Proof.
  induction l as [|step rest IH]; simpl; intros Hfuel s; [discriminate|].
  destruct (aborted s); [discriminate|].
  apply total_bind; [apply total_executeStep; lia|].
  intros _. apply IH. lia.
Qed.

Lemma total_run_teardown fuel l :
  (steps_polls l <= fuel)%nat -> total (run_teardown fuel l).
Proof.
  induction l as [|step rest IH]; simpl; intros Hfuel s; [discriminate|].
  pose proof (total_executeStep fuel step ltac:(lia) s) as Hs.
  destruct (executeStep fuel step s); [apply IH; lia | apply IH; lia | congruence].
Qed.

Lemma total_run_phases fuel script :
  (script_polls script <= fuel)%nat -> total (run_phases fuel script).
Proof.
  unfold script_polls. intros Hfuel. unfold run_phases.
  apply total_bind.
  - unfold setup_phase.
    destruct (setup script) as [[|step rest]|]; try apply total_ret.
    intros s. apply total_run_steps. simpl opt_steps in Hfuel. lia.
  - intros _ s. unfold main_phase. destruct (negb (aborted s)); [|discriminate].
    apply total_run_steps. lia.
Qed.

Lemma total_finally_teardown fuel script :
  (script_polls script <= fuel)%nat -> total (finally_teardown fuel script).
Proof.
  unfold script_polls. intros Hfuel. unfold finally_teardown.
  destruct (teardown script) as [[|step rest]|]; try apply total_ret.
  intros s. apply total_run_teardown. simpl opt_steps in Hfuel. lia.
Qed.

(** With fuel for its loops, [runScript] reaches its [finally] block, the
    block runs to its end, and the run returns its TestResult. *)
Lemma runScript_returns fuel script s :
  (script_polls script <= fuel)%nat ->
  exists s1 s2 td,
    try_phases fuel script (start_run script s) = Some s1
    /\ finally_teardown fuel script s1 = Returned tt s2
    /\ stepResults s2 = (stepResults s1 ++ td)%list
    /\ Forall2 (fun step res => action res = step_action step)
               (opt_steps (teardown script)) td
    /\ runScript fuel script s
       = Returned (test_result script (now s) (set_running false s2))
                  (finish_run script (now s) s2).
Proof.
  intros Hfuel. unfold runScript, try_phases.
  pose proof (total_run_phases fuel script Hfuel (start_run script s)) as Hp.
  destruct (run_phases fuel script (start_run script s)) as [[] s1|e s1|];
    [| |congruence].
  - pose proof (total_finally_teardown fuel script Hfuel s1) as Ht.
    pose proof (finally_teardown_results fuel script s1) as Hr.
    destruct (finally_teardown fuel script s1) as [[] s2|e s2|] eqn:Hf;
      [|contradiction|congruence].
    destruct Hr as (td & Htd & Hall). exists s1, s2, td. repeat split; auto.
  - set (s1' := push_result (error_record e) s1).
    pose proof (total_finally_teardown fuel script Hfuel s1') as Ht.
    pose proof (finally_teardown_results fuel script s1') as Hr.
    destruct (finally_teardown fuel script s1') as [[] s2|e' s2|] eqn:Hf;
      [|contradiction|congruence].
    destruct Hr as (td & Htd & Hall). exists s1', s2, td. repeat split; auto.
Qed.


(** C3: [runScript] never propagates an exception; when it returns, the
    TestResult holds every recorded StepResult and its [passed] field is true
    exactly when each of them has [success = true]; with fuel for the polling
    loops it does return; and a script with no entries at all passes. *)
Theorem runScript_result fuel script s :
  (forall e s', runScript fuel script s <> Thrown e s')
  /\ (forall result s',
        runScript fuel script s = Returned result s' ->
        steps result = stepResults s'
        /\ (passed result = true
            <-> Forall (fun res => success res = true) (steps result)))
  /\ ((script_polls script <= fuel)%nat ->
      exists result s', runScript fuel script s = Returned result s')
  /\ (opt_steps (setup script) = [] -> script_steps script = [] ->
      opt_steps (teardown script) = [] ->
      exists result s',
        runScript fuel script s = Returned result s'
        /\ steps result = [] /\ passed result = true).
Proof.
  assert (forall result s',
             runScript fuel script s = Returned result s' ->
             steps result = stepResults s'
             /\ (passed result = true
                 <-> Forall (fun res => success res = true) (steps result))) as Hret.
  { intros result s'. unfold runScript.
    destruct (try_phases fuel script (start_run script s)) as [s1|]; [|discriminate].
    destruct (finally_teardown fuel script s1) as [[] s2|e s2|]; try discriminate.
    intros [= <- <-]. unfold finish_run. rewrite emit_stepResults. simpl.
    split; [reflexivity|].
    rewrite forallb_forall, Forall_forall.
    split; intros Hall res Hin; apply Hall; now apply list_elem_of_In. }
  split; [|split; [exact Hret|split]].
  - intros e s'. unfold runScript.
    destruct (try_phases fuel script (start_run script s)) as [s1|]; [|discriminate].
    pose proof (finally_teardown_results fuel script s1) as Hr.
    destruct (finally_teardown fuel script s1) as [[] s2|e' s2|];
      [discriminate | contradiction | discriminate].
  - intros Hfuel.
    destruct (runScript_returns fuel script s Hfuel) as (s1 & s2 & td & _ & _ & _ & _ & Hrun).
    eauto.
  - intros Hsetup Hsteps Hteardown.
    assert (exists s2, try_phases fuel script (start_run script s) = Some s2
                       /\ stepResults s2 = []
                       /\ finally_teardown fuel script s2 = Returned tt s2)
      as (s2 & Htry & Hnone & Hfin).
    { unfold try_phases, run_phases, bind, setup_phase, main_phase, finally_teardown.
      rewrite Hsteps.
      assert (stepResults (start_run script s) = []) as H0.
      { unfold start_run. now rewrite emit_stepResults. }
      destruct (setup script) as [[|? ?]|]; try discriminate;
        destruct (teardown script) as [[|? ?]|]; try discriminate; simpl;
        destruct (negb (aborted (start_run script s))); simpl;
        eexists; repeat split; try reflexivity;
        try rewrite emit_stepResults; exact H0. }
    unfold runScript. rewrite Htry, Hfin.
    eexists _, _. split; [reflexivity|]. simpl. rewrite Hnone. auto.
Qed.

(** C2: when a setup or steps entry throws, no later setup or steps entry
    executes: the [try] block ends, thrown, in the very state [s2] the failing
    entry left, whatever follows it in the lists.  The error is recorded as a
    synthetic StepResult with action "error" and [success = false], right
    after the entry's own failed StepResult; the teardown entries run from
    there and the run returns. *)
Theorem failing_step_halts_phases fuel script s pre step post s1 e s2 :
  (script_polls script <= fuel)%nat ->
  (setup script = Some (pre ++ step :: post)%list
   /\ run_steps fuel pre (emit (EvPhase "setup") (start_run script s)) = Returned tt s1)
  \/ (script_steps script = (pre ++ step :: post)%list
      /\ exists s0,
          setup_phase fuel script (start_run script s) = Returned tt s0
          /\ aborted s0 = false
          /\ run_steps fuel pre (emit (EvPhase "main") s0) = Returned tt s1) ->
  aborted s1 = false ->
  executeStep fuel step s1 = Thrown e s2 ->
  exists d s3 td,
    run_phases fuel script (start_run script s) = Thrown e s2
    /\ success (error_record e) = false
    /\ action (error_record e) = "error"
    /\ finally_teardown fuel script (push_result (error_record e) s2) = Returned tt s3
    /\ stepResults s3
       = (stepResults s1 ++ [failure_record step d e; error_record e] ++ td)%list
    /\ Forall2 (fun step res => action res = step_action step)
               (opt_steps (teardown script)) td
    /\ runScript fuel script s
       = Returned (test_result script (now s) (set_running false s3))
                  (finish_run script (now s) s3).
Proof.
  intros Hfuel Hwhere Ha Hstep.
  assert (run_phases fuel script (start_run script s) = Thrown e s2) as Hphases.
  { unfold run_phases, bind.
    destruct Hwhere as [[Hsetup Hpre]|[Hsteps (s0 & Hs0 & Ha0 & Hpre)]].
    - unfold setup_phase. rewrite Hsetup.
      pose proof (run_steps_throw fuel pre step post _ s1 e s2 Hpre Ha Hstep) as Ht.
      destruct pre; cbn [app] in *; now rewrite Ht.
    - rewrite Hs0. unfold main_phase. rewrite Ha0, Hsteps. simpl.
      apply (run_steps_throw fuel pre step post _ s1 e s2 Hpre Ha Hstep). }
  pose proof (executeStep_pushes fuel step s1) as Hpush. rewrite Hstep in Hpush.
  destruct Hpush as (d & Hpush).
  destruct (runScript_returns fuel script s Hfuel)
    as (s1' & s3 & td & Htry & Hfin & Htd & Hall & Hrun).
  unfold try_phases in Htry. rewrite Hphases in Htry. injection Htry as <-.
  exists d, s3, td. repeat split; auto.
  rewrite Htd. simpl. rewrite Hpush. repeat rewrite <- List.app_assoc. reflexivity.
Qed.

(** C8: a condition of kind timeout is met at once, whatever its parameters;
    a condition of a kind outside the five is never met, so that, with fuel
    for its polls, the wait for it returns false and the step that carries it
    fails with the condition-not-met error. *)
Theorem checkCondition_timeout_and_unknown fuel :
  (forall params timeout s,
      checkCondition {| cond_type := "timeout"; cond_params := params;
                        cond_timeout := timeout |} s = Returned true s)
  /\ (forall c s,
        ~ In (cond_type c) the_condition_kinds ->
        checkCondition c s = Returned false s)
  /\ (forall c step s,
        ~ In (cond_type c) the_condition_kinds ->
        condition step = Some c ->
        (polls (effective_timeout c) 200 <= fuel)%nat ->
        exists s',
          waitForCondition fuel c s = Returned false s'
          /\ wait_condition fuel step s
             = Thrown ("Error: Condition not met: " ++ JSON_stringify c) s').
Proof.
  split; [exact checkCondition_timeout|]. split; [exact checkCondition_unknown|].
  intros c step s Hkind Hcond Hfuel.
  assert (exists s', waitForCondition fuel c s = Returned false s') as [s' Hwait].
  { pose proof (total_waitForCondition fuel c Hfuel s) as Htotal.
    unfold waitForCondition in *.
    destruct (waitForCondition_loop_never c
                (fun s0 => ex_intro _ s0 (checkCondition_unknown c s0 Hkind))
                fuel (now s) (effective_timeout c) s) as [Hout|Hfalse];
      [contradiction | exact Hfalse]. }
  exists s'. split; [exact Hwait|].
  unfold wait_condition, bind. now rewrite Hcond, Hwait.
Qed.

(** ** The wait actions *)

Lemma executeStep_action_returns fuel step s s1 :
  condition step = None ->
  executeAction fuel (step_action step) (step_params step)
    (emit (EvStepStart (step_action step) (step_params step)) s) = Returned tt s1 ->
  exists res s',
    executeStep fuel step s = Returned res s'
    /\ success res = true
    /\ stepResults s' = (stepResults s ++ [res])%list.
Proof.
  intros Hcond Hact.
  pose proof (executeStep_pushes fuel step s) as Hpush.
  pose proof (total_wait_after step s1) as Hafter.
  unfold executeStep, step_body, bind in *. rewrite Hact in *.
  destruct (wait_after step s1) as [[] s2|e s2|] eqn:Hw; [| |congruence].
  - unfold wait_condition in *. rewrite Hcond in *. simpl in *.
    destruct Hpush as [_ Hpush]. eauto.
  - exfalso. unfold wait_after in Hw.
    destruct (waitAfter step) as [ms|]; [|discriminate].
    destruct (ms =? 0); [discriminate|].
    unfold delay in Hw. destruct (setTimeout _ _). discriminate.
Qed.

Lemma executeStep_action_throws fuel step s e s1 :
  executeAction fuel (step_action step) (step_params step)
    (emit (EvStepStart (step_action step) (step_params step)) s) = Thrown e s1 ->
  exists d s',
    executeStep fuel step s = Thrown e s'
    /\ stepResults s' = (stepResults s ++ [failure_record step d e])%list.
Proof.
  intros Hact.
  pose proof (executeStep_pushes fuel step s) as Hpush.
  unfold executeStep, step_body, bind in *. rewrite Hact in *.
  destruct Hpush as [d Hpush]. eauto.
Qed.


(** C4, as amended: [abort()] takes effect when it is called after
    [runScript] has reset the flag on entry.  A phase loop that finds the flag
    set executes zero entries; when the flag is set before the first entry
    starts, no setup and no steps entry executes and teardown runs in full;
    when it is set by the end of setup, the main phase executes zero entries.
    The flag is read nowhere else: a step in flight and the teardown entries
    do the same whatever it holds.  The flag a caller set before the call of
    [runScript] is overwritten by the reset and plays no part in the run. *)
Theorem abort_halts_phases_not_teardown fuel script s :
  (script_polls script <= fuel)%nat ->
  (forall l s0, aborted s0 = true -> run_steps fuel l s0 = Returned tt s0)
  /\ (aborted (start_run script s) = true ->
      exists s1 s2 td,
        run_phases fuel script (start_run script s) = Returned tt s1
        /\ stepResults s1 = []
        /\ finally_teardown fuel script s1 = Returned tt s2
        /\ stepResults s2 = td
        /\ Forall2 (fun step res => action res = step_action step)
                   (opt_steps (teardown script)) td
        /\ runScript fuel script s
           = Returned (test_result script (now s) (set_running false s2))
                      (finish_run script (now s) s2))
  /\ (forall s0, aborted s0 = true -> main_phase fuel script s0 = Returned tt s0)
  /\ (forall step, flag_blind (executeStep fuel step))
  /\ flag_blind (finally_teardown fuel script)
  /\ (forall s', unflag s = unflag s' ->
                 runScript fuel script s = runScript fuel script s').
Proof.
  intros Hfuel. split; [|split; [|split; [|split; [|split]]]].
  - intros l s0. apply run_steps_aborted.
  - intros Hab.
    assert (exists s1, run_phases fuel script (start_run script s) = Returned tt s1
                       /\ stepResults s1 = []) as (s1 & Hphases & Hnone).
    { unfold run_phases, bind, setup_phase.
      destruct (setup script) as [[|step rest]|].
      - exists (start_run script s). unfold main_phase. simpl. rewrite Hab.
        split; [reflexivity | apply start_run_results].
      - rewrite run_steps_aborted by now apply emit_keeps_abort.
        unfold main_phase. rewrite (emit_keeps_abort _ _ Hab). simpl.
        eexists. split; [reflexivity|].
        rewrite emit_stepResults. apply start_run_results.
      - exists (start_run script s). unfold main_phase. simpl. rewrite Hab.
        split; [reflexivity | apply start_run_results]. }
    destruct (runScript_returns fuel script s Hfuel)
      as (s1' & s2 & td & Htry & Hfin & Htd & Hall & Hrun).
    unfold try_phases in Htry. rewrite Hphases in Htry. injection Htry as <-.
    exists s1, s2, td. rewrite Hnone in Htd. simpl in Htd. auto 10.
  - intros s0 Hab. unfold main_phase. now rewrite Hab.
  - intros step. apply blind_executeStep.
  - apply blind_finally_teardown.
  - intros s'. apply runScript_resets_flag.
Qed.

End Timed.

End Properties.

(** * More properties of the engine *)

Section Runs.

Context {W : Type} `{World W}.

Implicit Types (s : State W) (step : AutomationStep) (c : WaitCondition).

#[local] Set Warnings "-clear-no-such-hyp".

Ltac split_if :=
  match goal with
  | |- context [if ?g then _ else _] => destruct g eqn:?
  end.

(** ** Frames of a whole run

    When [R] is also kept by the push of a StepResult, every loop of
    [runScript] keeps it. *)

Section RunFrame.

Variable R : State W -> State W -> Prop.
Hypothesis R_refl : forall s, R s s.
Hypothesis R_trans : forall s1 s2 s3, R s1 s2 -> R s2 s3 -> R s1 s3.
Hypothesis R_world : forall s w, R s (set_world w s).
Hypothesis R_aborted : forall s, R s (set_aborted true s).
Hypothesis R_variables : forall s vars, R s (set_variables vars s).
Hypothesis R_results : forall s l, R s (set_stepResults l s).

Lemma run_frame_emit ev s : R s (emit ev s).
Proof.
  unfold emit. destruct (listeners ev (world s)) as [w called].
  eapply R_trans; [apply (R_world s w)|].
  destruct called; simpl; [apply R_aborted | apply R_refl].
Qed.

Lemma run_frame_executeStep fuel step : keeps R (executeStep fuel step).
Proof.
  intros s. unfold executeStep.
  pose proof (keeps_step_body R (fun _ => True) R_refl R_trans R_world R_aborted
                (fun s0 key v _ => R_variables s0 _) fuel step
                ltac:(apply Forall_forall; auto)
                (emit (EvStepStart (step_action step) (step_params step)) s)) as Hb.
  pose proof (run_frame_emit (EvStepStart (step_action step) (step_params step)) s) as He.
  destruct (step_body fuel step _) as [[] s1|e s1|]; [| |exact I].
  - eapply R_trans; [exact He|]. eapply R_trans; [exact Hb|].
    eapply R_trans; [apply (R_results s1)|]. apply run_frame_emit.
  - eapply R_trans; [exact He|]. eapply R_trans; [exact Hb|].
    eapply R_trans; [apply (R_results s1)|]. apply run_frame_emit.
Qed.

Lemma run_frame_run_steps fuel l : keeps R (run_steps fuel l).
Proof.
  induction l as [|step rest IH]; intros s; simpl; [apply R_refl|].
  destruct (aborted s); [apply R_refl|].
  apply (keeps_bind R R_trans); [apply run_frame_executeStep | intros _; exact IH].
Qed.

Lemma run_frame_run_teardown fuel l : keeps R (run_teardown fuel l).
Proof.
  induction l as [|step rest IH]; intros s; simpl; [apply R_refl|].
  pose proof (run_frame_executeStep fuel step s) as Hs.
  destruct (executeStep fuel step s) as [res s1|e s1|]; [| |exact I];
    pose proof (IH s1) as Hr; destruct (run_teardown fuel rest s1); eauto.
Qed.

Lemma run_frame_finally_teardown fuel script : keeps R (finally_teardown fuel script).
Proof.
  unfold finally_teardown.
  destruct (teardown script) as [[|step rest]|]; try (intros s; apply R_refl).
  intros s.
  pose proof (run_frame_run_teardown fuel (step :: rest) (emit (EvPhase "teardown") s)) as Hr.
  pose proof (run_frame_emit (EvPhase "teardown") s) as He.
  destruct (run_teardown fuel (step :: rest) _); eauto.
Qed.

End RunFrame.

Lemma flag_stays_emit ev s : flag_stays s (emit ev s).
Proof. intros Ha. now apply emit_keeps_abort. Qed.

Lemma flag_stays_finally_teardown fuel script :
  keeps flag_stays (finally_teardown fuel script).
Proof.
  apply run_frame_finally_teardown; unfold flag_stays; simpl; auto.
Qed.

(** ** The shape of the results *)

(** The results a phase loop appends: one per entry of a prefix of the
    list, in order; the whole list when the loop returns and the abort flag is
    not set. *)
Lemma run_steps_shape fuel l : forall s,
  match run_steps fuel l s with
  | Returned _ s' =>
      exists rs,
        stepResults s' = (stepResults s ++ rs)%list
        /\ map action rs = map step_action (firstn (length rs) l)
        /\ (aborted s' = false -> length rs = length l)
        /\ (rs <> [] -> aborted s = false)
  | Thrown _ s' =>
      exists rs,
        stepResults s' = (stepResults s ++ rs)%list
        /\ map action rs = map step_action (firstn (length rs) l)
        /\ aborted s = false
  | OutOfFuel => True
  end.
Proof.
  induction l as [|step rest IH]; intros s; simpl.
  - exists []. rewrite app_nil_r. repeat split; auto. congruence.
  - destruct (aborted s) eqn:Ha.
    + exists []. rewrite app_nil_r. repeat split; auto; congruence.
    + unfold bind. pose proof (executeStep_pushes fuel step s) as Hs.
      destruct (executeStep fuel step s) as [res s1|e s1|]; [| |exact I].
      * destruct Hs as [Hres Hpush]. specialize (IH s1).
        destruct (run_steps fuel rest s1) as [[] s2|e s2|]; [| |exact I].
        -- destruct IH as (rs & Hrs & Hact & Hfull & _). exists (res :: rs).
           repeat split; auto.
           ++ rewrite Hrs, Hpush, <- List.app_assoc. reflexivity.
           ++ simpl. rewrite Hact. f_equal. now rewrite Hres.
           ++ intros Hf. simpl. now rewrite (Hfull Hf).
        -- destruct IH as (rs & Hrs & Hact & _). exists (res :: rs).
           repeat split; auto.
           ++ rewrite Hrs, Hpush, <- List.app_assoc. reflexivity.
           ++ simpl. rewrite Hact. f_equal. now rewrite Hres.
      * destruct Hs as (d & Hpush). exists [failure_record step d e].
        repeat split; auto.
Qed.

Lemma setup_phase_shape fuel script s :
  match setup_phase fuel script s with
  | Returned _ s' =>
      exists rs,
        stepResults s' = (stepResults s ++ rs)%list
        /\ map action rs = map step_action (firstn (length rs) (opt_steps (setup script)))
        /\ (aborted s' = false -> length rs = length (opt_steps (setup script)))
  | Thrown _ s' =>
      exists rs,
        stepResults s' = (stepResults s ++ rs)%list
        /\ map action rs = map step_action (firstn (length rs) (opt_steps (setup script)))
  | OutOfFuel => True
  end.
Proof.
  unfold setup_phase.
  destruct (setup script) as [[|step rest]|]; simpl opt_steps;
    try (exists []; rewrite app_nil_r; repeat split; auto).
  pose proof (run_steps_shape fuel (step :: rest) (emit (EvPhase "setup") s)) as Hr.
  rewrite emit_stepResults in Hr.
  destruct (run_steps fuel (step :: rest) _) as [[] s1|e s1|]; [| |exact I].
  - destruct Hr as (rs & Hrs & Hact & Hfull & _). eauto.
  - destruct Hr as (rs & Hrs & Hact & _). eauto.
Qed.

Lemma main_phase_shape fuel script s :
  match main_phase fuel script s with
  | Returned _ s' =>
      exists rs,
        stepResults s' = (stepResults s ++ rs)%list
        /\ map action rs = map step_action (firstn (length rs) (script_steps script))
        /\ (aborted s' = false ->
            length rs = length (script_steps script) /\ aborted s = false)
        /\ (rs <> [] -> aborted s = false)
  | Thrown _ s' =>
      exists rs,
        stepResults s' = (stepResults s ++ rs)%list
        /\ map action rs = map step_action (firstn (length rs) (script_steps script))
        /\ aborted s = false
  | OutOfFuel => True
  end.
Proof.
  unfold main_phase. destruct (aborted s) eqn:Ha; simpl.
  - exists []. rewrite app_nil_r. repeat split; auto; congruence.
  - pose proof (run_steps_shape fuel (script_steps script) (emit (EvPhase "main") s)) as Hr.
    rewrite emit_stepResults in Hr.
    destruct (run_steps fuel (script_steps script) _) as [[] s1|e s1|]; [| |exact I].
    + destruct Hr as (rs & Hrs & Hact & Hfull & _). exists rs. repeat split; auto.
    + destruct Hr as (rs & Hrs & Hact & _). exists rs. repeat split; auto.
Qed.

(** The results of a run, phase by phase. *)
Lemma runScript_shape fuel script s result s' :
  runScript fuel script s = Returned result s' ->
  exists rs1 rs2 err td,
    steps result = (rs1 ++ rs2 ++ err ++ td)%list
    /\ map action rs1 = map step_action (firstn (length rs1) (opt_steps (setup script)))
    /\ map action rs2 = map step_action (firstn (length rs2) (script_steps script))
    /\ map action td = map step_action (opt_steps (teardown script))
    /\ (err = [] \/ exists e, err = [error_record e])
    /\ (rs2 <> [] -> length rs1 = length (opt_steps (setup script)))
    /\ (err = [] -> aborted s' = false ->
        length rs1 = length (opt_steps (setup script))
        /\ length rs2 = length (script_steps script)).
Proof.
  unfold runScript, try_phases, run_phases, bind.
  pose proof (setup_phase_shape fuel script (start_run script s)) as Hsetup.
  rewrite start_run_results in Hsetup. simpl in Hsetup.
  assert (forall s1 s2 (err : list StepResult) rs,
             stepResults s1 = (rs ++ err)%list ->
             finally_teardown fuel script s1 = Returned tt s2 ->
             exists td,
               stepResults s2 = (rs ++ err ++ td)%list
               /\ map action td = map step_action (opt_steps (teardown script))
               /\ (aborted (finish_run script (now s) s2) = false -> aborted s1 = false))
    as Hfin.
  { intros s1 s2 err rs Hrs Hf.
    pose proof (finally_teardown_results fuel script s1) as Hr.
    pose proof (flag_stays_finally_teardown fuel script s1) as Hflag.
    rewrite Hf in Hr, Hflag. destruct Hr as (td & Htd & Hall).
    exists td. split; [now rewrite Htd, Hrs, <- List.app_assoc|]. split.
    - clear -Hall. induction Hall as [|step res l td Hone _ IH]; simpl; congruence.
    - intros Hend. destruct (aborted s1) eqn:Ha; [|reflexivity].
      unfold finish_run in Hend.
      assert (aborted s2 = true) as Ha2 by now apply Hflag.
      rewrite (flag_stays_emit _ _ (Ha2 : aborted (set_running false s2) = true)) in Hend.
      discriminate. }
  destruct (setup_phase fuel script (start_run script s)) as [[] sa|e sa|];
    [| |discriminate].
  - destruct Hsetup as (rs1 & Hrs1 & Hact1 & Hfull1).
    pose proof (main_phase_shape fuel script sa) as Hmain.
    destruct (main_phase fuel script sa) as [[] s1|e s1|]; [| |discriminate].
    + destruct Hmain as (rs2 & Hrs2 & Hact2 & Hfull2 & Hran).
      destruct (finally_teardown fuel script s1) as [[] s2|e s2|] eqn:Hf; try discriminate.
      intros [= <- <-].
      destruct (Hfin s1 s2 [] (rs1 ++ rs2)%list) as (td & Htd & Hacttd & Hflag);
        [now rewrite Hrs2, Hrs1, app_nil_r | exact Hf |].
      exists rs1, rs2, [], td. simpl.
      split; [rewrite Htd; simpl; now rewrite <- List.app_assoc|].
      split; [exact Hact1|]. split; [exact Hact2|]. split; [exact Hacttd|].
      split; [now left|]. split.
      * intros Hne. apply Hfull1, Hran, Hne.
      * intros _ Hend. destruct (Hfull2 (Hflag Hend)) as [Hl Hsa].
        split; [now apply Hfull1 | exact Hl].
    + destruct Hmain as (rs2 & Hrs2 & Hact2 & Hnot).
      destruct (finally_teardown fuel script (push_result (error_record e) s1))
        as [[] s2|e' s2|] eqn:Hf; try discriminate.
      intros [= <- <-].
      destruct (Hfin (push_result (error_record e) s1) s2 [error_record e] (rs1 ++ rs2)%list)
        as (td & Htd & Hacttd & _);
        [simpl; now rewrite Hrs2, Hrs1 | exact Hf |].
      exists rs1, rs2, [error_record e], td. simpl.
      split; [rewrite Htd; simpl; now rewrite <- List.app_assoc|].
      split; [exact Hact1|]. split; [exact Hact2|]. split; [exact Hacttd|].
      split; [right; eauto|]. split; [|discriminate].
      intros _. apply Hfull1, Hnot.
  - destruct Hsetup as (rs1 & Hrs1 & Hact1).
    destruct (finally_teardown fuel script (push_result (error_record e) sa))
      as [[] s2|e' s2|] eqn:Hf; try discriminate.
    intros [= <- <-].
    destruct (Hfin (push_result (error_record e) sa) s2 [error_record e] rs1)
      as (td & Htd & Hacttd & _);
      [simpl; now rewrite Hrs1 | exact Hf |].
    exists rs1, [], [error_record e], td. simpl.
    split; [now rewrite Htd|].
    split; [exact Hact1|]. split; [reflexivity|]. split; [exact Hacttd|].
    split; [right; eauto|]. split; [congruence | discriminate].
Qed.

Lemma runScript_passed fuel script s result s' :
  runScript fuel script s = Returned result s' ->
  passed result = forallb success (steps result)
  /\ steps result = stepResults s'
  /\ name result = script_name script
  /\ running s' = false.
Proof.
  unfold runScript.
  destruct (try_phases fuel script (start_run script s)) as [s1|]; [|discriminate].
  destruct (finally_teardown fuel script s1) as [[] s2|e s2|]; try discriminate.
  intros [= <- <-]. unfold finish_run. rewrite emit_stepResults. simpl.
  repeat split.
  unfold emit. destruct (listeners _ _) as [w called]. now destruct called.
Qed.

Lemma firstn_length_le {A B C} (f : A -> B) (g : C -> B) (rs : list A) (l : list C) :
  map f rs = map g (firstn (length rs) l) -> (length rs <= length l)%nat.
Proof.
  intros Hmap. apply (f_equal (@length B)) in Hmap.
  rewrite !length_map, length_take in Hmap. lia.
Qed.

(** X1: a run that passed, and during which [abort()] was not called,
    executed every entry of the script: its results are those of the setup
    entries, the steps entries and the teardown entries, one each, in that
    order. *)
Theorem passed_run_ran_every_entry fuel script s result s' :
  runScript fuel script s = Returned result s' ->
  passed result = true ->
  aborted s' = false ->
  map action (steps result) = map step_action (all_entries script).
Proof.
  intros Hrun Hpassed Hflag.
  destruct (runScript_passed _ _ _ _ _ Hrun) as (Hp & _).
  destruct (runScript_shape _ _ _ _ _ Hrun)
    as (rs1 & rs2 & err & td & Hsteps & Hact1 & Hact2 & Htd & Herr & _ & Hfull).
  rewrite Hpassed, Hsteps in Hp.
  destruct Herr as [->|[e ->]].
  - destruct (Hfull eq_refl Hflag) as [Hl1 Hl2].
    rewrite Hl1, firstn_all in Hact1. rewrite Hl2, firstn_all in Hact2.
    rewrite Hsteps. unfold all_entries. simpl.
    now rewrite !map_app, Hact1, Hact2, Htd.
  - exfalso. rewrite !forallb_app in Hp. simpl in Hp.
    rewrite !andb_false_r in Hp. discriminate.
Qed.

(** X2: the results of a run follow the script: the results of the first
    entries of setup, then of the first entries of steps, then at most one
    "error" record, then the results of every teardown entry, in this order.
    Steps entries appear only after all of setup, and there is at most one
    result more than the script has entries. *)
Theorem results_follow_the_script fuel script s result s' :
  runScript fuel script s = Returned result s' ->
  exists (n m : nat) (err : list string),
    map action (steps result)
    = (map step_action (firstn n (opt_steps (setup script)))
       ++ map step_action (firstn m (script_steps script))
       ++ err ++ map step_action (opt_steps (teardown script)))%list
    /\ (err = [] \/ err = ["error"])
    /\ (n <= length (opt_steps (setup script)))%nat
    /\ (m <= length (script_steps script))%nat
    /\ (0 < m -> n = length (opt_steps (setup script)))%nat
    /\ (length (steps result) <= length (all_entries script) + 1)%nat.
Proof.
  intros Hrun.
  destruct (runScript_shape _ _ _ _ _ Hrun)
    as (rs1 & rs2 & err & td & Hsteps & Hact1 & Hact2 & Htd & Herr & Hmain & _).
  pose proof (firstn_length_le _ _ _ _ Hact1) as Hn.
  pose proof (firstn_length_le _ _ _ _ Hact2) as Hm.
  exists (length rs1), (length rs2), (map action err).
  split; [now rewrite Hsteps, !map_app, Hact1, Hact2, Htd|].
  split; [destruct Herr as [->|[e ->]]; auto|].
  split; [exact Hn|]. split; [exact Hm|]. split.
  - intros Hpos. apply Hmain. intros ->. simpl in Hpos. lia.
  - apply (f_equal (@length string)) in Htd. rewrite !length_map in Htd.
    rewrite Hsteps. unfold all_entries. rewrite !length_app, Htd.
    destruct Herr as [->|[e ->]]; simpl; lia.
Qed.

(** X3: a run starts afresh.  Its outcome depends on the variables and on
    the world only, not on what an earlier run left in the other fields; when
    it returns, [isRunning()] is false, [getStepResults()] gives the steps of
    the TestResult, and the TestResult bears the script's name. *)
Theorem runScript_starts_fresh fuel script s :
  (forall s0,
      variables s0 = variables s -> world s0 = world s ->
      runScript fuel script s0 = runScript fuel script s)
  /\ (forall result s',
        runScript fuel script s = Returned result s' ->
        isRunning s' = false
        /\ getStepResults s' = steps result
        /\ name result = script_name script).
Proof.
  split.
  - intros s0 Hv Hw. unfold runScript, now, start_run. simpl. now rewrite Hv, Hw.
  - intros result s' Hrun.
    destruct (runScript_passed _ _ _ _ _ Hrun) as (_ & Hsteps & Hname & Hrunning).
    unfold isRunning, getStepResults. auto.
Qed.

(** ** Variables and assertions *)

Lemma strict_eq_refl v : (forall fields, v <> JObj fields) -> strict_eq v v = true.
Proof.
  destruct v; simpl; intros Hn; auto.
  - apply Bool.eqb_reflx.
  - apply Z.eqb_refl.
  - apply String.eqb_refl.
  - apply String.eqb_refl.
  - now destruct (Hn fields).
Qed.

Lemma strict_eq_undefined v : strict_eq JUndefined v = true <-> v = JUndefined.
Proof. destruct v; simpl; split; congruence. Qed.

(** X4: the assert action reads the variable that [setVariable] (or
    set_variable) wrote under a name that is a string: after a value that is
    not an object is stored, asserting that name against the same value passes;
    a stored string asserted against another string fails with the assertion
    error that names the variable, the stored value and the expected one; a
    name that was never set reads [undefined], so that asserting it passes
    exactly when no expected value is given; and an assert, whether it passes
    or fails, leaves the state as it found it. *)
Theorem assert_reads_what_was_set fuel params key v s :
  prop params "variable" = JStr key ->
  (prop params "expected" = v ->
   (forall fields, v <> JObj fields) ->
   executeAction fuel "assert" params (setVariable key v s)
   = Returned tt (setVariable key v s))
  /\ (forall stored expected,
        v = JStr stored ->
        prop params "expected" = JStr expected ->
        stored <> expected ->
        executeAction fuel "assert" params (setVariable key v s)
        = Thrown ("Error: Assertion failed: " ++ String_ (JStr key)
                  ++ " = " ++ String_ (JStr stored)
                  ++ ", expected " ++ String_ (JStr expected))
                 (setVariable key v s))
  /\ (variables s !! key = None ->
      (executeAction fuel "assert" params s = Returned tt s
       <-> prop params "expected" = JUndefined))
  /\ (forall e s',
        executeAction fuel "assert" params s = Thrown e s' -> s' = s)
  /\ (forall s',
        executeAction fuel "assert" params s = Returned tt s' -> s' = s).
Proof.
  intros Hkey. unfold executeAction. simpl. rewrite Hkey. cbn [as_string].
  split; [|split; [|split; [|split]]].
  - intros Hexp Hprim. rewrite Hexp. unfold variables_get, setVariable. simpl.
    rewrite lookup_insert_eq. now rewrite (strict_eq_refl v Hprim).
  - intros stored expected -> Hexp Hne. rewrite Hexp.
    unfold variables_get, setVariable. simpl. rewrite lookup_insert_eq.
    cbn [strict_eq]. destruct (String.eqb_spec stored expected) as [|_];
      [contradiction|reflexivity].
  - intros Hnone. unfold variables_get. rewrite Hnone.
    rewrite <- strict_eq_undefined.
    destruct (strict_eq JUndefined (prop params "expected")); simpl;
      split; intros Heq; try reflexivity; discriminate.
  - intros e s'. destruct (negb _); unfold throw_Error, throw; congruence.
  - intros s'. destruct (negb _); unfold throw_Error, throw; congruence.
Qed.

(** X5: storing a cvar and asserting it agrees with the cvar_value
    condition: from the same state and for the same answer of the console,
    get_cvar with storeAs followed by assert on that key passes exactly when
    the condition is met, and the console is asked once either way. *)
Theorem get_cvar_then_assert_is_cvar_value fuel name expected key s timeout :
  key <> "" ->
  let c := {| cond_type := "cvar_value";
              cond_params := [("name", name); ("expected", expected)];
              cond_timeout := timeout |} in
  let fetch := executeAction fuel "get_cvar" [("name", name); ("storeAs", JStr key)] in
  let check := executeAction fuel "assert"
                 [("variable", JStr key); ("expected", expected)] in
  match checkCondition c s with
  | Returned met s1 =>
      exists s2,
        fetch s = Returned tt s2
        /\ world s2 = world s1
        /\ (met = true -> check s2 = Returned tt s2)
        /\ (met = false -> exists e, check s2 = Thrown e s2)
  | Thrown e s1 => exists s2, fetch s = Thrown e s2 /\ world s2 = world s1
  | OutOfFuel => False
  end.
Proof.
  intros Hkey c fetch check. unfold checkCondition, fetch, check, executeAction.
  simpl. unfold bind, await.
  destruct (outcome (perform (GetCvar name) (world s))) as [e|cvar].
  - eexists. split; reflexivity.
  - destruct (String.eqb_spec key "") as [|_]; [contradiction|]. simpl.
    eexists. split; [reflexivity|]. split; [reflexivity|].
    unfold variables_get. simpl. rewrite lookup_insert_eq.
    split; intros ->; simpl; eauto.
Qed.

(** X6: the check_pixel action and the pixel_color condition are the same
    test: on the same parameters and from the same state the action returns
    exactly when the condition is met, throws the pixel-mismatch error exactly
    when it is not met, and leaves the same state. *)
Theorem check_pixel_is_pixel_color fuel params timeout s :
  let c := {| cond_type := "pixel_color"; cond_params := params;
              cond_timeout := timeout |} in
  match checkCondition c s with
  | Returned true s1 => executeAction fuel "check_pixel" params s = Returned tt s1
  | Returned false s1 =>
      executeAction fuel "check_pixel" params s
      = Thrown ("Error: Pixel color mismatch at " ++ String_ (prop params "x")
                ++ "," ++ String_ (prop params "y")) s1
  | Thrown e s1 => executeAction fuel "check_pixel" params s = Thrown e s1
  | OutOfFuel => False
  end.
Proof.
  intros c. unfold checkCondition, executeAction. simpl. unfold bind.
  pose proof (total_checkPixelColor (prop params "x") (prop params "y")
                (prop params "expected")
                (js_or (prop params "tolerance") (JNum 10)) s) as Ht.
  destruct (checkPixelColor _ _ _ _ s) as [[|] s1|e s1|]; try reflexivity.
  congruence.
Qed.

(** ** What the waits answer *)

Lemma waitForCondition_loop_true fuel startTime timeout c : forall s s',
  waitForCondition_loop fuel startTime timeout c s = Returned true s' ->
  exists s0, checkCondition c s0 = Returned true s'.
Proof.
  induction fuel as [|fuel IH]; intros s s'; cbn [waitForCondition_loop];
    split_if; try discriminate.
  unfold bind. destruct (checkCondition c s) as [[|] s1|e s1|] eqn:Hc; try discriminate.
  - intros [= <-]. eauto.
  - unfold delay. destruct (setTimeout (JNum 200) (world s1)) as [w called].
    apply IH.
Qed.

(** X7: what [waitForCondition] answers without waiting.  With a positive
    effective timeout, a condition that is met at the first check is answered
    true from that check, with no timer started, and a check that throws
    throws out of the wait; a condition of kind timeout is thus answered true
    at once, in the state the wait started in.  With a negative timeout the
    answer is false and the condition is not checked at all.  An answer of
    true always comes straight from a check that returned true. *)
Theorem waitForCondition_answers fuel c s :
  (forall s1,
      0 < effective_timeout c ->
      checkCondition c s = Returned true s1 ->
      waitForCondition (S fuel) c s = Returned true s1)
  /\ (forall e s1,
        0 < effective_timeout c ->
        checkCondition c s = Thrown e s1 ->
        waitForCondition (S fuel) c s = Thrown e s1)
  /\ (cond_type c = "timeout" ->
      0 < effective_timeout c ->
      waitForCondition (S fuel) c s = Returned true s)
  /\ (cond_timeout c < 0 -> waitForCondition fuel c s = Returned false s)
  /\ (forall s',
        waitForCondition fuel c s = Returned true s' ->
        exists s0, checkCondition c s0 = Returned true s').
Proof.
  assert (forall s1 res,
             0 < effective_timeout c ->
             checkCondition c s = res ->
             (res = Returned true s1 \/ exists e, res = Thrown e s1) ->
             waitForCondition (S fuel) c s = res) as Hfirst.
  { intros s1 res Hpos Hcheck Hres. unfold waitForCondition.
    cbn [waitForCondition_loop].
    replace (now s - now s <? effective_timeout c) with true
      by (symmetry; apply Z.ltb_lt; lia).
    unfold bind. rewrite Hcheck. destruct Hres as [->|[e ->]]; reflexivity. }
  split; [|split; [|split; [|split]]].
  - intros s1 Hpos Hcheck. apply (Hfirst s1); auto.
  - intros e s1 Hpos Hcheck. apply (Hfirst s1); eauto.
  - intros Hkind Hpos.
    assert (checkCondition c s = Returned true s) as Hcheck.
    { unfold checkCondition. now rewrite Hkind. }
    apply (Hfirst s (Returned true s)); auto.
  - intros Hneg. unfold waitForCondition.
    assert (effective_timeout c = cond_timeout c) as ->.
    { unfold effective_timeout. destruct (Z.eqb_spec (cond_timeout c) 0); lia. }
    destruct fuel; cbn [waitForCondition_loop];
      replace (now s - now s <? cond_timeout c) with false
        by (symmetry; apply Z.ltb_ge; lia); reflexivity.
  - intros s'. unfold waitForCondition. apply waitForCondition_loop_true.
Qed.

Lemma waitForPixelColor_loop_answers fuel startTime x y expected timeout tolerance :
  forall s s' met,
    waitForPixelColor_loop fuel startTime x y expected timeout tolerance s
    = Returned met s' ->
    if met
    then exists s0, checkPixelColor x y expected tolerance s0 = Returned true s'
    else forall t, to_number timeout = Some t -> t <= now s' - startTime.
Proof.
  induction fuel as [|fuel IH]; intros s s' met; cbn [waitForPixelColor_loop];
    split_if; try discriminate;
    try (intros [= <- <-]; intros t Ht; rewrite Ht in *; simpl in *;
         apply Z.ltb_ge; assumption).
  unfold bind.
  destruct (checkPixelColor x y expected tolerance s) as [[|] s1|e s1|] eqn:Hc;
    try discriminate.
  - intros [= <- <-]. eauto.
  - unfold delay. destruct (setTimeout (JNum 200) (world s1)) as [w called].
    apply IH.
Qed.

(** X8: what [waitForPixelColor] answers, for a timeout that is a number
    or is left out (30000 then).  True comes straight from a pixel check that
    matched; false comes only once the timeout has elapsed; with a timeout
    of 0 or less the answer is false and the pixel is not sampled at all; and
    when a timer of 200 ms lets 200 ms pass, the loop ends within the polls
    its timeout allows. *)
Theorem waitForPixelColor_answers fuel x y expected timeout tolerance s :
  timeout = JUndefined \/ (exists t, timeout = JNum t) ->
  let limit := match timeout with JNum t => t | _ => 30000 end in
  let run := waitForPixelColor fuel x y expected timeout tolerance s in
  (forall s',
      run = Returned true s' ->
      exists s0,
        checkPixelColor x y expected (default_arg tolerance (JNum 10)) s0
        = Returned true s')
  /\ (forall s', run = Returned false s' -> limit <= now s' - now s)
  /\ (limit <= 0 -> run = Returned false s)
  /\ (TimedWorld W -> (polls limit 200 <= fuel)%nat -> run <> OutOfFuel).
Proof.
  intros Htimeout limit run.
  assert (Hlimit : to_number (default_arg timeout (JNum 30000)) = Some limit).
  { destruct Htimeout as [->|[t ->]]; reflexivity. }
  unfold run, waitForPixelColor. split; [|split; [|split]].
  - intros s' Hrun.
    apply (waitForPixelColor_loop_answers _ _ _ _ _ _ _ _ _ true Hrun).
  - intros s' Hrun.
    apply (waitForPixelColor_loop_answers _ _ _ _ _ _ _ _ _ false Hrun limit Hlimit).
  - intros Hle.
    destruct fuel; cbn [waitForPixelColor_loop]; rewrite Hlimit; simpl;
      replace (now s - now s <? limit) with false
        by (symmetry; apply Z.ltb_ge; lia);
      reflexivity.
  - intros Htimed Hfuel.
    apply (waitForPixelColor_loop_total _ _ _ _ _ _ _ limit Hlimit).
    unfold polls in Hfuel.
    replace (limit - (now s - now s) + 200 - 1) with (limit + 200 - 1) by lia.
    exact Hfuel.
Qed.

Lemma waitForImage_loop_answers fuel startTime templatePath timeout threshold :
  forall s s' res,
    waitForImage_loop fuel startTime templatePath timeout threshold s
    = Returned res s' ->
    (exists s0,
        await (FindImage templatePath JUndefined threshold) s0 = Returned res s'
        /\ found res = true)
    \/ (res = notFound
        /\ forall t, to_number timeout = Some t -> t <= now s' - startTime).
Proof.
  induction fuel as [|fuel IH]; intros s s' res; cbn [waitForImage_loop];
    split_if; try discriminate;
    try (intros [= <- <-]; right; split; [reflexivity|];
         intros t Ht; rewrite Ht in *; simpl in *; apply Z.ltb_ge; assumption).
  unfold bind.
  destruct (await (FindImage templatePath JUndefined threshold) s)
    as [res1 s1|e s1|] eqn:Hc; try discriminate.
  destruct (found res1) eqn:Hfound.
  - intros [= <- <-]. left. eauto.
  - unfold delay. destruct (setTimeout (JNum 500) (world s1)) as [w called].
    apply IH.
Qed.

(** X9: what [waitForImage] answers, for a timeout that is a number or is
    left out (30000 then).  A found image is the answer of the [findImage]
    call that found it, made on the whole screen; every other answer is the
    empty match (not found, at 0,0 with confidence 0), given only once the
    timeout has elapsed; with a timeout of 0 or less no search is made; and
    when a timer of 500 ms lets 500 ms pass, the loop ends within the polls
    its timeout allows. *)
Theorem waitForImage_answers fuel templatePath timeout threshold s :
  timeout = JUndefined \/ (exists t, timeout = JNum t) ->
  let limit := match timeout with JNum t => t | _ => 30000 end in
  let run := waitForImage fuel templatePath timeout threshold s in
  (forall res s',
      run = Returned res s' ->
      (exists s0,
          await (FindImage templatePath JUndefined
                   (default_arg threshold (JDec "0.9"))) s0 = Returned res s'
          /\ found res = true)
      \/ (res = notFound /\ limit <= now s' - now s))
  /\ (limit <= 0 -> run = Returned notFound s)
  /\ (TimedWorld W -> (polls limit 500 <= fuel)%nat -> run <> OutOfFuel).
Proof.
  intros Htimeout limit run.
  assert (Hlimit : to_number (default_arg timeout (JNum 30000)) = Some limit).
  { destruct Htimeout as [->|[t ->]]; reflexivity. }
  unfold run, waitForImage. split; [|split].
  - intros res s' Hrun.
    destruct (waitForImage_loop_answers _ _ _ _ _ _ _ _ Hrun)
      as [Hfound|[Hnone Hlate]]; [left; exact Hfound|].
    right. split; [exact Hnone|]. exact (Hlate limit Hlimit).
  - intros Hle.
    destruct fuel; cbn [waitForImage_loop]; rewrite Hlimit; simpl;
      replace (now s - now s <? limit) with false
        by (symmetry; apply Z.ltb_ge; lia);
      reflexivity.
  - intros Htimed Hfuel.
    apply (waitForImage_loop_total _ _ _ _ _ limit Hlimit).
    unfold polls in Hfuel.
    replace (limit - (now s - now s) + 500 - 1) with (limit + 500 - 1) by lia.
    exact Hfuel.
Qed.

(** ** The built scripts *)

Lemma fold_command_steps commands : forall base,
  fold_left (fun steps cmd => (steps ++ command_steps cmd)%list) commands base
  = (base ++ flat_map command_steps commands)%list.
Proof.
  induction commands as [|cmd rest IH]; intros base; simpl.
  - now rewrite app_nil_r.
  - rewrite IH, <- List.app_assoc. reflexivity.
Qed.

Lemma variables_kept_by_run fuel script s result s' :
  script_written_keys script = [] ->
  runScript fuel script s = Returned result s' ->
  variables s' = variables s.
Proof.
  intros Hnone Hrun. apply map_eq. intros k.
  pose proof (var_kept_runScript fuel script k ltac:(rewrite Hnone; simpl; tauto) s) as Hk.
  now rewrite Hrun in Hk.
Qed.

(** X10: the script [createConsoleTest] builds, for any commands and any
    executable path: its main steps are the three opening steps followed by
    three steps per command, its type steps carry the commands, in their
    order; every action it uses is in the vocabulary; it has no polling loop
    and writes no variable, so that a run of it needs no fuel, returns, and
    leaves the variables map as it found it. *)
Theorem createConsoleTest_well_formed (commands : list string) (execPath : string) :
  let script := createConsoleTest commands execPath in
  length (script_steps script) = (3 + 3 * length commands)%nat
  /\ typed_texts (script_steps script) = map JStr commands
  /\ Forall (fun step => In (step_action step) (map fst vocabulary)) (all_entries script)
  /\ (TimedWorld W ->
      forall fuel s, exists result s',
        runScript fuel script s = Returned result s'
        /\ variables s' = variables s).
Proof.
  intros script.
  assert (script_steps script
          = ([bare "wait" [("ms", JNum 5000)]; bare "toggle_console" [];
              bare "wait" [("ms", JNum 500)]]
             ++ flat_map command_steps commands)%list) as Hsteps.
  { unfold script, createConsoleTest. simpl. apply fold_command_steps. }
  assert (Forall (fun step => In (step_action step) (map fst vocabulary)
                              /\ step_polls step = O /\ written_keys step = [])
                 (flat_map command_steps commands)) as Hcmds.
  { clear. induction commands as [|cmd rest IH]; cbn [flat_map]; [constructor|].
    apply Forall_app. split; [|exact IH].
    unfold command_steps.
    repeat (constructor; [split; [simpl; tauto | split; reflexivity]|]).
    constructor. }
  split; [|split; [|split]].
  - rewrite Hsteps. simpl. f_equal. f_equal. f_equal.
    clear. induction commands as [|cmd rest IH]; simpl; lia.
  - rewrite Hsteps. unfold typed_texts. simpl.
    clear. induction commands as [|cmd rest IH]; simpl; congruence.
  - unfold all_entries. rewrite Hsteps.
    apply Forall_app.
    split; [repeat (constructor; [simpl; tauto|]); constructor|].
    apply Forall_app.
    split; [|repeat (constructor; [simpl; tauto|]); constructor].
    apply Forall_app.
    split; [repeat (constructor; [simpl; tauto|]); constructor|].
    eapply Forall_impl; [exact Hcmds|]. intros step (Hin & _). exact Hin.
  - intros Htimed fuel s.
    assert (script_polls script = O) as Hpolls.
    { unfold script_polls. rewrite Hsteps. simpl.
      clear -Hcmds. induction Hcmds as [|step l (_ & Hp & _) _ IH]; simpl; [reflexivity|].
      rewrite Hp. exact IH. }
    assert (script_written_keys script = []) as Hkeys.
    { unfold script_written_keys. rewrite Hsteps. simpl.
      rewrite flat_map_app. simpl. rewrite app_nil_r.
      clear -Hcmds. induction Hcmds as [|step l (_ & _ & Hk) _ IH]; simpl; [reflexivity|].
      rewrite Hk. exact IH. }
    destruct (runScript_returns fuel script s ltac:(rewrite Hpolls; lia))
      as (s1 & s2 & td & _ & _ & _ & _ & Hrun).
    eexists _, _. split; [exact Hrun|].
    eapply variables_kept_by_run; eauto.
Qed.

(** X11: the script [createMapLoadTest] builds, for any map name and any
    executable path: it launches in setup, types the map command for the
    given map among its steps, and quits in teardown; every action it uses is
    in the vocabulary; it writes no variable; its one polling loop is the
    30000 ms wait for the launch, so that with fuel for 150 polls a run of it
    returns and leaves the variables map as it found it. *)
Theorem createMapLoadTest_well_formed (mapName execPath : string) :
  let script := createMapLoadTest mapName execPath in
  map step_action (opt_steps (setup script)) = ["launch"]
  /\ typed_texts (script_steps script) = [JStr ("map " ++ mapName)]
  /\ (exists rest,
        opt_steps (teardown script) = bare "command" [("command", JStr "quit")] :: rest)
  /\ Forall (fun step => In (step_action step) (map fst vocabulary)) (all_entries script)
  /\ script_polls script = 150%nat
  /\ (TimedWorld W ->
      forall fuel s,
        (150 <= fuel)%nat ->
        exists result s',
          runScript fuel script s = Returned result s'
          /\ variables s' = variables s).
Proof.
  intros script.
  assert (script_polls script = 150%nat) as Hpolls by reflexivity.
  split; [reflexivity|]. split; [reflexivity|]. split; [eexists; reflexivity|].
  split; [|split; [exact Hpolls|]].
  - unfold all_entries. simpl. repeat (constructor; [simpl; tauto|]). constructor.
  - intros Htimed fuel s Hfuel.
    destruct (runScript_returns fuel script s ltac:(rewrite Hpolls; exact Hfuel))
      as (s1 & s2 & td & _ & _ & _ & _ & Hrun).
    eexists _, _. split; [exact Hrun|].
    eapply variables_kept_by_run; eauto. reflexivity.
Qed.

(** ** getPixels *)

Lemma getPixels_loop_dom positions : forall results s,
  match getPixels_loop positions results s with
  | Returned out s' =>
      dom out = dom results ∪ list_to_set (map position_key positions)
      /\ (positions = [] -> out = results /\ s' = s)
  | Thrown _ _ => positions <> []
  | OutOfFuel => False
  end.
Proof.
  induction positions as [|pos rest IH]; intros results s; simpl.
  - split; [set_solver | auto].
  - unfold bind.
    pose proof (total_await (GetPixelColor (JNum (fst pos)) (JNum (snd pos))) s) as Ht.
    destruct (await _ s) as [color s1|e s1|]; [|discriminate|congruence].
    specialize (IH (<[position_key pos := color]> results) s1).
    destruct (getPixels_loop rest _ s1) as [out s2|e s2|]; [|discriminate|exact IH].
    destruct IH as [Hdom _]. split; [|discriminate].
    rewrite Hdom, dom_insert_L. set_solver.
Qed.

(** X12: [getPixels] answers with one entry for every requested position,
    under the key made of its coordinates, and with no other entry; a
    position that could not be sampled has a [null] entry, not a missing one;
    for no positions it answers the empty map and touches nothing. *)
Theorem getPixels_has_every_position (positions : list (Z * Z)) s :
  match getPixels positions s with
  | Returned out s' =>
      (forall key, is_Some (out !! key) <-> In key (map position_key positions))
      /\ (positions = [] -> out = ∅ /\ s' = s)
  | Thrown _ _ => positions <> []
  | OutOfFuel => False
  end.
Proof.
  unfold getPixels. pose proof (getPixels_loop_dom positions ∅ s) as Hloop.
  destruct (getPixels_loop positions ∅ s) as [out s'|e s'|]; auto.
  destruct Hloop as [Hdom Hnone]. split; [|exact Hnone].
  intros key. rewrite <- elem_of_dom, Hdom, dom_empty_L.
  rewrite elem_of_union, elem_of_list_to_set, list_elem_of_In. set_solver.
Qed.

End Runs.

(** * The launcher's arguments and console buffer *)

Section LauncherProperties.

Import Launcher.

#[local] Open Scope list_scope.

Variable blank : string -> bool.
Variable clock : nat -> Z.
Variable compiles : string -> bool.
Variable test : string -> string -> bool.
Variable syntax_error : string -> string.

Lemma slice_from_suffix {A} (start : Z) (l : list A) :
  exists older, l = older ++ slice_from start l.
Proof.
  unfold slice_from. destruct (start <? 0).
  - eexists. symmetry. apply firstn_skipn.
  - eexists. symmetry. apply firstn_skipn.
Qed.

Lemma slice_from_last {A} (n : Z) (l : list A) :
  0 < n -> length (slice_from (- n) l) = Nat.min (Z.to_nat n) (length l).
Proof.
  intros Hn. unfold slice_from.
  destruct (Z.ltb_spec (- n) 0) as [_|Hge]; [|lia].
  rewrite length_skipn. lia.
Qed.

Lemma slice_from_drop {A} (n : Z) (l : list A) :
  n < 0 -> slice_from (- n) l = skipn (Z.to_nat (- n)) l.
Proof.
  intros Hn. unfold slice_from.
  destruct (Z.ltb_spec (- n) 0) as [Hlt|_]; [lia|reflexivity].
Qed.

Lemma push_output_cases (output : ConsoleOutput) (buffer : list ConsoleOutput) :
  Z.of_nat (length buffer) < 10000 /\ push_output output buffer = buffer ++ [output]
  \/ 10000 <= Z.of_nat (length buffer)
     /\ push_output output buffer
        = skipn (length buffer - Z.to_nat 4999) buffer ++ [output].
Proof.
  assert (Hhalf : - maxBufferLines / 2 = -5000) by reflexivity.
  unfold push_output. rewrite Hhalf, length_app. cbn [length].
  destruct (Z.ltb_spec maxBufferLines (Z.of_nat (length buffer + 1))) as [Hlt|Hge];
    unfold maxBufferLines in *.
  - right. split; [lia|].
    unfold slice_from.
    destruct (Z.ltb_spec (-5000) 0) as [_|Hn]; [|lia].
    rewrite length_app. cbn [length].
    replace (Z.to_nat (Z.max (Z.of_nat (length buffer + 1) + -5000) 0))
      with (length buffer - Z.to_nat 4999)%nat by lia.
    rewrite skipn_app.
    replace (length buffer - Z.to_nat 4999 - length buffer)%nat with 0%nat by lia.
    reflexivity.
  - left. split; [lia|reflexivity].
Qed.

Lemma handleLines_buffer (kind : Stream) (lines : list string) :
  forall (k : nat) (buffer : list ConsoleOutput),
    Z.of_nat (length buffer) <= 10000 ->
    let result := handleLines clock kind k lines buffer in
    Z.of_nat (length (fst result)) <= 10000
    /\ map text (outputs (snd result)) = lines
    /\ Forall (fun output => type output = kind) (outputs (snd result))
    /\ (exists dropped,
          buffer ++ outputs (snd result) = dropped ++ fst result
          /\ (Z.of_nat (length buffer + length lines) <= 10000 -> dropped = [])).
Proof.
  assert (Hquiet : forall line, outputs (detectEvents line) = []).
  { intros line. unfold detectEvents.
    repeat match goal with
           | |- context [if ?g then _ else _] => destruct g
           end; reflexivity. }
  assert (Hcons : forall output line events,
             outputs (Output output :: detectEvents line ++ events)
             = output :: outputs events).
  { intros output line events. unfold outputs at 1. cbn [flat_map].
    rewrite flat_map_app. fold (outputs (detectEvents line)). rewrite Hquiet.
    reflexivity. }
  induction lines as [|line rest IH]; intros k buffer Hlen; cbn [handleLines].
  - cbn. split; [exact Hlen|]. split; [reflexivity|]. split; [constructor|].
    exists []. split; [rewrite app_nil_r; reflexivity|reflexivity].
  - set (output := {| timestamp := clock k; text := line; type := kind |}).
    assert (Hpushed : Z.of_nat (length (push_output output buffer)) <= 10000).
    { destruct (push_output_cases output buffer) as [[Hlt ->]|[Hge ->]];
        rewrite length_app; [cbn [length]; lia|].
      rewrite length_skipn. cbn [length]. lia. }
    specialize (IH (S k) (push_output output buffer) Hpushed).
    destruct (handleLines clock kind (S k) rest (push_output output buffer))
      as [buffer' events] eqn:Hrest.
    cbn [fst snd] in *. rewrite Hcons.
    destruct IH as (Hbound & Htexts & Hkinds & dropped & Hsplit & Hnone).
    split; [exact Hbound|].
    split; [cbn [map]; rewrite Htexts; reflexivity|].
    split; [constructor; [reflexivity|exact Hkinds]|].
    destruct (push_output_cases output buffer) as [[Hlt Hpush]|[Hge Hpush]].
    + exists dropped. split.
      * rewrite <- Hsplit, Hpush. rewrite <- List.app_assoc. reflexivity.
      * intros Hroom. apply Hnone. rewrite Hpush, length_app.
        cbn [length] in *. lia.
    + exists (firstn (length buffer - Z.to_nat 4999) buffer ++ dropped). split.
      * rewrite <- List.app_assoc, <- Hsplit, Hpush.
        rewrite <- (firstn_skipn (length buffer - Z.to_nat 4999) buffer) at 1.
        repeat rewrite <- List.app_assoc. reflexivity.
      * cbn [length]. lia.
Qed.

(** X13 (buildArguments): the arguments the game is launched with are
    the caller's own arguments, unchanged and first, followed only by
    [+set name value] triples; the console is enabled unless the
    configuration says [false], cheats and windowed mode are set only on
    [true], the game directory only when it is not empty, and a resolution
    always brings the custom mode with it. *)
Theorem buildArguments_appends_settings (config : GameConfig) :
  exists settings : list (string * string),
    buildArguments config
    = match arguments config with Some l => l | None => [] end
      ++ flat_map (fun setting => ["+set"; fst setting; snd setting]) settings
    /\ (In ("con_enable", "1") settings <-> enableConsole config <> Some false)
    /\ (In ("sv_cheats", "1") settings <-> enableCheats config = Some true)
    /\ (In ("r_fullscreen", "0") settings <-> windowedMode config = Some true)
    /\ (forall dir, In ("fs_game", dir) settings
                    <-> gameDirectory config = Some dir /\ dir <> "")
    /\ (In ("r_mode", "-1") settings <-> resolution config <> None)
    /\ (forall width height,
          resolution config = Some (width, height) ->
          In ("r_customwidth", pretty width) settings
          /\ In ("r_customheight", pretty height) settings).
Proof.
  clear blank clock compiles test syntax_error.
  exists ((match gameDirectory config with
           | Some dir => if String.eqb dir "" then [] else [("fs_game", dir)]
           | None => []
           end)
          ++ (match enableConsole config with
              | Some false => []
              | _ => [("con_enable", "1")]
              end)
          ++ (if flag (enableCheats config) then [("sv_cheats", "1")] else [])
          ++ (if flag (windowedMode config) then [("r_fullscreen", "0")] else [])
          ++ (match resolution config with
              | Some (width, height) =>
                  [("r_customwidth", pretty width);
                   ("r_customheight", pretty height);
                   ("r_mode", "-1")]
              | None => []
              end)).
  unfold buildArguments.
  destruct config as [exe user dir con cheats windowed res]. cbn [arguments
    gameDirectory enableConsole enableCheats windowedMode resolution].
  set (base := match user with Some l => l | None => [] end).
  split.
  { repeat rewrite flat_map_app.
    destruct dir as [dir|]; [destruct (String.eqb dir "")|];
      destruct con as [[|]|]; destruct cheats as [[|]|];
      destruct windowed as [[|]|]; destruct res as [[width height]|];
      cbn [flag flat_map fst snd app];
      repeat rewrite <- List.app_assoc; repeat rewrite app_nil_r;
      reflexivity. }
  split; [|split; [|split; [|split; [|split]]]].
  1-3, 5: destruct dir as [dir|]; [destruct (String.eqb_spec dir "")|];
    destruct con as [[|]|]; destruct cheats as [[|]|];
    destruct windowed as [[|]|]; destruct res as [[width height]|];
    cbn [flag In app];
    (split;
     [ intros Hin; repeat (destruct Hin as [Hin|Hin]);
       try contradiction; congruence
     | intros Hout; try congruence;
       repeat (first [left; congruence | right]) ]).
  - intros wanted.
    destruct dir as [dir|]; [destruct (String.eqb_spec dir "")|];
      destruct con as [[|]|]; destruct cheats as [[|]|];
      destruct windowed as [[|]|]; destruct res as [[width height]|];
      cbn [flag In app];
      (split;
       [ intros Hin; repeat (destruct Hin as [Hin|Hin]);
         try contradiction; try congruence; split; congruence
       | intros (Hsome & Hfull); try congruence;
         repeat (first [left; congruence | right]) ]).
  - intros width height Hres. subst res. repeat rewrite in_app_iff.
    cbn [In]. tauto.
Qed.

(** X14 (handleOutput): a chunk of output adds one buffer entry per line
    that is not blank, in order and stamped with the stream it came from, and
    the listeners of [output] get exactly these entries; a buffer of at most
    10000 lines stays at most 10000 lines long, what is in it afterwards
    is the end of the old buffer followed by the new lines, and nothing is
    dropped while everything fits. *)
Theorem handleOutput_fills_a_bounded_buffer (chunk : string) (kind : Stream)
    (buffer : list ConsoleOutput) :
  Z.of_nat (length buffer) <= 10000 ->
  let result := handleOutput blank clock chunk kind buffer in
  let lines := List.filter (fun line => negb (blank line)) (split_lines chunk) in
  Z.of_nat (length (fst result)) <= 10000
  /\ map text (outputs (snd result)) = lines
  /\ Forall (fun output => type output = kind) (outputs (snd result))
  /\ (exists dropped,
        buffer ++ outputs (snd result) = dropped ++ fst result
        /\ (Z.of_nat (length buffer + length lines) <= 10000 -> dropped = [])).
Proof.
  intros Hlen. unfold handleOutput. apply handleLines_buffer. exact Hlen.
Qed.

(** X15 (handleOutput, the trim): the line that arrives when the buffer
    holds 10000 lines leaves 5000 in it, the newest 4999 of the old ones
    and the new line; below 10000 the line is appended and nothing is
    dropped. *)
Theorem push_output_halves_a_full_buffer (output : ConsoleOutput)
    (buffer : list ConsoleOutput) :
  (Z.of_nat (length buffer) < 10000 ->
   push_output output buffer = buffer ++ [output])
  /\ (Z.of_nat (length buffer) = 10000 ->
      push_output output buffer = skipn (Z.to_nat 5001) buffer ++ [output]
      /\ Z.of_nat (length (push_output output buffer)) = 5000).
Proof.
  split.
  - intros Hlt. destruct (push_output_cases output buffer) as [[_ Hpush]|[Hge _]];
      [exact Hpush|lia].
  - intros Hfull. destruct (push_output_cases output buffer) as [[Hlt _]|[_ Hpush]];
      [lia|].
    rewrite Hpush.
    replace (length buffer - Z.to_nat 4999)%nat with (Z.to_nat 5001) by lia.
    split; [reflexivity|].
    rewrite length_app, length_skipn. cbn [length]. lia.
Qed.

(** X16 (searchConsole, getConsoleBuffer): a search with a pattern that
    compiles returns, in buffer order, exactly the lines of the window
    [getConsoleBuffer] gives for the same limit whose text the pattern
    matches.  The window is the end of the buffer: all of it without a
    limit or with limit 0, the last [n] lines for a positive limit [n],
    and for a negative limit everything but the first [-n] lines.  A
    pattern that does not compile gives the syntax error and no list. *)
Theorem searchConsole_searches_the_window (pattern : string) (limit : option Z)
    (buffer : list ConsoleOutput) :
  let window := getConsoleBuffer limit buffer in
  (compiles pattern = true ->
   searchConsole compiles test syntax_error pattern limit buffer
   = inr (List.filter (fun entry => test pattern (text entry)) window))
  /\ (compiles pattern = false ->
      searchConsole compiles test syntax_error pattern limit buffer
      = inl (syntax_error pattern))
  /\ (exists older, buffer = older ++ window)
  /\ (limit = None \/ limit = Some 0 -> window = buffer)
  /\ (forall n, limit = Some n -> 0 < n ->
                length window = Nat.min (Z.to_nat n) (length buffer))
  /\ (forall n, limit = Some n -> n < 0 ->
                window = skipn (Z.to_nat (- n)) buffer).
Proof.
  cbn zeta. unfold searchConsole, getConsoleBuffer.
  split; [intros ->; reflexivity|].
  split; [intros ->; reflexivity|].
  split.
  { destruct limit as [n|]; [destruct (n =? 0)|].
    - exists []. reflexivity.
    - apply slice_from_suffix.
    - exists []. reflexivity. }
  split.
  { intros [->| ->]; reflexivity. }
  split.
  - intros n -> Hn. destruct (Z.eqb_spec n 0) as [Hz|_]; [lia|].
    apply slice_from_last. exact Hn.
  - intros n -> Hn. destruct (Z.eqb_spec n 0) as [Hz|_]; [lia|].
    apply slice_from_drop. exact Hn.
Qed.

(** X21 (toggleConsole, openConsole, closeConsole): opening an open
    console and closing a closed one do nothing, so that both are
    idempotent; after [openConsole] the console counts as open and after
    [closeConsole] as closed; each sends the console key at most once, and
    [toggleConsole] sends it always, two toggles restoring the flag. *)
Theorem console_open_close (c : Console.T) :
  Console.openConsole (Console.openConsole c) = Console.openConsole c
  /\ Console.closeConsole (Console.closeConsole c) = Console.closeConsole c
  /\ Console.consoleOpen (Console.openConsole c) = true
  /\ Console.consoleOpen (Console.closeConsole c) = false
  /\ Console.keys (Console.openConsole c)
     = Console.keys c ++ (if Console.consoleOpen c then [] else [Console.consoleKey])
  /\ Console.keys (Console.closeConsole c)
     = Console.keys c ++ (if Console.consoleOpen c then [Console.consoleKey] else [])
  /\ Console.consoleOpen (Console.toggleConsole (Console.toggleConsole c))
     = Console.consoleOpen c
  /\ Console.keys (Console.toggleConsole (Console.toggleConsole c))
     = Console.keys c ++ [Console.consoleKey; Console.consoleKey].
Proof.
  destruct c as [[|] sent];
    unfold Console.openConsole, Console.closeConsole, Console.toggleConsole;
    cbn [Console.consoleOpen Console.keys negb];
    repeat rewrite app_nil_r; repeat rewrite <- List.app_assoc;
    repeat split; reflexivity.
Qed.

(** X22 (getRecentOutput): the recent output is the end of the console
    buffer: the last 100 lines when no count is given, the last [n] for a
    positive count [n], and the whole buffer, not nothing, for a count
    of 0. *)
Theorem getRecentOutput_is_the_end (lines : option Z)
    (buffer : list ConsoleOutput) :
  (exists older, buffer = older ++ Console.getRecentOutput lines buffer)
  /\ length (Console.getRecentOutput None buffer) = Nat.min 100 (length buffer)
  /\ (forall n, 0 < n ->
        length (Console.getRecentOutput (Some n) buffer)
        = Nat.min (Z.to_nat n) (length buffer))
  /\ Console.getRecentOutput (Some 0) buffer = buffer.
Proof.
  unfold Console.getRecentOutput, getConsoleBuffer.
  split; [|split; [|split]].
  - destruct (_ =? 0); [exists []; reflexivity|apply slice_from_suffix].
  - cbn [Z.eqb]. rewrite (slice_from_last 100 buffer) by lia. reflexivity.
  - intros n Hn. destruct (Z.eqb_spec n 0) as [Hz|_]; [lia|].
    apply slice_from_last. exact Hn.
  - reflexivity.
Qed.


End LauncherProperties.

(** * The validator's diagnostics *)

Section ValidatorProperties.

Import Validator.

#[local] Open Scope list_scope.

Variable trim : string -> string.
Variable loc_match : string -> option (string * string * string).
Variable parseInt : string -> Z.
Variable strip_script_prefix : string -> string.
Variable strip_parse_prefix : string -> string.
Variable simple_match : string -> option string.
Variable existsSync : string -> bool.
Variable dirname : string -> string.
Variable basename : string -> string.
Variable spawn : string -> list string -> Exit.

#[local] Set Warnings "-notation-for-abbreviation".

Notation is_location' := (is_location trim loc_match).
Notation is_simple_error' := (is_simple_error trim simple_match).
Notation parse_line' :=
  (parse_line trim loc_match parseInt strip_script_prefix strip_parse_prefix simple_match).
Notation parse_output' :=
  (parse_output trim loc_match parseInt strip_script_prefix strip_parse_prefix simple_match).
Notation message_line' := (message_line trim strip_script_prefix strip_parse_prefix).
Notation simple_error_line' := (simple_error_line simple_match).
Notation runValidation' :=
  (runValidation trim loc_match parseInt strip_script_prefix strip_parse_prefix
     simple_match spawn).
Notation validateFile' :=
  (validateFile trim loc_match parseInt strip_script_prefix strip_parse_prefix
     simple_match existsSync dirname basename spawn).

Lemma endsWith_refl (s : string) : endsWith s s = true.
Proof. destruct s; cbn [endsWith]; rewrite String.eqb_refl; reflexivity. Qed.

Lemma endsWith_cons (ch : ascii) (s suffix : string) :
  endsWith s suffix = true -> endsWith (String ch s) suffix = true.
Proof. intros Hs. cbn [endsWith]. rewrite Hs. apply orb_true_r. Qed.

Lemma endsWith_append (before s : string) : endsWith (before ++ s)%string s = true.
Proof.
  induction before as [|ch before IH]; cbn [String.append].
  - apply endsWith_refl.
  - apply endsWith_cons, IH.
Qed.

Lemma strip_tmp_cases (s : string) :
  strip_tmp s = s \/ s = (".tmp_" ++ strip_tmp s)%string.
Proof.
  destruct s as [|c1 [|c2 [|c3 [|c4 [|c5 rest]]]]].
  - left. reflexivity.
  - left. destruct c1 as [[] [] [] [] [] [] [] []]; reflexivity.
  - left. destruct c1 as [[] [] [] [] [] [] [] []]; try reflexivity;
      destruct c2 as [[] [] [] [] [] [] [] []]; reflexivity.
  - left. destruct c1 as [[] [] [] [] [] [] [] []]; try reflexivity;
      destruct c2 as [[] [] [] [] [] [] [] []]; try reflexivity;
      destruct c3 as [[] [] [] [] [] [] [] []]; reflexivity.
  - left. destruct c1 as [[] [] [] [] [] [] [] []]; try reflexivity;
      destruct c2 as [[] [] [] [] [] [] [] []]; try reflexivity;
      destruct c3 as [[] [] [] [] [] [] [] []]; try reflexivity;
      destruct c4 as [[] [] [] [] [] [] [] []]; reflexivity.
  - destruct c1 as [[] [] [] [] [] [] [] []]; try (left; reflexivity);
      destruct c2 as [[] [] [] [] [] [] [] []]; try (left; reflexivity);
      destruct c3 as [[] [] [] [] [] [] [] []]; try (left; reflexivity);
      destruct c4 as [[] [] [] [] [] [] [] []]; try (left; reflexivity);
      destruct c5 as [[] [] [] [] [] [] [] []]; try (left; reflexivity).
    right. reflexivity.
Qed.

Lemma fold_left_invariant {A B} (f : A -> B -> A) (P : A -> Prop) (l : list B) :
  (forall a b, In b l -> P a -> P (f a b)) ->
  forall a, P a -> P (fold_left f l a).
Proof.
  induction l as [|b l IH]; intros Hstep a Ha; cbn [fold_left]; [exact Ha|].
  apply IH.
  - intros a' b' Hin. apply Hstep. right. exact Hin.
  - apply Hstep; [left; reflexivity|exact Ha].
Qed.

Lemma message_line_diagnostics (P : ScriptDiagnostic -> Prop)
    (originalFileName line : string) (st : Cursor * list ScriptDiagnostic) :
  (forall sev text,
      currentSeverity (fst st) = Some sev ->
      P {| severity := sev; line := currentLine (fst st); column := 0;
           message := text; file := originalFileName |}) ->
  Forall P (snd st) ->
  Forall P (snd (message_line' originalFileName line st)).
Proof.
  intros Hnew Hold. unfold message_line. destruct st as [cursor diagnostics].
  cbn [fst snd] in *.
  destruct (Launcher.includes line marker); [|exact Hold].
  destruct (second_part line) as [part|]; [|exact Hold].
  destruct (currentSeverity cursor) as [sev|] eqn:Hsev; [|exact Hold].
  cbn [snd]. destruct (file_matches (currentFile cursor) originalFileName);
    [|exact Hold].
  apply Forall_app. split; [exact Hold|].
  constructor; [|constructor]. apply Hnew. reflexivity.
Qed.

Lemma message_line_cursor (originalFileName line : string)
    (st : Cursor * list ScriptDiagnostic) :
  currentSeverity (fst (message_line' originalFileName line st)) = None
  \/ fst (message_line' originalFileName line st) = fst st.
Proof.
  unfold message_line. destruct st as [cursor diagnostics].
  destruct (Launcher.includes line marker); [|right; reflexivity].
  destruct (second_part line) as [part|]; [|right; reflexivity].
  destruct (currentSeverity cursor) as [sev|] eqn:Hsev; [|right; reflexivity].
  left. reflexivity.
Qed.

Lemma simple_error_line_diagnostics (P : ScriptDiagnostic -> Prop)
    (originalFileName line : string) (st : Cursor * list ScriptDiagnostic) :
  (forall text,
      simple_match line = Some text ->
      P {| severity := error; line := 0; column := 0; message := text;
           file := originalFileName |}) ->
  Forall P (snd st) ->
  Forall P (snd (simple_error_line' originalFileName line st)).
Proof.
  intros Hnew Hold. unfold simple_error_line.
  destruct (simple_match line) as [text|]; [|exact Hold].
  cbn [snd]. apply Forall_app. split; [exact Hold|].
  constructor; [|constructor]. apply Hnew. reflexivity.
Qed.

Lemma parse_line_count (originalFileName raw : string)
    (st : Cursor * list ScriptDiagnostic) :
  let st' := parse_line' originalFileName st raw in
  (length (snd st') + pending (fst st')
   <= length (snd st) + pending (fst st)
      + (if is_location' raw then 1 else 0)
      + (if is_simple_error' raw then 1 else 0))%nat.
Proof.
  cbn zeta. unfold parse_line, is_location, is_simple_error.
  destruct (loc_match (trim raw)) as [[[type name] number]|].
  - cbn [fst snd pending currentSeverity]. unfold pending.
    destruct (currentSeverity (fst st)); destruct (simple_match (trim raw)); lia.
  - unfold simple_error_line, message_line. destruct st as [cursor diagnostics].
    cbn [fst snd].
    destruct (Launcher.includes (trim raw) marker);
      [destruct (second_part (trim raw)) as [part|];
       [destruct (currentSeverity cursor) as [sev|] eqn:Hsev;
        [destruct (file_matches (currentFile cursor) originalFileName)|]|]|];
      destruct (simple_match (trim raw)) as [text|];
      cbn [fst snd]; unfold pending; cbn [currentSeverity];
      repeat rewrite length_app; cbn [length]; try rewrite Hsev; lia.
Qed.

Lemma parse_lines_count (originalFileName : string) (lines : list string) :
  forall st : Cursor * list ScriptDiagnostic,
    let st' := fold_left (parse_line' originalFileName) lines st in
    (length (snd st') + pending (fst st')
     <= length (snd st) + pending (fst st)
        + length (List.filter is_location' lines)
        + length (List.filter is_simple_error' lines))%nat.
Proof.
  induction lines as [|raw rest IH]; intros st; cbn [fold_left List.filter].
  - cbn [length]. lia.
  - specialize (IH (parse_line' originalFileName st raw)). cbn zeta in IH.
    pose proof (parse_line_count originalFileName raw st) as Hone.
    cbn zeta in Hone.
    destruct (is_location' raw); destruct (is_simple_error' raw);
      cbn [length] in *; lia.
Qed.

(** X17 (runValidation, the file test): of the three alternatives that
    decide whether a diagnostic belongs to the validated file, the first two
    add nothing: a diagnostic is kept exactly when the reported file name
    ends with the requested name.  So the temporary copy [.tmp_name] counts
    as [name], and so does any other file whose name ends with it. *)
Theorem file_matches_is_endsWith (currentFile originalFileName : string) :
  file_matches currentFile originalFileName = endsWith currentFile originalFileName
  /\ file_matches (".tmp_" ++ originalFileName)%string originalFileName = true
  /\ (forall before,
         file_matches (before ++ originalFileName)%string originalFileName = true).
Proof.
  assert (Hsame : forall current original,
             file_matches current original = endsWith current original).
  { intros current original. unfold file_matches.
    destruct (endsWith current original) eqn:Hends; [apply orb_true_r|].
    rewrite orb_false_r.
    destruct (String.eqb_spec current original) as [->|Hne].
    { rewrite endsWith_refl in Hends. discriminate. }
    rewrite orb_false_r.
    destruct (String.eqb_spec (strip_tmp current) original) as [Hstrip|_];
      [|reflexivity].
    destruct (strip_tmp_cases current) as [Hkept|Hcut].
    - congruence.
    - rewrite Hcut, Hstrip, endsWith_append in Hends. discriminate. }
  split; [apply Hsame|]. split.
  - rewrite Hsame. apply endsWith_append.
  - intros before. rewrite Hsame. apply endsWith_append.
Qed.

Lemma no_error_filtered (l : list ScriptDiagnostic) :
  (length (List.filter is_error l) =? 0)%nat = negb (existsb is_error l).
Proof.
  induction l as [|d l IH]; [reflexivity|]. cbn [List.filter existsb].
  destruct (is_error d); [reflexivity|exact IH].
Qed.

Lemma parse_output_files (originalFileName output : string) :
  Forall (fun d => file d = originalFileName /\ column d = 0)
         (parse_output' originalFileName output).
Proof.
  unfold parse_output.
  apply (fold_left_invariant (parse_line' originalFileName)
           (fun st => Forall (fun d => file d = originalFileName /\ column d = 0)
                        (snd st))); [|constructor].
  intros st raw _ Hst. unfold parse_line.
  destruct (loc_match (trim raw)) as [[[type name] number]|]; [exact Hst|].
  apply simple_error_line_diagnostics; [intros; split; reflexivity|].
  apply message_line_diagnostics; [intros; split; reflexivity|exact Hst].
Qed.

(** X18 (runValidation): however the process ends, every diagnostic of
    the result names the requested file and column 0, an error diagnostic
    is present exactly when the result is not a success, and the duration is
    the difference of the two clock reads.  When the process closes, the raw
    output is what it printed and there are at most as many diagnostics as
    the output has location lines and simple error lines together. *)
Theorem runValidation_diagnostics (mfuse : string) (args : list string)
    (originalFileName : string) (startTime endTime : Z) :
  let result := runValidation' mfuse args originalFileName startTime endTime in
  Forall (fun d => file d = originalFileName /\ column d = 0) (diagnostics result)
  /\ success result = negb (existsb is_error (diagnostics result))
  /\ duration result = endTime - startTime
  /\ (forall output,
         spawn mfuse args = Closed output ->
         rawOutput result = output
         /\ (length (diagnostics result)
             <= length (List.filter is_location' (Launcher.split_lines output))
                + length (List.filter is_simple_error' (Launcher.split_lines output)))%nat)
  /\ (forall text,
         spawn mfuse args = Errored text ->
         success result = false /\ length (diagnostics result) = 1%nat).
Proof.
  cbn zeta. unfold runValidation.
  destruct (spawn mfuse args) as [output|text].
  - cbn [diagnostics success duration rawOutput].
    split; [apply parse_output_files|].
    split; [apply no_error_filtered|]. split; [reflexivity|]. split.
    + intros output' Hout. assert (output' = output) by congruence. subst output'.
      split; [reflexivity|].
      pose proof (parse_lines_count originalFileName (Launcher.split_lines output)
                    (start_cursor, [])) as Hcount.
      cbn zeta in Hcount.
      cbn [fst snd length pending start_cursor currentSeverity] in Hcount.
      unfold parse_output. lia.
    + intros text Hbad. discriminate.
  - unfold failed. cbn [diagnostics success duration rawOutput].
    split; [constructor; [split; reflexivity|constructor]|].
    split; [reflexivity|]. split; [reflexivity|]. split.
    + intros output Hout. discriminate.
    + intros text' _. split; reflexivity.
Qed.

(** X19 (runValidation): warnings alone do not fail a validation.  When
    the process closes and no line of its output is a location line with
    the letter E or a simple error line, the result is a success and
    every diagnostic is a warning. *)
Theorem warnings_do_not_fail (mfuse : string) (args : list string)
    (originalFileName output : string) (startTime endTime : Z) :
  spawn mfuse args = Closed output ->
  (forall raw, In raw (Launcher.split_lines output) ->
     simple_match (trim raw) = None
     /\ forall type name number,
          loc_match (trim raw) = Some (type, name, number) -> type <> "E") ->
  let result := runValidation' mfuse args originalFileName startTime endTime in
  success result = true
  /\ Forall (fun d => severity d = warning) (diagnostics result).
Proof.
  intros Hout Hlines. cbn zeta. unfold runValidation. rewrite Hout.
  cbn [success diagnostics].
  assert (Hwarn : Forall (fun d => severity d = warning)
                    (parse_output' originalFileName output)).
  { unfold parse_output.
    apply (fold_left_invariant (parse_line' originalFileName)
             (fun st => currentSeverity (fst st) <> Some error
                        /\ Forall (fun d => severity d = warning) (snd st))).
    - intros st raw Hin (Hcur & Hst). destruct (Hlines raw Hin) as (Hsimple & Hloc).
      unfold parse_line.
      destruct (loc_match (trim raw)) as [[[type name] number]|] eqn:Hmatch.
      + cbn [fst snd currentSeverity]. split; [|exact Hst].
        destruct (String.eqb_spec type "E") as [->|_]; [|discriminate].
        exfalso. exact (Hloc "E" name number eq_refl eq_refl).
      + unfold simple_error_line. rewrite Hsimple. split.
        * destruct (message_line_cursor originalFileName (trim raw) st)
            as [Hnone|Hsame]; [rewrite Hnone; discriminate|].
          rewrite Hsame. exact Hcur.
        * apply message_line_diagnostics; [|exact Hst].
          intros sev text Hsev. cbn [severity].
          destruct sev; [congruence|reflexivity].
    - split; [discriminate|constructor]. }
  split; [|exact Hwarn].
  induction Hwarn as [|d l Hd _ IH]; [reflexivity|].
  cbn [List.filter]. unfold is_error at 1. rewrite Hd. exact IH.
Qed.

(** X20 (validateFile): a validation succeeds only after [mfuse_exec]
    was found, the script exists, and the process, started with [-d] the
    script's directory, [-s] its base name and the commands list only when
    that is configured and exists, closed with an output that yields no
    error diagnostic.  A validation that does not succeed always carries an
    error diagnostic, and every diagnostic names the script: by its base
    name once the process was started, by the path it was given before. *)
Theorem validateFile_outcomes (paths : Paths) (scriptPath : string)
    (startTime endTime : Z) :
  let result := validateFile' paths scriptPath startTime endTime in
  let args := ["-d"; dirname scriptPath; "-s"; basename scriptPath]
              ++ (if negb (String.eqb (commandsListPath paths) "")
                     && existsSync (commandsListPath paths)
                  then ["-e"; commandsListPath paths] else []) in
  (success result = true ->
   mfuseExecPath paths <> ""
   /\ existsSync (mfuseExecPath paths) = true
   /\ existsSync scriptPath = true
   /\ exists output,
        spawn (mfuseExecPath paths) args = Closed output
        /\ rawOutput result = output
        /\ diagnostics result = parse_output' (basename scriptPath) output)
  /\ success result = negb (existsb is_error (diagnostics result))
  /\ (Forall (fun d => file d = basename scriptPath) (diagnostics result)
      \/ (isAvailable existsSync paths && existsSync scriptPath = false
          /\ exists text,
               diagnostics result
               = [{| severity := error; line := 0; column := 0;
                     message := text; file := scriptPath |}])).
Proof.
  cbn zeta. unfold validateFile, isAvailable, extra_args.
  destruct (String.eqb_spec (mfuseExecPath paths) "") as [Hempty|Hpath];
    cbn [negb andb].
  { split; [discriminate|]. split; [reflexivity|]. right.
    split; [reflexivity|]. eexists. reflexivity. }
  destruct (existsSync (mfuseExecPath paths)) eqn:Hmfuse; cbn [negb andb].
  2:{ split; [discriminate|]. split; [reflexivity|]. right.
      split; [reflexivity|]. eexists. reflexivity. }
  destruct (existsSync scriptPath) eqn:Hscript; cbn [negb].
  2:{ split; [discriminate|]. split; [reflexivity|]. right.
      split; [reflexivity|]. eexists. reflexivity. }
  set (args := ["-d"; dirname scriptPath; "-s"; basename scriptPath] ++ _).
  unfold runValidation.
  destruct (spawn (mfuseExecPath paths) args) as [output|text] eqn:Hspawn.
  - cbn [diagnostics success rawOutput].
    split; [|split; [apply no_error_filtered|]].
    + intros Hok. split; [exact Hpath|]. split; [reflexivity|].
      split; [reflexivity|].
      exists output. split; [reflexivity|]. split; reflexivity.
    + left. eapply Forall_impl; [apply parse_output_files|].
      intros d (Hfile & _). exact Hfile.
  - unfold failed. cbn [diagnostics success rawOutput].
    split; [discriminate|]. split; [reflexivity|].
    left. constructor; [reflexivity|constructor].
Qed.

End ValidatorProperties.

(** * The properties on a fake world *)

#[global] Instance fake_TimedWorld : TimedWorld Fake.T.
Proof.
  split.
  - intros A c w. simpl. lia.
  - intros n w Hn. simpl. lia.
Qed.

Lemma fake_timer_200 (w : Fake.T) :
  Date_now (fst (setTimeout (JNum 200) w)) = Date_now w + 200.
Proof. reflexivity. Qed.

Lemma not_a_condition_kind s :
  exists s' : State Fake.T,
    checkCondition (Demo.unknown_condition 1000) s = Returned false s'
    /\ now s <= now s' <= now s + 0.
Proof. exists s. split; [reflexivity | lia]. Qed.


Lemma failing_step_halts_phases_witness :
  exists (s1 : State Fake.T) e s2 d s3 td,
    run_phases 0 Demo.script (start_run Demo.script (Fake.engine Demo.no_kill))
    = Thrown e s2
    /\ success (error_record e) = false
    /\ action (error_record e) = "error"
    /\ finally_teardown 0 Demo.script (push_result (error_record e) s2) = Returned tt s3
    /\ stepResults s3
       = (stepResults s1
          ++ [failure_record (Demo.plain "bogus" []) d e; error_record e] ++ td)%list
    /\ Forall2 (fun step res => action res = step_action step)
               (opt_steps (teardown Demo.script)) td
    /\ runScript 0 Demo.script (Fake.engine Demo.no_kill)
       = Returned (test_result Demo.script (now (Fake.engine Demo.no_kill))
                               (set_running false s3))
                  (finish_run Demo.script (now (Fake.engine Demo.no_kill)) s3).
Proof.
  eexists _, _, _.
  eapply (failing_step_halts_phases 0 Demo.script (Fake.engine Demo.no_kill)
            [Demo.plain "log" []] (Demo.plain "bogus" []) [Demo.plain "stop" []]).
  - vm_compute. lia.
  - right. split; [reflexivity|].
    eexists. split; [vm_compute; reflexivity|]. split; vm_compute; reflexivity.
  - vm_compute. reflexivity.
  - vm_compute. reflexivity.
Defined.

Lemma runScript_result_witness :
  exists result s',
    runScript 0 Demo.script (Fake.engine Demo.no_kill) = Returned result s'.
Proof.
  exact (proj1 (proj2 (proj2 (runScript_result 0 Demo.script (Fake.engine Demo.no_kill))))
           ltac:(vm_compute; lia)).
Defined.

Lemma abort_halts_phases_not_teardown_witness :
  exists s1 s2 td,
    run_phases 0 Demo.script (start_run Demo.script (Fake.engine Demo.abort_at_start))
    = Returned tt s1
    /\ stepResults s1 = []
    /\ finally_teardown 0 Demo.script s1 = Returned tt s2
    /\ stepResults s2 = td
    /\ Forall2 (fun step res => action res = step_action step)
               (opt_steps (teardown Demo.script)) td
    /\ runScript 0 Demo.script (Fake.engine Demo.abort_at_start)
       = Returned (test_result Demo.script 0 (set_running false s2))
                  (finish_run Demo.script 0 s2).
Proof.
  apply (proj1 (proj2 (abort_halts_phases_not_teardown 0 Demo.script
                         (Fake.engine Demo.abort_at_start) ltac:(vm_compute; lia)))).
  reflexivity.
Defined.

(** C4, as stated, read with [abort()] called before [runScript] is: the
    flag is set when the run starts, and the main phase still executes its
    one entry. *)
Lemma abort_before_the_call_is_discarded :
  aborted (abort (Fake.engine Fake.quiet)) = true
  /\ exists result s',
      runScript 0 Demo.one_step (abort (Fake.engine Fake.quiet)) = Returned result s'
      /\ steps result = [success_record (Demo.plain "log" []) 0].
Proof. split; [reflexivity|]. eexists _, _. split; reflexivity. Qed.


Lemma waitForCondition_times_out_witness :
  exists s',
    waitForCondition 5 (Demo.unknown_condition 1000) (Fake.engine Fake.quiet)
    = Returned false s'
    /\ (0 < effective_timeout (Demo.unknown_condition 1000) ->
        effective_timeout (Demo.unknown_condition 1000)
        <= now s' - now (Fake.engine Fake.quiet)
        < effective_timeout (Demo.unknown_condition 1000) + 200 + 0)
    /\ (effective_timeout (Demo.unknown_condition 1000) <= 0 ->
        s' = Fake.engine Fake.quiet)
    /\ (forall step,
          condition step = Some (Demo.unknown_condition 1000) ->
          wait_condition 5 step (Fake.engine Fake.quiet)
          = Thrown ("Error: Condition not met: "
                    ++ JSON_stringify (Demo.unknown_condition 1000)) s').
Proof.
  exact (proj1 (waitForCondition_times_out (Demo.unknown_condition 1000) 0
                  fake_timer_200 not_a_condition_kind 5 (Fake.engine Fake.quiet)
                  ltac:(vm_compute; lia))).
Defined.

(** C6, as stated, at a timeout of 0: the wait does not return at once
    but after the 30000 ms of the default, far beyond one poll interval. *)
Lemma zero_timeout_waits_for_the_default :
  (exists s',
      waitForCondition 150 (Demo.unknown_condition 0) (Fake.engine Fake.quiet)
      = Returned false s'
      /\ now s' - now (Fake.engine Fake.quiet) = 30000)
  /\ (forall fuel s',
        waitForCondition fuel (Demo.unknown_condition 0) (Fake.engine Fake.quiet)
        = Returned false s' ->
        ~ (now s' - now (Fake.engine Fake.quiet)
           < cond_timeout (Demo.unknown_condition 0) + 200 + 0)).
Proof.
  split.
  - eexists. split; vm_compute; reflexivity.
  - intros fuel s' Hwait. unfold waitForCondition in Hwait.
    apply waitForCondition_loop_false in Hwait.
    change (effective_timeout (Demo.unknown_condition 0)) with 30000 in Hwait.
    change (cond_timeout (Demo.unknown_condition 0)) with 0. lia.
Qed.

Lemma checkCondition_pixel_color_witness :
  exists s' met,
    checkCondition (Demo.pixel_condition (Demo.rgb 12 8 10) (JNum 3))
      (Fake.engine Demo.grey) = Returned met s'
    /\ (met = true
        <-> within 3 {| r := 10; g := 10; b := 10 |} {| r := 12; g := 8; b := 10 |})
    /\ (3 = 10 ->
        11 <= Z.abs (10 - 12) \/ 11 <= Z.abs (10 - 8) \/ 11 <= Z.abs (10 - 10) ->
        met = false).
Proof.
  apply (proj1 (checkCondition_pixel_color
                  (Demo.pixel_condition (Demo.rgb 12 8 10) (JNum 3))
                  (Fake.engine Demo.grey) {| r := 12; g := 8; b := 10 |}
                  ltac:(reflexivity) ltac:(reflexivity)
                  ltac:(right; exists 3; reflexivity))).
  reflexivity.
Defined.

(** C7, as stated, at a tolerance of 0: the channels differ by 5, more
    than the tolerance given, and the condition is met all the same. *)
Lemma zero_tolerance_is_ten :
  prop (cond_params (Demo.pixel_condition (Demo.rgb 5 5 5) (JNum 0))) "tolerance" = JNum 0
  /\ (exists s',
        checkCondition (Demo.pixel_condition (Demo.rgb 5 5 5) (JNum 0))
          (Fake.engine Demo.black) = Returned true s')
  /\ ~ within 0 {| r := 0; g := 0; b := 0 |} {| r := 5; g := 5; b := 5 |}.
Proof.
  split; [reflexivity|]. split.
  - eexists. reflexivity.
  - unfold within. simpl. lia.
Qed.

Lemma checkCondition_timeout_and_unknown_witness :
  exists s',
    waitForCondition 5 (Demo.unknown_condition 1000) (Fake.engine Fake.quiet)
    = Returned false s'
    /\ wait_condition 5 (Demo.guarded (Demo.unknown_condition 1000)) (Fake.engine Fake.quiet)
       = Thrown ("Error: Condition not met: "
                 ++ JSON_stringify (Demo.unknown_condition 1000)) s'.
Proof.
  apply (proj2 (proj2 (checkCondition_timeout_and_unknown 5))
           (Demo.unknown_condition 1000) (Demo.guarded (Demo.unknown_condition 1000))
           (Fake.engine Fake.quiet)).
  - vm_compute. intuition discriminate.
  - reflexivity.
  - vm_compute. lia.
Defined.



(** ** The further properties on the fake world *)

Lemma passed_run_ran_every_entry_witness :
  exists result s',
    runScript 0 Demo.one_step (Fake.engine Fake.quiet) = Returned result s'
    /\ map action (steps result) = map step_action (all_entries Demo.one_step).
Proof.
  eexists _, _. split; [vm_compute; reflexivity|].
  eapply (passed_run_ran_every_entry 0 Demo.one_step (Fake.engine Fake.quiet)).
  - vm_compute. reflexivity.
  - reflexivity.
  - reflexivity.
Defined.

Lemma results_follow_the_script_witness :
  exists result s',
    runScript 0 Demo.script (Fake.engine Demo.no_kill) = Returned result s'
    /\ exists (n m : nat) (err : list string),
         map action (steps result)
         = (map step_action (firstn n (opt_steps (setup Demo.script)))
            ++ map step_action (firstn m (script_steps Demo.script))
            ++ err ++ map step_action (opt_steps (teardown Demo.script)))%list
         /\ (err = [] \/ err = ["error"])
         /\ (n <= length (opt_steps (setup Demo.script)))%nat
         /\ (m <= length (script_steps Demo.script))%nat
         /\ (0 < m -> n = length (opt_steps (setup Demo.script)))%nat
         /\ (length (steps result) <= length (all_entries Demo.script) + 1)%nat.
Proof.
  eexists _, _. split; [vm_compute; reflexivity|].
  eapply (results_follow_the_script 0 Demo.script (Fake.engine Demo.no_kill)).
  vm_compute. reflexivity.
Defined.

Lemma runScript_starts_fresh_witness :
  exists result s',
    runScript 0 Demo.one_step (Fake.engine Fake.quiet) = Returned result s'
    /\ isRunning s' = false
    /\ getStepResults s' = steps result
    /\ name result = script_name Demo.one_step.
Proof.
  eexists _, _. split; [vm_compute; reflexivity|].
  eapply (proj2 (runScript_starts_fresh 0 Demo.one_step (Fake.engine Fake.quiet))).
  vm_compute. reflexivity.
Defined.

Lemma assert_reads_what_was_set_witness :
  executeAction 0 "assert" [("variable", JStr "k"); ("expected", JStr "v")]
    (setVariable "k" (JStr "v") (Fake.engine Fake.quiet))
  = Returned tt (setVariable "k" (JStr "v") (Fake.engine Fake.quiet))
  /\ executeAction 0 "assert" [("variable", JStr "k"); ("expected", JStr "v")]
       (setVariable "k" (JStr "other") (Fake.engine Fake.quiet))
     = Thrown "Error: Assertion failed: k = other, expected v"
         (setVariable "k" (JStr "other") (Fake.engine Fake.quiet)).
Proof.
  split.
  - apply (proj1 (assert_reads_what_was_set 0
                    [("variable", JStr "k"); ("expected", JStr "v")] "k" (JStr "v")
                    (Fake.engine Fake.quiet) ltac:(reflexivity))).
    + reflexivity.
    + intros fields. discriminate.
  - apply (proj1 (proj2 (assert_reads_what_was_set 0
                    [("variable", JStr "k"); ("expected", JStr "v")] "k"
                    (JStr "other") (Fake.engine Fake.quiet) ltac:(reflexivity)))
             "other" "v").
    + reflexivity.
    + reflexivity.
    + discriminate.
Defined.

Lemma get_cvar_then_assert_is_cvar_value_witness :
  let c := {| cond_type := "cvar_value";
              cond_params := [("name", JStr "sv_cheats"); ("expected", JStr "1")];
              cond_timeout := 1000 |} in
  let fetch := executeAction 0 "get_cvar"
                 [("name", JStr "sv_cheats"); ("storeAs", JStr "k")] in
  let check := executeAction 0 "assert"
                 [("variable", JStr "k"); ("expected", JStr "1")] in
  match checkCondition c (Fake.engine Fake.quiet) with
  | Returned met s1 =>
      exists s2,
        fetch (Fake.engine Fake.quiet) = Returned tt s2
        /\ world s2 = world s1
        /\ (met = true -> check s2 = Returned tt s2)
        /\ (met = false -> exists e, check s2 = Thrown e s2)
  | Thrown e s1 =>
      exists s2, fetch (Fake.engine Fake.quiet) = Thrown e s2 /\ world s2 = world s1
  | OutOfFuel => False
  end.
Proof.
  exact (get_cvar_then_assert_is_cvar_value 0 (JStr "sv_cheats") (JStr "1") "k"
           (Fake.engine Fake.quiet) 1000 ltac:(discriminate)).
Defined.

Lemma waitForCondition_answers_witness :
  waitForCondition 1
    {| cond_type := "timeout"; cond_params := []; cond_timeout := 1000 |}
    (Fake.engine Fake.quiet)
  = Returned true (Fake.engine Fake.quiet).
Proof.
  apply (proj1 (proj2 (proj2 (waitForCondition_answers 0
                  {| cond_type := "timeout"; cond_params := []; cond_timeout := 1000 |}
                  (Fake.engine Fake.quiet))))).
  - reflexivity.
  - vm_compute. reflexivity.
Defined.

Lemma waitForPixelColor_answers_witness :
  waitForPixelColor 0 (JNum 1) (JNum 1) (Demo.rgb 0 0 0) (JNum 0) JUndefined
    (Fake.engine Demo.black)
  = Returned false (Fake.engine Demo.black)
  /\ (exists s',
        waitForPixelColor 2 (JNum 1) (JNum 1) (Demo.rgb 255 255 255) (JNum 400)
          JUndefined (Fake.engine Demo.black)
        = Returned false s'
        /\ 400 <= now s' - now (Fake.engine Demo.black)).
Proof.
  split.
  - apply (proj1 (proj2 (proj2 (waitForPixelColor_answers 0 (JNum 1) (JNum 1)
                    (Demo.rgb 0 0 0) (JNum 0) JUndefined (Fake.engine Demo.black)
                    ltac:(right; exists 0; reflexivity))))).
    simpl. lia.
  - eexists. split; [vm_compute; reflexivity|].
    apply (proj1 (proj2 (waitForPixelColor_answers 2 (JNum 1) (JNum 1)
                    (Demo.rgb 255 255 255) (JNum 400) JUndefined
                    (Fake.engine Demo.black)
                    ltac:(right; exists 400; reflexivity)))).
    vm_compute. reflexivity.
Defined.

Lemma waitForImage_answers_witness :
  waitForImage 0 (JStr "menu.png") (JNum 0) JUndefined (Fake.engine Fake.quiet)
  = Returned notFound (Fake.engine Fake.quiet)
  /\ (exists s',
        waitForImage 2 (JStr "menu.png") (JNum 1000) JUndefined (Fake.engine Fake.quiet)
        = Returned notFound s'
        /\ 1000 <= now s' - now (Fake.engine Fake.quiet)).
Proof.
  split.
  - apply (proj1 (proj2 (waitForImage_answers 0 (JStr "menu.png") (JNum 0) JUndefined
                           (Fake.engine Fake.quiet)
                           ltac:(right; exists 0; reflexivity)))).
    simpl. lia.
  - eexists. split; [vm_compute; reflexivity|].
    destruct (proj1 (waitForImage_answers 2 (JStr "menu.png") (JNum 1000) JUndefined
                       (Fake.engine Fake.quiet)
                       ltac:(right; exists 1000; reflexivity))
                notFound _ ltac:(vm_compute; reflexivity))
      as [(s0 & _ & Hfound)|(_ & Hlate)]; [discriminate|exact Hlate].
Defined.

Lemma createConsoleTest_well_formed_witness :
  exists result s',
    runScript 0 (createConsoleTest ["god"; "noclip"] "/opt/openmohaa")
      (Fake.engine Fake.quiet)
    = Returned result s'
    /\ variables s' = variables (Fake.engine Fake.quiet).
Proof.
  exact (proj2 (proj2 (proj2 (createConsoleTest_well_formed (W := Fake.T)
                                ["god"; "noclip"] "/opt/openmohaa")))
           fake_TimedWorld 0%nat (Fake.engine Fake.quiet)).
Defined.

Lemma createMapLoadTest_well_formed_witness :
  exists result s',
    runScript 150 (createMapLoadTest "dm1" "/opt/openmohaa") (Fake.engine Fake.quiet)
    = Returned result s'
    /\ variables s' = variables (Fake.engine Fake.quiet).
Proof.
  exact (proj2 (proj2 (proj2 (proj2 (proj2
           (createMapLoadTest_well_formed (W := Fake.T) "dm1" "/opt/openmohaa")))))
           fake_TimedWorld 150%nat (Fake.engine Fake.quiet) ltac:(lia)).
Defined.

Lemma getPixels_has_every_position_witness :
  match getPixels [] (Fake.engine Fake.quiet) with
  | Returned out s' => out = ∅ /\ s' = Fake.engine Fake.quiet
  | _ => False
  end.
Proof.
  pose proof (getPixels_has_every_position [] (Fake.engine Fake.quiet)) as Hall.
  destruct (getPixels [] (Fake.engine Fake.quiet)) as [out s'|e s'|].
  - exact (proj2 Hall eq_refl).
  - exact (Hall eq_refl).
  - exact Hall.
Defined.

Lemma buildArguments_appends_settings_witness :
  exists settings : list (string * string),
    Launcher.buildArguments Sample.config
    = (["+map"; "dm1"]
       ++ flat_map (fun setting => ["+set"; fst setting; snd setting]) settings)%list
    /\ In ("r_customwidth", pretty 800) settings
    /\ In ("r_customheight", pretty 600) settings.
Proof.
  destruct (buildArguments_appends_settings Sample.config)
    as (settings & Hargs & _ & _ & _ & _ & _ & Hres).
  exists settings. split; [exact Hargs|].
  exact (Hres 800 600 eq_refl).
Defined.

Lemma handleOutput_fills_a_bounded_buffer_witness :
  Z.of_nat (length (fst (Launcher.handleOutput Sample.blank Sample.clock Sample.chunk
                           Launcher.stdout Sample.buffer))) <= 10000.
Proof.
  exact (proj1 (handleOutput_fills_a_bounded_buffer Sample.blank Sample.clock
                  Sample.chunk Launcher.stdout Sample.buffer
                  ltac:(vm_compute; discriminate))).
Defined.

Lemma push_output_halves_a_full_buffer_witness :
  Launcher.push_output (Sample.entry "Disconnected") Sample.buffer
  = (Sample.buffer ++ [Sample.entry "Disconnected"])%list.
Proof.
  exact (proj1 (push_output_halves_a_full_buffer (Sample.entry "Disconnected")
                  Sample.buffer)
           ltac:(vm_compute; reflexivity)).
Defined.

Lemma searchConsole_searches_the_window_witness :
  Launcher.searchConsole Sample.compiles Sample.test Sample.syntax_error "map"
    (Some 2) Sample.buffer
  = inr (List.filter (fun entry => Sample.test "map" (Launcher.text entry))
           (Launcher.getConsoleBuffer (Some 2) Sample.buffer)).
Proof.
  exact (proj1 (searchConsole_searches_the_window Sample.compiles Sample.test
                  Sample.syntax_error "map" (Some 2) Sample.buffer)
           ltac:(reflexivity)).
Defined.

Lemma getRecentOutput_is_the_end_witness :
  length (Console.getRecentOutput (Some 2) Sample.buffer)
  = Nat.min (Z.to_nat 2) (length Sample.buffer).
Proof.
  exact (proj1 (proj2 (proj2 (getRecentOutput_is_the_end (Some 2) Sample.buffer)))
           2 ltac:(lia)).
Defined.

Lemma runValidation_diagnostics_witness :
  Validator.rawOutput
    (Validator.runValidation Sample.trim Sample.loc_match Sample.parseInt Sample.keep
       Sample.keep Sample.simple_match Sample.spawn "/opt/mfuse_exec" [] "a.scr" 0 7)
  = Sample.output.
Proof.
  exact (proj1 (proj1 (proj2 (proj2 (proj2
           (runValidation_diagnostics Sample.trim Sample.loc_match Sample.parseInt
              Sample.keep Sample.keep Sample.simple_match Sample.spawn
              "/opt/mfuse_exec" [] "a.scr" 0 7))))
           Sample.output ltac:(reflexivity))).
Defined.

Lemma warnings_do_not_fail_witness :
  let result :=
    Validator.runValidation Sample.trim Sample.loc_match Sample.parseInt Sample.keep
      Sample.keep Sample.simple_match Sample.spawn "/opt/mfuse_exec" [] "a.scr" 0 7 in
  Validator.success result = true
  /\ Forall (fun d => Validator.severity d = Validator.warning)
            (Validator.diagnostics result).
Proof.
  apply (warnings_do_not_fail Sample.trim Sample.loc_match Sample.parseInt Sample.keep
           Sample.keep Sample.simple_match Sample.spawn "/opt/mfuse_exec" [] "a.scr"
           Sample.output 0 7).
  - reflexivity.
  - intros raw _. split; [reflexivity|].
    intros type name number. unfold Sample.loc_match, Sample.trim.
    destruct (String.eqb raw "W: (a.scr, 3):"); [|discriminate].
    intros Hloc. injection Hloc as <- _ _. discriminate.
Defined.

Lemma validateFile_outcomes_witness :
  Validator.mfuseExecPath Sample.paths <> ""
  /\ Sample.existsSync (Validator.mfuseExecPath Sample.paths) = true
  /\ Sample.existsSync "a.scr" = true.
Proof.
  destruct (proj1 (validateFile_outcomes Sample.trim Sample.loc_match Sample.parseInt
                     Sample.keep Sample.keep Sample.simple_match Sample.existsSync
                     Sample.dirname Sample.basename Sample.spawn Sample.paths
                     "a.scr" 0 7)
              ltac:(vm_compute; reflexivity)) as (Hpath & Hmfuse & Hscript & _).
  exact (conj Hpath (conj Hmfuse Hscript)).
Defined.
